(** * hodl-my-notes: the chain integrity engine

    A shallow embedding of the logbook's hash chain ([src/utils/chain.ts]),
    its Merkle commitments ([src/utils/merkle.ts]), the reconciliation with
    the contract ([src/app/logbookReconstructor.ts],
    [src/services/blockchainSyncService.ts]), the verification of an
    export ([src/app/logbookVerifier.ts]), and, for the further properties,
    the export itself ([src/app/logbookExporter.ts]), the creation and
    anchoring of an entry ([src/app/logbookCreator.ts],
    [src/services/anchorService.ts]) and the validation from the menu
    ([src/app/logbookCli.ts]).

    Conventions of the embedding:
    - a TypeScript [string] is a [string] of bytes, read as its UTF-8
      encoding, so [ethers.toUtf8Bytes] is the list of its bytes;
    - a [Buffer] is a [list byte];
    - a [number] holding a timestamp or a block number is an integer of [Z];
    - a method that can throw returns a [result]; a method that writes to the
      disk threads a [FileSystem]. *)

From Stdlib Require Import ZArith List String Ascii Lia Bool.
From Stdlib.Strings Require Import Byte.
From stdpp Require Import gmap strings list pretty.
From Equations Require Import Equations.
Import ListNotations.

Local Open Scope Z_scope.
Local Open Scope string_scope.
Local Open Scope list_scope.

(** ** Results of calls that can throw *)

Inductive result (A : Type) : Type :=
| Ok (a : A)
| Throw (message : string).
Arguments Ok {A} a.
Arguments Throw {A} message.

(** ** Buffers and their hexadecimal form *)

Module Buffer.

Definition t := list byte.

Definition nibble (n : N) : ascii :=
  match n with
  | 0 => "0" | 1 => "1" | 2 => "2" | 3 => "3" | 4 => "4" | 5 => "5"
  | 6 => "6" | 7 => "7" | 8 => "8" | 9 => "9" | 10 => "a" | 11 => "b"
  | 12 => "c" | 13 => "d" | 14 => "e" | _ => "f"
  end%N%char.

(** The value of a hexadecimal digit, in either case. *)
Definition hex_digit (c : ascii) : option N :=
  let n := N_of_ascii c in
  if ((48 <=? n) && (n <=? 57))%N then Some (n - 48)%N
  else if ((97 <=? n) && (n <=? 102))%N then Some (n - 87)%N
  else if ((65 <=? n) && (n <=? 70))%N then Some (n - 55)%N
  else None.

Definition is_hex (c : ascii) : bool :=
  match hex_digit c with Some _ => true | None => false end.

Definition byte_of_N (n : N) : byte :=
  match Byte.of_N n with Some b => b | None => x00 end.

(** [buf.toString("hex")]: two lowercase digits per byte. *)
Fixpoint toString_hex (b : t) : string :=
  match b with
  | [] => EmptyString
  | x :: rest =>
      String (nibble (Byte.to_N x / 16)) (String (nibble (Byte.to_N x mod 16))
        (toString_hex rest))
  end.

(** [Buffer.from(s, "hex")]: decodes pairs of digits and stops at the first
    pair that is not hexadecimal; a trailing single character is dropped. *)
Fixpoint from_hex (s : string) : t :=
  match s with
  | String a (String b rest) =>
      match hex_digit a, hex_digit b with
      | Some hi, Some lo => byte_of_N (16 * hi + lo) :: from_hex rest
      | _, _ => []
      end
  | _ => []
  end.

(** [Buffer.compare]: bytes compared as unsigned numbers, first difference
    decides, a proper prefix is smaller. *)
Fixpoint compare (a b : t) : comparison :=
  match a, b with
  | [], [] => Eq
  | [], _ :: _ => Lt
  | _ :: _, [] => Gt
  | x :: a', y :: b' =>
      match N.compare (Byte.to_N x) (Byte.to_N y) with
      | Eq => compare a' b'
      | c => c
      end
  end.

Definition of_string (s : string) : t := list_byte_of_string s.

End Buffer.

(** [s.slice(2)] *)
Definition slice2 (s : string) : string :=
  match s with
  | String _ (String _ rest) => rest
  | _ => EmptyString
  end.

(** ** SHA-256 *)

(** Modelled from the spec: [ethers.sha256], of the [ethers] package, is not
    under src/; section 2 names the Hasher as SHA-256 over UTF-8 bytes, and
    this is SHA-256 as FIPS 180-4 defines it, on byte strings. *)

Module SHA256.

Definition w32 (x : Z) : Z := x mod 2 ^ 32.
Definition rotr (n x : Z) : Z :=
  Z.lor (Z.shiftr x n) (w32 (Z.shiftl x (32 - n))).
Definition shr (n x : Z) : Z := Z.shiftr x n.

Definition Ch (x y z : Z) : Z :=
  Z.lxor (Z.land x y) (Z.land (Z.lnot x) z).
Definition Maj (x y z : Z) : Z :=
  Z.lxor (Z.lxor (Z.land x y) (Z.land x z)) (Z.land y z).
Definition Sigma0 x := Z.lxor (Z.lxor (rotr 2 x) (rotr 13 x)) (rotr 22 x).
Definition Sigma1 x := Z.lxor (Z.lxor (rotr 6 x) (rotr 11 x)) (rotr 25 x).
Definition sigma0 x := Z.lxor (Z.lxor (rotr 7 x) (rotr 18 x)) (shr 3 x).
Definition sigma1 x := Z.lxor (Z.lxor (rotr 17 x) (rotr 19 x)) (shr 10 x).

(** The first [n] primes, by trial division. *)
Definition is_prime (p : Z) : bool :=
  forallb (fun d => negb (p mod Z.of_nat d =? 0)%Z) (seq 2 (Z.to_nat p - 2)).

Definition primes (n : nat) : list Z :=
  firstn n (filter is_prime (map Z.of_nat (seq 2 310))).

(** The integer cube root of a number below 2^105, one bit at a time. *)
Definition cube_root (n : Z) : Z :=
  fold_left (fun r b => let r' := r + 2 ^ Z.of_nat b in
                        if (r' * r' * r' <=? n)%Z then r' else r)
            (rev (seq 0 35)) 0.

(** The round constants: the first 32 bits of the fractional parts of the
    cube roots of the first 64 primes. *)
Definition K : list Z :=
  Eval vm_compute in map (fun p => w32 (cube_root (p * 2 ^ 96))) (primes 64).

(** The initial hash value: the same of the square roots of the first 8. *)
Definition H0 : list Z :=
  Eval vm_compute in map (fun p => w32 (Z.sqrt (p * 2 ^ 64))) (primes 8).

Definition Z_of_byte (b : byte) : Z := Z.of_N (Byte.to_N b).
Definition byte_of_Z (z : Z) : byte := Buffer.byte_of_N (Z.to_N (z mod 256)).

(** Big-endian number of [n] bytes. *)
Fixpoint be_bytes (n : nat) (z : Z) : list byte :=
  match n with
  | O => []
  | S k => byte_of_Z (Z.shiftr z (8 * Z.of_nat k)) :: be_bytes k z
  end.

Definition be_word (bs : list byte) : Z :=
  fold_left (fun acc b => 256 * acc + Z_of_byte b) bs 0.

(** The message, a 1 bit, zeros, and the bit length on 64 bits: a multiple
    of 64 bytes. *)
Definition pad (msg : list byte) : list byte :=
  let len := List.length msg in
  let zeros := ((64 - (len + 9) mod 64) mod 64)%nat in
  msg ++ x80 :: repeat x00 zeros ++ be_bytes 8 (8 * Z.of_nat len).

Fixpoint chunks (size count : nat) (l : list byte) : list (list byte) :=
  match count with
  | O => []
  | S k => firstn size l :: chunks size k (skipn size l)
  end.

(** The message schedule, most recent word first. *)
Fixpoint schedule (n : nat) (rw : list Z) : list Z :=
  match n with
  | O => rw
  | S k =>
      let wt := w32 (sigma1 (nth 1 rw 0) + nth 6 rw 0
                     + sigma0 (nth 14 rw 0) + nth 15 rw 0) in
      schedule k (wt :: rw)
  end.

Definition round (s : list Z) (kw : Z * Z) : list Z :=
  match s with
  | [a; b; c; d; e; f; g; h] =>
      let t1 := h + Sigma1 e + Ch e f g + fst kw + snd kw in
      let t2 := Sigma0 a + Maj a b c in
      [w32 (t1 + t2); a; b; c; w32 (d + t1); e; f; g]
  | _ => s
  end.

Definition compress (h : list Z) (block : list byte) : list Z :=
  let w16 := map be_word (chunks 4 16 block) in
  let w := rev (schedule 48 (rev w16)) in
  let s := fold_left round (combine K w) h in
  map (fun p => w32 (fst p + snd p)) (combine h s).

Definition digest (msg : list byte) : list byte :=
  let p := pad msg in
  let h := fold_left compress (chunks 64 (List.length p / 64) p) H0 in
  concat (map (be_bytes 4) h).

End SHA256.

(** [ethers.sha256(bytes)]: the digest as a 0x-prefixed hexadecimal string. *)
Definition ethers_sha256 (data : Buffer.t) : string :=
  "0x" +:+ Buffer.toString_hex (SHA256.digest data).

(** [ethers.toUtf8Bytes] *)
Definition toUtf8Bytes (s : string) : Buffer.t := Buffer.of_string s.

(** [src/utils/hash.ts] *)
Definition hashContent (content : string) : string :=
  ethers_sha256 (toUtf8Bytes content).

Definition buildPayload (name hash : string) : string :=
  "logbook:" +:+ name +:+ ":" +:+ hash.

(** ** Merkle trees *)

(** Modelled from the spec: the [MerkleTree] class of the [merkletreejs]
    package, which [src/utils/merkle.ts] instantiates with
    [{ sortPairs: true }] and which is not under src/.  Following section 4.2
    of the specification: a pair of siblings is sorted with [Buffer.compare]
    before it is concatenated and hashed, the last node of a layer of odd
    length is carried up unchanged, a proof lists the sibling met on every
    layer where there is one, and verification folds the running hash with
    each proof element, sorting the two before combining. *)
Module MerkleTree.
Section WithHash.

Variable hashFn : Buffer.t -> Buffer.t.

Record t := { leaves : list Buffer.t; layers : list (list Buffer.t) }.

(** [combined.sort(Buffer.compare)], then [hashFn(Buffer.concat(combined))] *)
Definition hashPair (nodeL nodeR : Buffer.t) : Buffer.t :=
  match Buffer.compare nodeL nodeR with
  | Gt => hashFn (nodeR ++ nodeL)
  | _ => hashFn (nodeL ++ nodeR)
  end.

(** One pass of the loop [for (i = 0; i < nodes.length; i += 2)]. *)
Fixpoint nextLayer (nodes : list Buffer.t) : list Buffer.t :=
  match nodes with
  | nodeL :: nodeR :: rest => hashPair nodeL nodeR :: nextLayer rest
  | [single] => [single]
  | [] => []
  end.

(** [while (nodes.length > 1)]: the layers, leaves first. *)
Equations? createHashes (nodes : list Buffer.t) : list (list Buffer.t)
  by wf (length nodes) lt :=
  createHashes [] := [[]];
  createHashes [x] := [[x]];
  createHashes (x :: y :: rest) :=
    (x :: y :: rest) :: createHashes (nextLayer (x :: y :: rest)).
Proof.
  assert (shrinks : forall l : list Buffer.t,
             (length (nextLayer l) <= length l)%nat /\
             forall z, (length (nextLayer (z :: l)) <= S (length l))%nat).
  { induction l as [|z' l' [IH1 IH2]]; split; intros; simpl in *; try lia.
    specialize (IH2 z'). lia. }
  destruct (shrinks rest) as [H _]. simpl. lia.
Qed.

Definition new (lvs : list Buffer.t) : t :=
  {| leaves := lvs; layers := createHashes lvs |}.

(** [this.layers[this.layers.length - 1][0] || Buffer.from([])] *)
Definition top (lys : list (list Buffer.t)) : Buffer.t :=
  match last lys with
  | Some (root :: _) => root
  | _ => []
  end.

Definition getRoot (tree : t) : Buffer.t := top (layers tree).

(** The search of [getProof]: the last index whose leaf compares equal. *)
Fixpoint leafIndex (leaf : Buffer.t) (lvs : list Buffer.t) (i : nat)
         (found : option nat) : option nat :=
  match lvs with
  | [] => found
  | l :: rest =>
      leafIndex leaf rest (S i)
        (match Buffer.compare leaf l with Eq => Some i | _ => found end)
  end.

(** The sibling of [index] in [layer], when [pairIndex < layer.length]. *)
Definition sibling (layer : list Buffer.t) (index : nat) : list Buffer.t :=
  let pairIndex := if Nat.odd index then (index - 1)%nat else (index + 1)%nat in
  match layer !! pairIndex with
  | Some data => [data]
  | None => []
  end.

(** The loop of [getProof] over the layers; [index = (index / 2) | 0]. *)
Fixpoint proofFrom (lys : list (list Buffer.t)) (index : nat) : list Buffer.t :=
  match lys with
  | [] => []
  | layer :: upper => sibling layer index ++ proofFrom upper (Nat.div2 index)
  end.

Definition getProof (tree : t) (leaf : Buffer.t) : list Buffer.t :=
  match leafIndex leaf (leaves tree) 0 None with
  | None => []
  | Some index => proofFrom (layers tree) index
  end.

(** One step of [verify] with [sortPairs]. *)
Definition verifyStep (hash data : Buffer.t) : Buffer.t :=
  match Buffer.compare hash data with
  | Lt => hashFn (hash ++ data)
  | _ => hashFn (data ++ hash)
  end.

Definition verify (proof : list Buffer.t) (targetNode root : Buffer.t) : bool :=
  match Buffer.compare (fold_left verifyStep proof targetNode) root with
  | Eq => true
  | _ => false
  end.

End WithHash.
End MerkleTree.

(** ** [src/utils/merkle.ts] *)

Inductive StringOrBuffer :=
| Str (s : string)
| Buf (b : Buffer.t).

Definition hashLeaf (data : StringOrBuffer) : Buffer.t :=
  let bytes := match data with Buf b => b | Str s => toUtf8Bytes s end in
  let hash := ethers_sha256 bytes in
  Buffer.from_hex (slice2 hash).

Definition createMerkleTree (leaves : list string) : MerkleTree.t :=
  let hashedLeaves := map (fun l => hashLeaf (Str l)) leaves in
  MerkleTree.new (fun b => hashLeaf (Buf b)) hashedLeaves.

Definition getMerkleRoot (tree : MerkleTree.t) : string :=
  "0x" +:+ Buffer.toString_hex (MerkleTree.getRoot tree).

Definition getMerkleProof (tree : MerkleTree.t) (leaf : string) : list string :=
  let hashedLeaf := hashLeaf (Str leaf) in
  map (fun p => "0x" +:+ Buffer.toString_hex p) (MerkleTree.getProof tree hashedLeaf).

Definition verifyMerkleProof (proof : list string) (leaf root : string) : bool :=
  let hashedLeaf := hashLeaf (Str leaf) in
  let proofBuffers := map (fun p => Buffer.from_hex (slice2 p)) proof in
  let rootBuffer := Buffer.from_hex (slice2 root) in
  MerkleTree.verify (fun b => hashLeaf (Buf b)) proofBuffers hashedLeaf rootBuffer.


(** ** [src/types/index.ts] *)

Module BaseEntry.
Record t := {
  name : string;
  entryHash : string;
  previousHash : string;
  timestamp : Z;
  blockNumber : Z }.
End BaseEntry.

Module ChainEntry.
Record t := {
  name : string;
  entryHash : string;
  previousHash : string;
  txHash : string;
  timestamp : Z;
  blockNumber : Z;
  merkleRoot : string }.
End ChainEntry.

Module ChainData.
Record t := {
  logbookName : string;
  entries : list ChainEntry.t }.
End ChainData.

Module ValidationResult.
Record t := { valid : bool; brokenAtIndex : Z }.
End ValidationResult.

Module SyncResult.
Record t := {
  success : bool;
  entries : list BaseEntry.t;
  errors : list string }.
End SyncResult.

Module ExportEntry.
Record t := {
  index : Z;
  name : string;
  content : string;
  entryHash : string;
  previousHash : string;
  txHash : string;
  timestamp : Z;
  blockNumber : Z;
  merkleRoot : string }.
End ExportEntry.

Module ExportData.
Record metadata_t := {
  version : string;
  logbookName : string;
  logbookNameHash : string;
  exportDate : string;
  totalEntries : Z;
  walletAddress : string;
  chainId : Z;
  codeHash : string }.
Record t := {
  metadata : metadata_t;
  entries : list ExportEntry.t }.
End ExportData.

(** ** The disk under [LOGBOOK_ROOT] *)

(** What [JSON.parse] makes of a [chain.json]. *)
Inductive chain_json :=
| SyntaxError (message : string)
| NotAChain
| Document (data : ChainData.t).

(** What [fs.readFileSync] makes of an [entry.txt]. *)
Inductive entry_file :=
| Unreadable (message : string)
| Text (content : string).

(** Logbook directories are keyed by logbook name and entry files by logbook
    and entry name: [path.join] is taken to be injective on the names in use.
    [writeError], when set, is the message with which every write fails. *)
Record FileSystem := {
  logbookDirs : gset string;
  chainFiles : gmap string chain_json;
  entryFiles : gmap (string * string) entry_file;
  writeError : option string }.

(** ** Calls that read and write a state and can throw *)

Definition M (S A : Type) : Type := S -> result A * S.

Definition ret {S A} (a : A) : M S A := fun s => (Ok a, s).
Definition throw {S A} (message : string) : M S A := fun s => (Throw message, s).
Definition bind {S A B} (m : M S A) (k : A -> M S B) : M S B :=
  fun s =>
    match m s with
    | (Ok a, s') => k a s'
    | (Throw message, s') => (Throw message, s')
    end.
Definition get {S} : M S S := fun s => (Ok s, s).
Definition put {S} (s : S) : M S unit := fun _ => (Ok tt, s).

Notation "x <- m ;; k" := (bind m (fun x => k))
  (at level 100, m at next level, right associativity).
Notation "m ;;; k" := (bind m (fun _ => k))
  (at level 100, right associativity).

(** [try { m } catch (error) { handler(error.message) }] *)
Definition try_catch {S A} (m : M S A) (handler : string -> M S A) : M S A :=
  fun s =>
    match m s with
    | (Ok a, s') => (Ok a, s')
    | (Throw message, s') => handler message s'
    end.

Definition mkdirSync (logbook : string) : M FileSystem unit :=
  fs <- get ;;
  match writeError fs with
  | Some message => throw message
  | None =>
      put {| logbookDirs := {[logbook]} ∪ logbookDirs fs;
             chainFiles := chainFiles fs;
             entryFiles := entryFiles fs;
             writeError := None |}
  end.

Definition writeChainFile (logbook : string) (data : ChainData.t) : M FileSystem unit :=
  fs <- get ;;
  match writeError fs with
  | Some message => throw message
  | None =>
      put {| logbookDirs := logbookDirs fs;
             chainFiles := <[logbook := Document data]> (chainFiles fs);
             entryFiles := entryFiles fs;
             writeError := None |}
  end.

(** [mkdirSync(entryDir, { recursive: true })]: entry directories are not
    kept on the model's disk, only the failure of the call is. *)
Definition mkdirEntry : M FileSystem unit :=
  fs <- get ;;
  match writeError fs with
  | Some message => throw message
  | None => ret tt
  end.

(** [writeFileSync(entryPath, content)] *)
Definition writeEntryFile (logbook entry content : string) : M FileSystem unit :=
  fs <- get ;;
  match writeError fs with
  | Some message => throw message
  | None =>
      put {| logbookDirs := logbookDirs fs;
             chainFiles := chainFiles fs;
             entryFiles := <[(logbook, entry) := Text content]> (entryFiles fs);
             writeError := None |}
  end.

(** ** Strings of the source *)

Definition is_space (c : ascii) : bool :=
  let n := N_of_ascii c in ((9 <=? n) && (n <=? 13) || (n =? 32))%N.

(** [!s || s.trim() === ""], for the white space of ASCII. *)
Definition blank (s : string) : bool :=
  forallb is_space (list_ascii_of_string s).

Definition all_hex (s : string) : bool :=
  forallb Buffer.is_hex (list_ascii_of_string s).

(** [s.match(/^0x[0-9a-fA-F]+$/)] *)
Definition match_0x_hex (s : string) : bool :=
  match s with
  | String "0" (String "x" digits) =>
      negb (String.eqb digits "") && all_hex digits
  | _ => false
  end.

(** [s.match(/^0x[0-9a-fA-F]{64}$/)] *)
Definition match_0x_hex64 (s : string) : bool :=
  match s with
  | String "0" (String "x" digits) =>
      Nat.eqb (String.length digits) 64 && all_hex digits
  | _ => false
  end.

(** [s.includes(sub)] *)
Fixpoint includes (sub s : string) : bool :=
  String.prefix sub s ||
  match s with
  | EmptyString => false
  | String _ rest => includes sub rest
  end.

Definition newline : string := String (ascii_of_nat 10) EmptyString.

(** [lines.join("\n")] *)
Fixpoint join_lines (lines : list string) : string :=
  match lines with
  | [] => ""
  | [line] => line
  | line :: rest => line +:+ newline +:+ join_lines rest
  end.

(** ** [src/utils/chain.ts] *)

Definition GENESIS_HASH : string := hashContent "genesis".

(** The entries of [errors] in the report of [validateChain], one
    constructor per message of the source. *)
Inductive validation_error :=
| GenesisMismatch
    (* First entry must have genesis previousHash (GENESIS_HASH) *)
| ChainBroken (index : nat) (expected got : string)
    (* Chain broken at index i: previousHash mismatch (expected .., got ..) *)
| EntryFileNotFound (logbook entry : string)
    (* Entry file not found: entryPath *)
| ContentHashMismatch (entry expected computed : string)
    (* Content hash mismatch for entry ..: expected .., computed .. *)
| ReadFailed (entry message : string).
    (* Failed to read entry ..: error.message *)

Module ChainManager.

(** The object: [this.logbookName] and [this.data]; [this.logbookDir] and
    [this.chainFile] are functions of the name. *)
Record t := {
  logbookName : string;
  data : ChainData.t }.

(** The state a method runs in: the object and the disk. *)
Definition state : Type := t * FileSystem.

Definition onDisk {A} (m : M FileSystem A) : M state A :=
  fun s =>
    let (r, fs') := m (snd s) in (r, (fst s, fs')).

Definition this : M state t := fun s => (Ok (fst s), s).
Definition setData (d : ChainData.t) : M state unit :=
  fun s => (Ok tt, ({| logbookName := logbookName (fst s); data := d |}, snd s)).

Definition logbookExists (logbook : string) (fs : FileSystem) : bool :=
  bool_decide (logbook ∈ logbookDirs fs).

Definition ensureLogbookDirectory (logbook : string) : M FileSystem unit :=
  fs <- get ;;
  if logbookExists logbook fs then ret tt else mkdirSync logbook.

Definition saveChainData (logbook : string) (d : ChainData.t) : M FileSystem unit :=
  try_catch (writeChainFile logbook d)
    (fun message => throw ("Failed to save chain data: " +:+ message)).

Definition loadOrCreateChain (logbook : string) : M FileSystem ChainData.t :=
  fs <- get ;;
  match chainFiles fs !! logbook with
  | Some (SyntaxError message) => throw ("Corrupted chain.json: " +:+ message)
  | Some NotAChain => throw "Invalid chain.json structure"
  | Some (Document d) =>
      if String.eqb (ChainData.logbookName d) ""
      then throw "Invalid chain.json structure"
      else ret d
  | None =>
      let genesisChain :=
        {| ChainData.logbookName := logbook; ChainData.entries := [] |} in
      saveChainData logbook genesisChain ;;;
      ret genesisChain
  end.

(** [new ChainManager(logbookName)] *)
Definition new (logbook : string) : M FileSystem t :=
  if blank logbook then throw "Logbook name cannot be empty"
  else
    ensureLogbookDirectory logbook ;;;
    d <- loadOrCreateChain logbook ;;
    ret {| logbookName := logbook; data := d |}.

Definition save : M state unit :=
  cm <- this ;;
  onDisk (saveChainData (logbookName cm) (data cm)).

Definition lastEntryHash (es : list ChainEntry.t) : string :=
  match last es with
  | Some e => ChainEntry.entryHash e
  | None => GENESIS_HASH
  end.

Definition addEntry (name entryHash txHash : string) (timestamp blockNumber : Z)
  : M state ChainEntry.t :=
  if String.eqb entryHash "" || negb (match_0x_hex entryHash) then
    throw "Invalid entry hash format: must start with 0x and contain only hex characters"
  else if String.eqb txHash "" || negb (match_0x_hex64 txHash) then
    throw "Invalid transaction hash format: must be 0x followed by 64 hex characters"
  else if (timestamp <? 0)%Z then
    throw "Timestamp must be a positive number"
  else if (blockNumber <? 0)%Z then
    throw "Block number must be a positive number"
  else
    cm <- this ;;
    let es := ChainData.entries (data cm) in
    let previousHash := lastEntryHash es in
    let allHashes := map ChainEntry.entryHash es ++ [entryHash] in
    let tree := createMerkleTree allHashes in
    let merkleRoot := getMerkleRoot tree in
    let entry :=
      {| ChainEntry.name := name;
         ChainEntry.entryHash := entryHash;
         ChainEntry.previousHash := previousHash;
         ChainEntry.txHash := txHash;
         ChainEntry.timestamp := timestamp;
         ChainEntry.blockNumber := blockNumber;
         ChainEntry.merkleRoot := merkleRoot |} in
    setData {| ChainData.logbookName := ChainData.logbookName (data cm);
               ChainData.entries := es ++ [entry] |} ;;;
    save ;;;
    ret entry.

Definition getEntries (cm : t) : list ChainEntry.t := ChainData.entries (data cm).

Definition getLastEntry (cm : t) : option ChainEntry.t :=
  last (ChainData.entries (data cm)).

(** The loop [for (i = 1; i < entries.length; i++)], entered with
    [prev = entries[i - 1]] and the entries from index [i] on. *)
Fixpoint linkErrors (i : nat) (prev : ChainEntry.t) (rest : list ChainEntry.t)
  : list validation_error :=
  match rest with
  | [] => []
  | curr :: rest' =>
      (if String.eqb (ChainEntry.previousHash curr) (ChainEntry.entryHash prev)
       then []
       else [ChainBroken i (ChainEntry.entryHash prev) (ChainEntry.previousHash curr)])
      ++ linkErrors (S i) curr rest'
  end.

(** One pass of the loop over the entry files. *)
Definition contentErrors (logbook : string) (fs : FileSystem) (entry : ChainEntry.t)
  : list validation_error :=
  match entryFiles fs !! (logbook, ChainEntry.name entry) with
  | None => [EntryFileNotFound logbook (ChainEntry.name entry)]
  | Some (Unreadable message) => [ReadFailed (ChainEntry.name entry) message]
  | Some (Text content) =>
      let computedHash := hashContent content in
      if String.eqb computedHash (ChainEntry.entryHash entry) then []
      else [ContentHashMismatch (ChainEntry.name entry)
              (ChainEntry.entryHash entry) computedHash]
  end.

Record report := { valid : bool; errors : list validation_error }.

Definition validateChain (cm : t) (fs : FileSystem) : report :=
  match ChainData.entries (data cm) with
  | [] => {| valid := true; errors := [] |}
  | first :: rest =>
      let errors :=
        (if String.eqb (ChainEntry.previousHash first) GENESIS_HASH then []
         else [GenesisMismatch])
        ++ linkErrors 1 first rest
        ++ flat_map (contentErrors (logbookName cm) fs) (first :: rest) in
      {| valid := Nat.eqb (length errors) 0; errors := errors |}
  end.

Definition clear : M state unit :=
  cm <- this ;;
  setData {| ChainData.logbookName := logbookName cm; ChainData.entries := [] |} ;;;
  save.

Definition reconstruct (entries : list ChainEntry.t) : M state unit :=
  cm <- this ;;
  setData {| ChainData.logbookName := logbookName cm; ChainData.entries := entries |} ;;;
  save.

(** A method called on a local object: the object it leaves is returned
    with the result. *)
Definition call {A} (cm : t) (m : M state A) : M FileSystem (A * t) :=
  fun fs =>
    match m (cm, fs) with
    | (Ok a, (cm', fs')) => (Ok (a, cm'), fs')
    | (Throw message, (_, fs')) => (Throw message, fs')
    end.

End ChainManager.

(** ** [src/services/anchorService.ts], as its callers see it

    The contract is reached through three queries; each either answers or
    throws.  The optional second argument is the wallet address. *)
Module AnchorService.
Record t := {
  getLogbookNames : result (list string);
  getAllEntries : string -> option string -> result (list BaseEntry.t);
  validateChain : string -> option string -> result ValidationResult.t }.
End AnchorService.

(** ** [src/services/blockchainSyncService.ts] *)

Module BlockchainSyncService.

Definition failed (message : string) : SyncResult.t :=
  {| SyncResult.success := false;
     SyncResult.entries := [];
     SyncResult.errors := ["Sync failed: " +:+ message] |}.

Definition syncFromContract (anchorService : AnchorService.t) (logbookName : string)
  : SyncResult.t :=
  match AnchorService.getLogbookNames anchorService with
  | Throw message => failed message
  | Ok ocLogbooks =>
      if negb (existsb (String.eqb logbookName) ocLogbooks) then
        {| SyncResult.success := true; SyncResult.entries := [];
           SyncResult.errors := [] |}
      else
        match AnchorService.getAllEntries anchorService logbookName None with
        | Throw message => failed message
        | Ok entries =>
            {| SyncResult.success := true; SyncResult.entries := entries;
               SyncResult.errors := [] |}
        end
  end.

End BlockchainSyncService.

(** ** [Date.prototype.toISOString] and [String(number)] *)

Module Date.

Definition digit (n : Z) : ascii := ascii_of_N (48 + Z.to_N (n mod 10)).

(** The last [width] decimal digits of [n]. *)
Fixpoint digits (width : nat) (n : Z) : string :=
  match width with
  | O => ""
  | S w => digits w (n / 10) +:+ String (digit n) ""
  end.

(** The civil date of a day count from 1970-01-01. *)
Definition civil (days : Z) : Z * Z * Z :=
  let z := days + 719468 in
  let era := z / 146097 in
  let doe := z - era * 146097 in
  let yoe := (doe - doe / 1460 + doe / 36524 - doe / 146096) / 365 in
  let doy := doe - (365 * yoe + yoe / 4 - yoe / 100) in
  let mp := (5 * doy + 2) / 153 in
  let d := doy - (153 * mp + 2) / 5 + 1 in
  let m := if (mp <? 10)%Z then mp + 3 else mp - 9 in
  let y := yoe + era * 400 + (if (m <=? 2)%Z then 1 else 0) in
  (y, m, d).

Definition year_string (y : Z) : string :=
  if ((0 <=? y) && (y <=? 9999))%Z then digits 4 y
  else (if (y <? 0)%Z then "-" else "+") +:+ digits 6 (Z.abs y).

(** [new Date(ms).toISOString()]; a time value beyond 8.64e15 ms is an
    invalid date, for which the method throws a [RangeError]. *)
Definition toISOString (ms : Z) : result string :=
  if (8640000000000000 <? Z.abs ms)%Z then Throw "Invalid time value"
  else
    let days := ms / 86400000 in
    let rest := ms mod 86400000 in
    let '(y, m, d) := civil days in
    Ok (year_string y +:+ "-" +:+ digits 2 m +:+ "-" +:+ digits 2 d +:+ "T"
        +:+ digits 2 (rest / 3600000) +:+ ":"
        +:+ digits 2 (rest / 60000 mod 60) +:+ ":"
        +:+ digits 2 (rest / 1000 mod 60) +:+ "."
        +:+ digits 3 (rest mod 1000) +:+ "Z").

End Date.

(** The decimal form of an integer, as a template literal prints a number
    below 1e21. *)
Definition string_of_number (n : Z) : string := pretty n.

(** ** [src/app/logbookReconstructor.ts] *)

Module LogbookReconstructor.

Record check := {
  needsReconstruction : bool;
  contractEntries : option (list BaseEntry.t) }.

Definition checkLocalIntegrity (anchorService : AnchorService.t) (logbookName : string)
  : M FileSystem check :=
  let result := BlockchainSyncService.syncFromContract anchorService logbookName in
  if negb (SyncResult.success result)
     || Nat.eqb (length (SyncResult.entries result)) 0 then
    ret {| needsReconstruction := false; contractEntries := None |}
  else
    fs <- get ;;
    if negb (ChainManager.logbookExists logbookName fs) then
      ret {| needsReconstruction := true;
             contractEntries := Some (SyncResult.entries result) |}
    else
      chainManager <- ChainManager.new logbookName ;;
      let localChain := ChainManager.getEntries chainManager in
      if Nat.eqb (length localChain) 0 then
        ret {| needsReconstruction := true;
               contractEntries := Some (SyncResult.entries result) |}
      else if existsb (fun e => String.eqb (ChainEntry.txHash e) "reconstructed")
                      localChain then
        ret {| needsReconstruction := true;
               contractEntries := Some (SyncResult.entries result) |}
      else
        match last localChain, last (SyncResult.entries result) with
        | Some lastLocal, Some lastContract =>
            ret {| needsReconstruction :=
                     negb (Nat.eqb (length localChain)
                                   (length (SyncResult.entries result)))
                     || negb (String.eqb (ChainEntry.entryHash lastLocal)
                                         (BaseEntry.entryHash lastContract));
                   contractEntries := Some (SyncResult.entries result) |}
        | _, _ => throw "TypeError: Cannot read properties of undefined"
        end.

(** The callback of [entries.map((entry, index) => ...)]. *)
Definition rebuildEntry (entries : list BaseEntry.t) (index : nat) (entry : BaseEntry.t)
  : ChainEntry.t :=
  let allHashes := map BaseEntry.entryHash (take (S index) entries) in
  let tree := createMerkleTree allHashes in
  let merkleRoot := getMerkleRoot tree in
  {| ChainEntry.name := BaseEntry.name entry;
     ChainEntry.entryHash := BaseEntry.entryHash entry;
     ChainEntry.previousHash := BaseEntry.previousHash entry;
     ChainEntry.txHash := "reconstructed";
     ChainEntry.timestamp := BaseEntry.timestamp entry;
     ChainEntry.blockNumber := BaseEntry.blockNumber entry;
     ChainEntry.merkleRoot := merkleRoot |}.

Definition rebuildEntries (entries : list BaseEntry.t) : list ChainEntry.t :=
  imap (rebuildEntry entries) entries.

Definition placeholder (entry : BaseEntry.t) : result string :=
  match Date.toISOString (BaseEntry.timestamp entry * 1000) with
  | Throw message => Throw message
  | Ok date =>
      Ok (join_lines
            [ "PLACEHOLDER - Original content not available";
              "";
              "Entry hash: " +:+ BaseEntry.entryHash entry;
              "Timestamp: " +:+ date;
              "Block: " +:+ string_of_number (BaseEntry.blockNumber entry);
              "";
              "To restore:";
              "1. Locate backup";
              "2. Replace this file";
              "3. Verify hash matches" ])
  end.

(** The loop [for (const entry of entries)] that writes the placeholders.
    The directory of an entry is taken to exist when its [entry.txt] does:
    for a missing file the directory is made first, then the text is built,
    then the file is written. *)
Fixpoint writePlaceholders (logbookName : string) (entries : list BaseEntry.t)
  : M FileSystem unit :=
  match entries with
  | [] => ret tt
  | entry :: rest =>
      fs <- get ;;
      match entryFiles fs !! (logbookName, BaseEntry.name entry) with
      | Some _ => ret tt
      | None =>
          mkdirEntry ;;;
          match placeholder entry with
          | Throw message => throw message
          | Ok text => writeEntryFile logbookName (BaseEntry.name entry) text
          end
      end ;;;
      writePlaceholders logbookName rest
  end.

(** What the run prints at its end. *)
Inductive outcome :=
| UpToDate
| NothingOnChain
| Rebuilt (validation : ChainManager.report).

(** [reconstruct()], for the logbook name that the prompt returns. *)
Definition reconstruct (anchorService : AnchorService.t) (logbookName : string)
  : M FileSystem outcome :=
  check <- checkLocalIntegrity anchorService logbookName ;;
  if negb (needsReconstruction check) then ret UpToDate
  else
    match contractEntries check with
    | None => throw "TypeError: Cannot read properties of undefined"
    | Some entries =>
        if Nat.eqb (length entries) 0 then ret NothingOnChain
        else
          chainManager <- ChainManager.new logbookName ;;
          let chainEntries := rebuildEntries entries in
          rebuilt <- ChainManager.call chainManager
                       (ChainManager.reconstruct chainEntries) ;;
          writePlaceholders logbookName entries ;;;
          fs <- get ;;
          ret (Rebuilt (ChainManager.validateChain (snd rebuilt) fs))
    end.

End LogbookReconstructor.

(** ** [src/app/logbookVerifier.ts] *)

Module LogbookVerifier.

Definition PLACEHOLDER : string := "PLACEHOLDER - Original content not available".

Definition isPlaceholder (entry : ExportEntry.t) : bool :=
  includes PLACEHOLDER (ExportEntry.content entry).

(** The two variables that the four steps share. *)
Record flags := { allValid : bool; hasPlaceholders : bool }.

Definition invalidate (f : flags) : flags :=
  {| allValid := false; hasPlaceholders := hasPlaceholders f |}.

(** The line printed for an entry by each step. *)
Inductive content_line := CONTENT_PLACEHOLDER | CONTENT_VALID | HASH_MISMATCH.
Inductive link_line :=
| SKIPPED_PLACEHOLDER | SKIPPED_PREVIOUS_PLACEHOLDER | LINKED | BROKEN_LINK.
Inductive contract_line :=
| MATCHES_CONTRACT
| MISMATCH (nameMismatch hashMismatch previousMismatch : bool).
Inductive contract_lines :=
| COUNT_MISMATCH (onChain inExport : nat)
| COUNT_MATCHES (perEntry : list contract_line).
Inductive contract_report :=
| BLOCKCHAIN_FAILED (message : string)
| COMPARED (entries : contract_lines) (validation : result ValidationResult.t).
Inductive code_line := CODE_VERSION_OTHER | CODE_VERSION_OK | NO_CODE_HASH.

Inductive verdict :=
| RECONSTRUCTED_LOGBOOK   (* Placeholder content detected; Blockchain verification: PASSED *)
| VERIFICATION_PASSED     (* Logbook is authentic *)
| VERIFICATION_FAILED.    (* Integrity issues detected *)

(** Step 1, one entry. *)
Definition checkContent (f : flags) (entry : ExportEntry.t) : flags * content_line :=
  if isPlaceholder entry then
    ({| allValid := allValid f; hasPlaceholders := true |}, CONTENT_PLACEHOLDER)
  else
    let computedHash := hashContent (ExportEntry.content entry) in
    if String.eqb computedHash (ExportEntry.entryHash entry)
    then (f, CONTENT_VALID)
    else (invalidate f, HASH_MISMATCH).

(** Step 2, the entry at [i]; [previous] is [data.entries[i - 1]]. *)
Definition checkLink (genesisHash : string) (f : flags)
           (previous : option ExportEntry.t) (entry : ExportEntry.t)
  : flags * link_line :=
  if isPlaceholder entry then (f, SKIPPED_PLACEHOLDER)
  else
    let compare expectedPrev :=
      if String.eqb (ExportEntry.previousHash entry) expectedPrev
      then (f, LINKED) else (invalidate f, BROKEN_LINK) in
    match previous with
    | None => compare genesisHash
    | Some prev =>
        if isPlaceholder prev then (f, SKIPPED_PREVIOUS_PLACEHOLDER)
        else compare (ExportEntry.entryHash prev)
    end.

(** A loop that threads the flags and collects the printed lines. *)
Fixpoint loop {A L} (step : flags -> A -> flags * L) (f : flags) (l : list A)
  : flags * list L :=
  match l with
  | [] => (f, [])
  | a :: rest =>
      let (f1, line) := step f a in
      let (f2, lines) := loop step f1 rest in
      (f2, line :: lines)
  end.

(** The entries of the export, each with the entry before it. *)
Fixpoint withPrevious (previous : option ExportEntry.t) (l : list ExportEntry.t)
  : list (option ExportEntry.t * ExportEntry.t) :=
  match l with
  | [] => []
  | entry :: rest => (previous, entry) :: withPrevious (Some entry) rest
  end.

(** Step 3, one index. *)
Definition checkOnChain (f : flags) (pair : ExportEntry.t * BaseEntry.t)
  : flags * contract_line :=
  let (local, onChain) := pair in
  let hashMatch := String.eqb (ExportEntry.entryHash local) (BaseEntry.entryHash onChain) in
  let prevMatch :=
    String.eqb (ExportEntry.previousHash local) (BaseEntry.previousHash onChain) in
  let nameMatch := String.eqb (ExportEntry.name local) (BaseEntry.name onChain) in
  if hashMatch && prevMatch && nameMatch then (f, MATCHES_CONTRACT)
  else (invalidate f, MISMATCH (negb nameMatch) (negb hashMatch) (negb prevMatch)).

(** Step 3: the [try] block and its [catch]. *)
Definition checkContract (anchorService : AnchorService.t) (data : ExportData.t)
           (f : flags) : flags * contract_report :=
  let logbookName := ExportData.logbookName (ExportData.metadata data) in
  let walletAddress := ExportData.walletAddress (ExportData.metadata data) in
  match AnchorService.getAllEntries anchorService logbookName (Some walletAddress) with
  | Throw message => (invalidate f, BLOCKCHAIN_FAILED message)
  | Ok onChainEntries =>
      let (f1, lines) :=
        if negb (Nat.eqb (length onChainEntries) (length (ExportData.entries data)))
        then (invalidate f,
              COUNT_MISMATCH (length onChainEntries) (length (ExportData.entries data)))
        else
          let (f', perEntry) :=
            loop checkOnChain f (combine (ExportData.entries data) onChainEntries) in
          (f', COUNT_MATCHES perEntry) in
      match AnchorService.validateChain anchorService logbookName (Some walletAddress) with
      | Throw message => (invalidate f1, COMPARED lines (Throw message))
      | Ok validation =>
          (if ValidationResult.valid validation then f1 else invalidate f1,
           COMPARED lines (Ok validation))
      end
  end.

(** Step 4, one entry: [proofs] gives, for an entry that has a [proof.txt]
    in the archive, the trimmed text after [Code version hash: ], if any. *)
Definition checkCodeHash (proofs : string -> option (option string))
           (currentCodeHash : string) (entry : ExportEntry.t) : list code_line :=
  match proofs (ExportEntry.name entry) with
  | None => []
  | Some None => [NO_CODE_HASH]
  | Some (Some entryCodeHash) =>
      if String.eqb entryCodeHash currentCodeHash
      then [CODE_VERSION_OK] else [CODE_VERSION_OTHER]
  end.

Record report := {
  step1 : list content_line;
  step2 : list link_line;
  step3 : contract_report;
  step4 : list code_line;
  final : verdict }.

(** [performVerification(data)]; [getPackageVersionHash] throws when there
    is no [package.json], and the call is not guarded. *)
Definition performVerification
           (anchorService : AnchorService.t)
           (getPackageVersionHash : result string)
           (proofs : string -> option (option string))
           (data : ExportData.t) : result report :=
  match getPackageVersionHash with
  | Throw message => Throw message
  | Ok currentCodeHash =>
      let f0 := {| allValid := true; hasPlaceholders := false |} in
      let (f1, lines1) := loop checkContent f0 (ExportData.entries data) in
      let genesisHash := hashContent "genesis" in
      let (f2, lines2) :=
        loop (fun f p => checkLink genesisHash f (fst p) (snd p)) f1
             (withPrevious None (ExportData.entries data)) in
      let (f3, lines3) := checkContract anchorService data f2 in
      let lines4 :=
        flat_map (checkCodeHash proofs currentCodeHash) (ExportData.entries data) in
      Ok {| step1 := lines1; step2 := lines2; step3 := lines3; step4 := lines4;
            final :=
              if hasPlaceholders f3 then RECONSTRUCTED_LOGBOOK
              else if allValid f3 then VERIFICATION_PASSED
              else VERIFICATION_FAILED |}
  end.

End LogbookVerifier.

(** ** The behaviours that the properties below compare the code with *)

Module Reading.

Definition entryHashError : string :=
  "Invalid entry hash format: must start with 0x and contain only hex characters".

(** The checks of the four arguments, in the order of the source. *)
Definition rejected (entryHash txHash : string) (timestamp blockNumber : Z)
  : option string :=
  if negb (match_0x_hex entryHash) then Some entryHashError
  else if negb (match_0x_hex64 txHash) then
    Some "Invalid transaction hash format: must be 0x followed by 64 hex characters"
  else if (timestamp <? 0)%Z then Some "Timestamp must be a positive number"
  else if (blockNumber <? 0)%Z then Some "Block number must be a positive number"
  else None.

(** The local store of a logbook as [checkLocalIntegrity] finds it: absent
    when there is no logbook directory, else the entries that opening it
    loads; opening throws on a [chain.json] that does not parse. *)
Definition localStore (logbookName : string) (fs : FileSystem)
  : result (option (list ChainEntry.t)) :=
  if ChainManager.logbookExists logbookName fs then
    match ChainManager.new logbookName fs with
    | (Ok chainManager, _) => Ok (Some (ChainManager.getEntries chainManager))
    | (Throw message, _) => Throw message
    end
  else Ok None.

Definition isPlaceholderEntry (e : ChainEntry.t) : Prop :=
  ChainEntry.txHash e = "reconstructed".

(** Section 4.4 on [checkIntegrity]: the ledger is non-empty and the local
    store does not exist, or is empty, or contains a Placeholder entry, or
    differs from the ledger in its entry count or in its final entry hash. *)
Definition reconstructionRequired (ledger : list BaseEntry.t)
           (local : option (list ChainEntry.t)) : Prop :=
  ledger <> [] /\
  match local with
  | None => True
  | Some es =>
      es = [] \/ Exists isPlaceholderEntry es
      \/ length es <> length ledger
      \/ (ChainEntry.entryHash <$> last es) <> (BaseEntry.entryHash <$> last ledger)
  end.

(** Invariant 2 of section 3: each entry names the hash of the entry before. *)
Definition linked (es : list ChainEntry.t) : Prop :=
  forall i prev curr,
    es !! i = Some prev -> es !! S i = Some curr ->
    ChainEntry.previousHash curr = ChainEntry.entryHash prev.

(** Invariants 1 to 3 of section 3 with no exemption: the first entry names
    the genesis hash, the entries are linked, and every entry has a readable
    [entry.txt] whose hash is its [entryHash]. *)
Definition chainOk (cm : ChainManager.t) (fs : FileSystem) : Prop :=
  let es := ChainManager.getEntries cm in
  (forall first, head es = Some first -> ChainEntry.previousHash first = GENESIS_HASH)
  /\ linked es
  /\ (forall e, In e es ->
                exists content,
                  entryFiles fs !! (ChainManager.logbookName cm, ChainEntry.name e)
                  = Some (Text content)
                  /\ hashContent content = ChainEntry.entryHash e).

(** Check 1 of section 4.5 passes for an entry: it is a Placeholder (skipped)
    or its content hashes to its [entryHash]. *)
Definition contentOk (e : ExportEntry.t) : bool :=
  LogbookVerifier.isPlaceholder e
  || String.eqb (hashContent (ExportEntry.content e)) (ExportEntry.entryHash e).

(** Check 2 passes for an entry: it is a Placeholder, or the entry before it
    is one (both skipped), or its [previousHash] is the genesis hash at index
    0 and the [entryHash] of the entry before it elsewhere. *)
Definition linkOk (p : option ExportEntry.t * ExportEntry.t) : bool :=
  LogbookVerifier.isPlaceholder (snd p)
  || match fst p with
     | None => String.eqb (ExportEntry.previousHash (snd p)) (hashContent "genesis")
     | Some prev =>
         LogbookVerifier.isPlaceholder prev
         || String.eqb (ExportEntry.previousHash (snd p)) (ExportEntry.entryHash prev)
     end.

(** Check 3 passes at an index: name, entry hash and previous hash agree. *)
Definition onChainOk (p : ExportEntry.t * BaseEntry.t) : bool :=
  String.eqb (ExportEntry.entryHash (fst p)) (BaseEntry.entryHash (snd p))
  && String.eqb (ExportEntry.previousHash (fst p)) (BaseEntry.previousHash (snd p))
  && String.eqb (ExportEntry.name (fst p)) (BaseEntry.name (snd p)).

(** Check 3 completes and passes: the contract answers, holds as many
    entries as the export, agrees at every index, and validates its chain. *)
Definition ledgerOk (anchorService : AnchorService.t) (data : ExportData.t) : bool :=
  let logbookName := ExportData.logbookName (ExportData.metadata data) in
  let walletAddress := ExportData.walletAddress (ExportData.metadata data) in
  match AnchorService.getAllEntries anchorService logbookName (Some walletAddress) with
  | Throw _ => false
  | Ok onChainEntries =>
      Nat.eqb (length onChainEntries) (length (ExportData.entries data))
      && forallb onChainOk (combine (ExportData.entries data) onChainEntries)
      && match AnchorService.validateChain anchorService logbookName
                 (Some walletAddress) with
         | Throw _ => false
         | Ok validation => ValidationResult.valid validation
         end
  end.

Definition checksPass (anchorService : AnchorService.t) (data : ExportData.t) : bool :=
  forallb contentOk (ExportData.entries data)
  && forallb linkOk (LogbookVerifier.withPrevious None (ExportData.entries data))
  && ledgerOk anchorService data.

End Reading.

(** ** Concrete logbooks, used by the examples *)

Module Fixtures.

Definition emptyDisk : FileSystem :=
  {| logbookDirs := ∅; chainFiles := ∅; entryFiles := ∅; writeError := None |}.

Definition emptyChain (logbook : string) : ChainManager.t :=
  {| ChainManager.logbookName := logbook;
     ChainManager.data :=
       {| ChainData.logbookName := logbook; ChainData.entries := [] |} |}.

(** ["0x" + "a".repeat(64)] *)
Definition txA : string :=
  "0xaaaaaaaaaaaaaaaaaaaaaaaaaaaaaaaaaaaaaaaaaaaaaaaaaaaaaaaaaaaaaaaa".

(** The digests of "genesis", "A", "B", "hash1" and "hash2". *)
Definition genesis : string :=
  "0xaeebad4a796fcc2e15dc4c6061b45ed9b373f26adfc798ca7d2d8cc58182718e".
Definition hashA : string :=
  "0x559aead08264d5795d3909718cdd05abd49572e84fe55590eef31a88a08fdffd".
Definition hashB : string :=
  "0xdf7e70e5021544f4834bbee64a9e3789febc4be81470df629cad6ddb03320a5c".
Definition hash1 : string :=
  "0xaf316ecb91a8ee7ae99210702b2d4758f30cdde3bf61e3d8e787d74681f90a6e".
Definition hash2 : string :=
  "0xe7bf382f6e5915b3f88619b866223ebf1d51c4c5321cccde2e9ff700a3259086".

(** A fresh [test-logbook], as the tests of [ChainManager] open it. *)
Definition fresh : ChainManager.state := (emptyChain "test-logbook", emptyDisk).

(** The same after a first entry. *)
Definition afterFirst : ChainManager.state :=
  Eval vm_compute in
    snd (ChainManager.addEntry "entry-1" hash1 txA 1700000000 1000 fresh).

(** And the second entry, with the state it leaves. *)
Definition second : result ChainEntry.t * ChainManager.state :=
  Eval vm_compute in
    ChainManager.addEntry "entry-2" hash2 txA 1700000010 1001 afterFirst.

Definition valid : ValidationResult.t :=
  {| ValidationResult.valid := true; ValidationResult.brokenAtIndex := 0 |}.

(** The scenario of section 8: the contract holds [A] and [B], linked. *)
Definition entryA : BaseEntry.t :=
  {| BaseEntry.name := "a"; BaseEntry.entryHash := hashA;
     BaseEntry.previousHash := genesis;
     BaseEntry.timestamp := 1000; BaseEntry.blockNumber := 100 |}.

Definition entryB : BaseEntry.t :=
  {| BaseEntry.name := "b"; BaseEntry.entryHash := hashB;
     BaseEntry.previousHash := hashA;
     BaseEntry.timestamp := 2000; BaseEntry.blockNumber := 200 |}.

Definition contractAB : AnchorService.t :=
  {| AnchorService.getLogbookNames := Ok ["lb"];
     AnchorService.getAllEntries := fun _ _ => Ok [entryA; entryB];
     AnchorService.validateChain := fun _ _ => Ok valid |}.

(** A contract that knows no logbook. *)
Definition contractEmpty : AnchorService.t :=
  {| AnchorService.getLogbookNames := Ok [];
     AnchorService.getAllEntries := fun _ _ => Ok [];
     AnchorService.validateChain := fun _ _ => Ok valid |}.

(** A contract that cannot be reached. *)
Definition unreachable : AnchorService.t :=
  {| AnchorService.getLogbookNames := Throw "network error";
     AnchorService.getAllEntries := fun _ _ => Throw "network error";
     AnchorService.validateChain := fun _ _ => Throw "network error" |}.

(** The placeholder that [reconstruct] writes for [A]. *)
Definition placeholderA : string :=
  join_lines
    [ "PLACEHOLDER - Original content not available";
      "";
      "Entry hash: 0x559aead08264d5795d3909718cdd05abd49572e84fe55590eef31a88a08fdffd";
      "Timestamp: 1970-01-01T00:16:40.000Z";
      "Block: 100";
      "";
      "To restore:";
      "1. Locate backup";
      "2. Replace this file";
      "3. Verify hash matches" ].

(** The disk that [reconstruct] leaves from an empty one, and the chain it
    has rebuilt. *)
Definition diskAB : FileSystem :=
  Eval vm_compute in
    snd (LogbookReconstructor.reconstruct contractAB "lb" emptyDisk).

Definition chainAB : ChainManager.t :=
  {| ChainManager.logbookName := "lb";
     ChainManager.data :=
       {| ChainData.logbookName := "lb";
          ChainData.entries := LogbookReconstructor.rebuildEntries [entryA; entryB] |} |}.

(** What its validation reports. *)
Definition validationAB : ChainManager.report :=
  {| ChainManager.valid := false;
     ChainManager.errors :=
       [ ContentHashMismatch "a" hashA
           "0x4f663e605a0e223e74a46540bf8a655a0887aafab58449ca7a9c61d30b8c972b";
         ContentHashMismatch "b" hashB
           "0xd352fa7148d7272719cec269c59a8feed65e24421b192143e618077ea86d91d9" ] |}.

Definition exported (index : Z) (content : string) (e : BaseEntry.t) : ExportEntry.t :=
  {| ExportEntry.index := index;
     ExportEntry.name := BaseEntry.name e;
     ExportEntry.content := content;
     ExportEntry.entryHash := BaseEntry.entryHash e;
     ExportEntry.previousHash := BaseEntry.previousHash e;
     ExportEntry.txHash := txA;
     ExportEntry.timestamp := BaseEntry.timestamp e;
     ExportEntry.blockNumber := BaseEntry.blockNumber e;
     ExportEntry.merkleRoot := "" |}.

Definition metadataAB : ExportData.metadata_t :=
  {| ExportData.version := "1.0";
     ExportData.logbookName := "lb";
     ExportData.logbookNameHash :=
       "0xfd26db45a8b53034aa38939294bb619aebfc5739f35d25be34583fca6480a2d7";
     ExportData.exportDate := "2025-01-01T00:00:00.000Z";
     ExportData.totalEntries := 2;
     ExportData.walletAddress := "0x0000000000000000000000000000000000000001";
     ExportData.chainId := 1;
     ExportData.codeHash := "" |}.

(** An export of [A] and [B] with their genuine contents. *)
Definition exportAB : ExportData.t :=
  {| ExportData.metadata := metadataAB;
     ExportData.entries := [exported 0 "A" entryA; exported 1 "B" entryB] |}.

(** The same with the content of [B] lost and replaced by a placeholder. *)
Definition exportAplaceholderB : ExportData.t :=
  {| ExportData.metadata := metadataAB;
     ExportData.entries :=
       [exported 0 "A" entryA;
        exported 1 "PLACEHOLDER - Original content not available" entryB] |}.

(** The same again with the content of [A] altered. *)
Definition exportTamperedAplaceholderB : ExportData.t :=
  {| ExportData.metadata := metadataAB;
     ExportData.entries :=
       [exported 0 "tampered" entryA;
        exported 1 "PLACEHOLDER - Original content not available" entryB] |}.

Definition noProofs : string -> option (option string) := fun _ => None.

End Fixtures.

(** ** Invariants of a chain and of an open logbook *)

Module Invariants.

(** Invariant 1 of section 3: the first entry names the genesis hash. *)
Definition genesisFirst (es : list ChainEntry.t) : Prop :=
  forall first, head es = Some first -> ChainEntry.previousHash first = GENESIS_HASH.

(** The running commitment: the [merkleRoot] of the entry at [i] is the
    Merkle root of the entry hashes of the entries 0 to [i]. *)
Definition committed (es : list ChainEntry.t) : Prop :=
  forall i e,
    es !! i = Some e ->
    ChainEntry.merkleRoot e =
    getMerkleRoot (createMerkleTree (map ChainEntry.entryHash (take (S i) es))).

(** The object and the disk agree: opening the logbook again gives the
    object back and writes nothing. *)
Definition opened (cm : ChainManager.t) (fs : FileSystem) : Prop :=
  ChainManager.new (ChainManager.logbookName cm) fs = (Ok cm, fs).


End Invariants.

(** ** [validateOnChain], in [src/services/blockchainSyncService.ts] and
    [src/app/logbookCli.ts] *)

Module SyncService.

(** [BlockchainSyncService.validateOnChain], in
    [src/services/blockchainSyncService.ts]. *)
Definition validateOnChain (anchorService : AnchorService.t) (logbookName : string)
           (address : option string) : ValidationResult.t :=
  match AnchorService.validateChain anchorService logbookName address with
  | Ok validation => validation
  | Throw _ =>
      {| ValidationResult.valid := false; ValidationResult.brokenAtIndex := 0 |}
  end.

End SyncService.

Module LogbookCli.

(** What the menu entry prints below its rule. *)
Inductive shown :=
| NO_ONCHAIN_ENTRIES
| CHAIN_VALID
| CHAIN_BROKEN (index : Z).

(** [LogbookCli.validateOnChain()]: nothing is printed when no logbook is
    selected. *)
Definition validateOnChain (anchorService : AnchorService.t)
           (currentLogbook : option string) : option shown :=
  match currentLogbook with
  | None => None
  | Some logbook =>
      if String.eqb logbook "" then None
      else
        let result := SyncService.validateOnChain anchorService logbook None in
        if negb (ValidationResult.valid result)
           && (ValidationResult.brokenAtIndex result =? 0)%Z
        then Some NO_ONCHAIN_ENTRIES
        else if ValidationResult.valid result then Some CHAIN_VALID
        else Some (CHAIN_BROKEN (ValidationResult.brokenAtIndex result))
  end.

End LogbookCli.

(** ** [src/app/logbookExporter.ts] *)

Module LogbookExporter.

Section WithPaths.

(** [path.join(ChainManager.getLogbookDir(logbook), entry, "entry.txt")] *)
Variable entryPath : string -> string -> string.

(** The callback of [entries.map((entry, index) => ...)]. *)
Definition exportEntry (logbookName : string) (fs : FileSystem) (index : nat)
           (entry : ChainEntry.t) : result ExportEntry.t :=
  match entryFiles fs !! (logbookName, ChainEntry.name entry) with
  | None =>
      Throw ("Entry file not found: " +:+ entryPath logbookName (ChainEntry.name entry))
  | Some (Unreadable message) => Throw message
  | Some (Text content) =>
      Ok {| ExportEntry.index := Z.of_nat index;
            ExportEntry.name := ChainEntry.name entry;
            ExportEntry.content := content;
            ExportEntry.entryHash := ChainEntry.entryHash entry;
            ExportEntry.previousHash :=
              if String.eqb (ChainEntry.previousHash entry) ""
              then hashContent "genesis"
              else ChainEntry.previousHash entry;
            ExportEntry.txHash := ChainEntry.txHash entry;
            ExportEntry.timestamp := ChainEntry.timestamp entry;
            ExportEntry.blockNumber := ChainEntry.blockNumber entry;
            ExportEntry.merkleRoot := ChainEntry.merkleRoot entry |}
  end.

(** [entries.map(...)] from [index] on: the first callback that throws ends
    the map. *)
Fixpoint exportEntries (logbookName : string) (fs : FileSystem) (index : nat)
         (entries : list ChainEntry.t) : result (list ExportEntry.t) :=
  match entries with
  | [] => Ok []
  | entry :: rest =>
      match exportEntry logbookName fs index entry with
      | Throw message => Throw message
      | Ok exported =>
          match exportEntries logbookName fs (S index) rest with
          | Throw message => Throw message
          | Ok others => Ok (exported :: others)
          end
      end
  end.

(** How [export()] ends before it writes: with nothing to export, cancelled
    at the prompt, or with the [exportData] that it hands to [createZip]. *)
Inductive outcome :=
| NoEntries
| Cancelled
| Archive (exportData : ExportData.t).

(** [export()] up to the call of [createZip]: [shouldExport] is the answer to
    the prompt, [keccak256] is [ethers.keccak256], [now] is the time value of
    [new Date()]. The archive itself is not modelled. *)
Definition export (chainManager : ChainManager.t)
           (logbookName walletAddress : string) (chainId : Z)
           (shouldExport : bool) (keccak256 : Buffer.t -> string)
           (getPackageVersionHash : result string) (now : Z)
           (fs : FileSystem) : result outcome :=
  let entries := ChainManager.getEntries chainManager in
  if Nat.eqb (length entries) 0 then Ok NoEntries
  else if negb shouldExport then Ok Cancelled
  else
    let logbookNameHash := keccak256 (toUtf8Bytes logbookName) in
    match getPackageVersionHash with
    | Throw message => Throw message
    | Ok codeHash =>
        match Date.toISOString now with
        | Throw message => Throw message
        | Ok exportDate =>
            match exportEntries logbookName fs 0 entries with
            | Throw message => Throw message
            | Ok exported =>
                Ok (Archive
                      {| ExportData.metadata :=
                           {| ExportData.version := "1.0.0";
                              ExportData.logbookName := logbookName;
                              ExportData.logbookNameHash := logbookNameHash;
                              ExportData.exportDate := exportDate;
                              ExportData.totalEntries := Z.of_nat (length entries);
                              ExportData.walletAddress := walletAddress;
                              ExportData.chainId := chainId;
                              ExportData.codeHash := codeHash |};
                         ExportData.entries := exported |})
            end
        end
    end.

End WithPaths.

End LogbookExporter.

(** ** [anchorEntry], in [src/services/anchorService.ts] *)

Module TxResult.
Record t := { txHash : string; explorerTxUrl : string }.
End TxResult.

Module Anchor.

(** [send] is the [try] block of the method: the call of the contract and the
    wait for its receipt, as the hash of the receipt or the message of the
    error thrown. *)
Definition anchorEntry (send : string -> string -> string -> string -> result string)
           (explorerUrl : string)
           (logbookName entryName entryHash previousHash : string)
  : result TxResult.t :=
  if blank logbookName then Throw "Logbook name cannot be empty"
  else if blank entryName then Throw "Entry name cannot be empty"
  else if String.eqb entryHash "" || negb (match_0x_hex64 entryHash) then
    Throw ("Invalid entryHash format: " +:+ entryHash)
  else if String.eqb previousHash "" || negb (match_0x_hex64 previousHash) then
    Throw ("Invalid previousHash format: " +:+ previousHash)
  else
    match send logbookName entryName entryHash previousHash with
    | Ok hash =>
        Ok {| TxResult.txHash := hash;
              TxResult.explorerTxUrl := explorerUrl +:+ "/tx/" +:+ hash |}
    | Throw message => Throw ("Anchor failed: " +:+ message)
    end.

End Anchor.

(** ** [LogbookCreator], in [src/app/logbookCreator.ts] *)

Module LogbookCreator.

(** The object and what it reaches outside the logbook: the contract and the
    explorer of its [anchorService], the provider's
    [getTransactionReceipt] (the block number of the receipt, or [null]),
    [Date.now()] and [getPackageVersionHash()]. *)
Record t := {
  send : string -> string -> string -> string -> result string;
  explorerUrl : string;
  getTransactionReceipt : string -> result (option Z);
  logbookName : string;
  now : Z;
  getPackageVersionHash : result string }.

(** [writeFileSync(path.join(entryDir, "proof.txt"), ...)]: proof files are
    not kept on the model's disk, only the failure of the write is. *)
Definition writeProofFile : M FileSystem unit :=
  fs <- get ;;
  match writeError fs with
  | Some message => throw message
  | None => ret tt
  end.

(** [saveFiles]: as in the placeholder loop, the directory of an entry is
    taken to exist when its [entry.txt] does. *)
Definition saveFiles (logbook entryName content : string) : M FileSystem unit :=
  fs <- get ;;
  match entryFiles fs !! (logbook, entryName) with
  | Some _ => ret tt
  | None => mkdirEntry
  end ;;;
  writeEntryFile logbook entryName content ;;;
  writeProofFile.

(** [saveAndAnchor]; the script hash, the code hash, the explorer link and
    the Merkle root of the new entry go to [proof.txt] only, whose text is
    not modelled. *)
Definition saveAndAnchor (creator : t) (entryName content : string)
  : M ChainManager.state unit :=
  let entryHash := hashContent content in
  chainManager <- ChainManager.this ;;
  let previousHash :=
    match ChainManager.getLastEntry chainManager with
    | Some previousEntry => ChainEntry.entryHash previousEntry
    | None => hashContent "genesis"
    end in
  match getPackageVersionHash creator with
  | Throw message => throw message
  | Ok codeHash =>
      match Anchor.anchorEntry (send creator) (explorerUrl creator)
              (logbookName creator) entryName entryHash previousHash with
      | Throw message => throw message
      | Ok result =>
          match getTransactionReceipt creator (TxResult.txHash result) with
          | Throw message => throw message
          | Ok None => throw "Cannot read properties of null (reading 'blockNumber')"
          | Ok (Some blockNumber) =>
              ChainManager.addEntry entryName entryHash (TxResult.txHash result)
                (now creator / 1000) blockNumber ;;;
              ChainManager.onDisk
                (saveFiles (ChainManager.logbookName chainManager) entryName content)
          end
      end
  end.

End LogbookCreator.

(** ** [getAllEntries], in [src/services/anchorService.ts] *)

(** The two view functions of the contract that [getAllEntries] calls, with
    the address and the logbook name they are given; counts and indices are
    natural numbers. *)
Module Contract.
Record t := {
  getEntryCount : string -> string -> result nat;
  getEntriesRange : string -> string -> nat -> nat -> result (list BaseEntry.t) }.
End Contract.

Module Queries.

Definition BATCH_SIZE : nat := 100.

(** The loop [for (let start = 0; start < total; start += BATCH_SIZE)],
    entered at [start] with the [results] so far. *)
Equations? batches (contract : Contract.t) (addr logbookName : string)
  (total start : nat) (results : list BaseEntry.t) : result (list BaseEntry.t)
  by wf (total - start)%nat lt :=
  batches contract addr logbookName total start results with lt_dec start total := {
    | left _ =>
        match Contract.getEntriesRange contract addr logbookName start
                (Nat.min (start + BATCH_SIZE) total) with
        | Throw message => Throw message
        | Ok batch =>
            batches contract addr logbookName total (start + BATCH_SIZE)
              (results ++ batch)
        end
    | right _ => Ok results }.
Proof. unfold BATCH_SIZE. lia. Qed.

(** [getAllEntries(logbookName, address)]; [wallet] is [this.wallet.address]. *)
Definition getAllEntries (contract : Contract.t) (wallet : string)
           (logbookName : string) (address : option string)
  : result (list BaseEntry.t) :=
  let addr :=
    match address with
    | Some a => if String.eqb a "" then wallet else a
    | None => wallet
    end in
  match Contract.getEntryCount contract addr logbookName with
  | Throw message => Throw message
  | Ok total =>
      if Nat.eqb total 0 then Ok []
      else batches contract addr logbookName total 0 []
  end.

End Queries.

(** ** More concrete logbooks *)

Module Samples.

(** [new ChainManager("test-logbook")] on an empty disk. *)
Definition opened : ChainManager.state :=
  Eval vm_compute in
    match ChainManager.new "test-logbook" Fixtures.emptyDisk with
    | (Ok cm, fs) => (cm, fs)
    | (Throw _, fs) => (Fixtures.emptyChain "test-logbook", fs)
    end.

(** A first entry whose content is "A", and the state the call leaves. *)
Definition first : result ChainEntry.t * ChainManager.state :=
  Eval vm_compute in
    ChainManager.addEntry "0001_a" Fixtures.hashA Fixtures.txA 1700000000 1000 opened.

(** The disk once the content of that entry is written. *)
Definition firstWritten : result unit * FileSystem :=
  Eval vm_compute in
    writeEntryFile "test-logbook" "0001_a" "A" (snd (snd first)).

(** A second entry under the name of the first, with content "B", and the
    disk once that content is written over the first. *)
Definition again : result ChainEntry.t * ChainManager.state :=
  Eval vm_compute in
    ChainManager.addEntry "0001_a" Fixtures.hashB Fixtures.txA 1700000010 1001
      (fst (snd first), snd firstWritten).

Definition againWritten : result unit * FileSystem :=
  Eval vm_compute in
    writeEntryFile "test-logbook" "0001_a" "B" (snd (snd again)).

(** A disk on which nothing can be written. *)
Definition readOnly : FileSystem :=
  {| logbookDirs := {["test-logbook"]}; chainFiles := ∅; entryFiles := ∅;
     writeError := Some "EROFS: read-only file system" |}.

(** A logbook whose [chain.json] is cut short. *)
Definition corrupt : FileSystem :=
  {| logbookDirs := {["lb"]};
     chainFiles := {[ "lb" := SyntaxError "Unexpected end of JSON input" ]};
     entryFiles := ∅;
     writeError := None |}.

(** The logbook "lb" with the entries "a" and "b" appended by [addEntry] and
    their contents "A" and "B" written, as [saveAndAnchor] leaves them. *)
Definition genuine : ChainManager.state :=
  Eval vm_compute in
    match ChainManager.new "lb" Fixtures.emptyDisk with
    | (Ok cm, fs0) =>
        let s1 := snd (ChainManager.addEntry "a" Fixtures.hashA Fixtures.txA 1000 100
                         (cm, fs0)) in
        let fs1 := snd (writeEntryFile "lb" "a" "A" (snd s1)) in
        let s2 := snd (ChainManager.addEntry "b" Fixtures.hashB Fixtures.txA 2000 200
                         (fst s1, fs1)) in
        (fst s2, snd (writeEntryFile "lb" "b" "B" (snd s2)))
    | (Throw _, fs0) => (Fixtures.emptyChain "lb", fs0)
    end.

(** A logbook directory that has lost its [chain.json] and the entry "b",
    and still holds the content of "a". *)
Definition onlyA : FileSystem :=
  {| logbookDirs := {["lb"]};
     chainFiles := ∅;
     entryFiles := {[ ("lb", "a") := Text "A" ]};
     writeError := None |}.

(** Entry files under [logbooks/]. *)
Definition entryPath (logbook entry : string) : string :=
  "logbooks/" +:+ logbook +:+ "/" +:+ entry +:+ "/entry.txt".

Definition wallet : string := "0x0000000000000000000000000000000000000001".

(** The [exportData] of the logbook "lb" of [genuine], exported on
    2025-01-01. *)
Definition archive : ExportData.t :=
  Eval vm_compute in
    match LogbookExporter.export entryPath (fst genuine) "lb" wallet 1 true
            (fun _ => "") (Ok "") 1735689600000 (snd genuine) with
    | Ok (LogbookExporter.Archive exportData) => exportData
    | _ => Fixtures.exportAB
    end.

(** A creator whose contract accepts every entry. *)
Definition creator : LogbookCreator.t :=
  {| LogbookCreator.send := fun _ _ _ _ => Ok Fixtures.txA;
     LogbookCreator.explorerUrl := "https://explorer.example";
     LogbookCreator.getTransactionReceipt := fun _ => Ok (Some 1000);
     LogbookCreator.logbookName := "test-logbook";
     LogbookCreator.now := 1700000000000;
     LogbookCreator.getPackageVersionHash := Ok "" |}.

(** [saveAndAnchor("0001_a", "A")] on the fresh logbook. *)
Definition anchored : result unit * ChainManager.state :=
  Eval vm_compute in LogbookCreator.saveAndAnchor creator "0001_a" "A" opened.


(** A contract that holds 250 copies of the entry [A] for every logbook. *)
Definition stored : list BaseEntry.t := repeat Fixtures.entryA 250.

Definition contract : Contract.t :=
  {| Contract.getEntryCount := fun _ _ => Ok 250%nat;
     Contract.getEntriesRange :=
       fun _ _ start finish => Ok (take (finish - start) (drop start stored)) |}.

End Samples.

(** * Properties *)

(** ** Buffers *)

Module BufferFacts.

Lemma to_N_inj (x y : byte) : Byte.to_N x = Byte.to_N y -> x = y.
Proof.
  intros H.
  assert (Hs : Some x = Some y)
    by (rewrite <- (Byte.of_to_N x), <- (Byte.of_to_N y); now rewrite H).
  now inversion Hs.
Qed.

Lemma compare_refl (a : Buffer.t) : Buffer.compare a a = Eq.
Proof.
  induction a as [|x a IH]; simpl; [reflexivity|].
  now rewrite N.compare_refl.
Qed.

Lemma compare_eq (a b : Buffer.t) : Buffer.compare a b = Eq -> a = b.
Proof.
  revert b. induction a as [|x a IH]; intros [|y b]; simpl; try discriminate.
  - reflexivity.
  - destruct (N.compare_spec (Byte.to_N x) (Byte.to_N y)) as [E | L | G];
      try discriminate.
    intros H. f_equal; [now apply to_N_inj | now apply IH].
Qed.

Lemma compare_antisym (a b : Buffer.t) :
  Buffer.compare b a = CompOpp (Buffer.compare a b).
Proof.
  revert b. induction a as [|x a IH]; intros [|y b]; simpl; try reflexivity.
  rewrite (N.compare_antisym (Byte.to_N x) (Byte.to_N y)).
  destruct (N.compare (Byte.to_N x) (Byte.to_N y)); simpl; auto.
Qed.

Lemma hex_byte (x : byte) :
  Buffer.hex_digit (Buffer.nibble (Byte.to_N x / 16)) = Some (Byte.to_N x / 16)%N /\
  Buffer.hex_digit (Buffer.nibble (Byte.to_N x mod 16)) = Some (Byte.to_N x mod 16)%N /\
  Buffer.byte_of_N (16 * (Byte.to_N x / 16) + Byte.to_N x mod 16) = x.
Proof. destruct x; vm_compute; auto. Qed.

(** Decoding the hexadecimal form of a buffer gives the buffer back. *)
Lemma from_hex_toString_hex (b : Buffer.t) :
  Buffer.from_hex (Buffer.toString_hex b) = b.
Proof.
  induction b as [|x b IH]; [reflexivity|].
  destruct (hex_byte x) as (Hhi & Hlo & Hx).
  cbn [Buffer.toString_hex Buffer.from_hex].
  rewrite Hhi, Hlo, Hx, IH. reflexivity.
Qed.

Lemma slice2_0x (s : string) : slice2 ("0x" +:+ s) = s.
Proof. reflexivity. Qed.

End BufferFacts.

(** ** Merkle proofs *)

Module MerkleFacts.
Section WithHash.

Variable hashFn : Buffer.t -> Buffer.t.

Abbreviation hashPair := (MerkleTree.hashPair hashFn).
Abbreviation nextLayer := (MerkleTree.nextLayer hashFn).
Abbreviation createHashes := (MerkleTree.createHashes hashFn).
Abbreviation verifyStep := (MerkleTree.verifyStep hashFn).

(** The verifier combines a node with its right sibling as the builder did. *)
Lemma verifyStep_left (l r : Buffer.t) : verifyStep l r = hashPair l r.
Proof.
  unfold MerkleTree.verifyStep, MerkleTree.hashPair.
  destruct (Buffer.compare l r) eqn:E; try reflexivity.
  apply BufferFacts.compare_eq in E. now subst.
Qed.

(** And with its left sibling. *)
Lemma verifyStep_right (l r : Buffer.t) : verifyStep r l = hashPair l r.
Proof.
  unfold MerkleTree.verifyStep, MerkleTree.hashPair.
  rewrite (BufferFacts.compare_antisym l r).
  destruct (Buffer.compare l r); reflexivity.
Qed.

(** Lists seen two elements at a time, as the layer loop sees them. *)
Lemma pair_ind (P : list Buffer.t -> Prop) :
  P [] -> (forall x, P [x]) -> (forall x y l, P l -> P (x :: y :: l)) ->
  forall l, P l.
Proof.
  intros H0 H1 H2 l.
  assert (both : P l /\ forall x, P (x :: l)).
  { induction l as [|y l [IHa IHb]]; split; auto. }
  apply both.
Qed.

(** The node above position [i] is what one verification step computes
    from the node at [i] and its sibling. *)
Lemma nextLayer_lookup (nodes : list Buffer.t) :
  forall (i : nat) (h : Buffer.t),
    nodes !! i = Some h ->
    nextLayer nodes !! Nat.div2 i =
      Some (fold_left verifyStep (MerkleTree.sibling nodes i) h).
Proof.
  induction nodes as [| x | x y l IH] using pair_ind; intros i h Hi.
  - discriminate.
  - destruct i as [|i]; [|destruct i; discriminate].
    injection Hi as <-. reflexivity.
  - destruct i as [|[|i]].
    + injection Hi as <-. cbn. now rewrite verifyStep_left.
    + injection Hi as <-. cbn. now rewrite verifyStep_right.
    + cbn [lookup list_lookup] in Hi.
      specialize (IH i h Hi).
      cbn [MerkleTree.nextLayer Nat.div2 lookup list_lookup].
      etransitivity; [exact IH|]. f_equal. f_equal.
      unfold MerkleTree.sibling.
      change (Nat.odd (S (S i))) with (Nat.odd i).
      destruct (Nat.odd i) eqn:Hodd.
      * destruct i as [|i]; [discriminate|].
        replace (S (S (S i)) - 1)%nat with (S (S i)) by lia.
        replace (S i - 1)%nat with i by lia. reflexivity.
      * replace (S (S i) + 1)%nat with (S (S (i + 1))) by lia. reflexivity.
Qed.

Lemma createHashes_nonempty (nodes : list Buffer.t) : createHashes nodes <> [].
Proof. funelim (createHashes nodes); discriminate. Qed.

Lemma top_cons (layer : list Buffer.t) (upper : list (list Buffer.t)) :
  upper <> [] -> MerkleTree.top (layer :: upper) = MerkleTree.top upper.
Proof.
  intros H. unfold MerkleTree.top. rewrite last_cons.
  destruct (last upper) eqn:E; [reflexivity|].
  apply last_None in E. contradiction.
Qed.

(** Folding the proof of position [i] over the node at [i] climbs to the
    root. *)
Lemma proof_climbs (nodes : list Buffer.t) :
  forall (i : nat) (h : Buffer.t),
    nodes !! i = Some h ->
    fold_left verifyStep (MerkleTree.proofFrom (createHashes nodes) i) h =
    MerkleTree.top (createHashes nodes).
Proof.
  funelim (createHashes nodes); intros i h Hi.
  - discriminate.
  - destruct i as [|i]; [|destruct i; discriminate].
    injection Hi as <-. reflexivity.
  - simp createHashes.
    cbn [MerkleTree.proofFrom]. rewrite fold_left_app.
    rewrite top_cons by apply createHashes_nonempty.
    apply H. exact (nextLayer_lookup (x :: y :: rest) i h Hi).
Qed.

(** The search returns a position that holds the leaf. *)
Lemma leafIndex_found (leaf : Buffer.t) (lvs : list Buffer.t) :
  forall (i : nat) (found : option nat),
    match MerkleTree.leafIndex leaf lvs i found with
    | Some j => found = Some j \/ exists k, j = (i + k)%nat /\ lvs !! k = Some leaf
    | None => found = None /\ ~ In leaf lvs
    end.
Proof.
  induction lvs as [|l rest IH]; intros i found; simpl.
  - destruct found; auto.
  - specialize (IH (S i) (match Buffer.compare leaf l with
                           | Eq => Some i | _ => found end)).
    destruct (MerkleTree.leafIndex leaf rest (S i) _) as [j|].
    + destruct IH as [Hf | (k & -> & Hk)].
      * destruct (Buffer.compare leaf l) eqn:E; auto.
        apply BufferFacts.compare_eq in E. subst l.
        injection Hf as <-. right. exists 0%nat. split; [lia | reflexivity].
      * right. exists (S k). split; [lia | exact Hk].
    + destruct IH as [Hf Hn].
      destruct (Buffer.compare leaf l) eqn:E; try discriminate.
      * split; [assumption|]. intros [-> | Hin]; [|contradiction].
        now rewrite BufferFacts.compare_refl in E.
      * split; [assumption|]. intros [-> | Hin]; [|contradiction].
        now rewrite BufferFacts.compare_refl in E.
Qed.

(** For a leaf of the tree, the proof verifies against the root. *)
Lemma getProof_verifies (lvs : list Buffer.t) (leaf : Buffer.t) :
  In leaf lvs ->
  let tree := MerkleTree.new hashFn lvs in
  MerkleTree.verify hashFn (MerkleTree.getProof tree leaf) leaf
    (MerkleTree.getRoot tree) = true.
Proof.
  intros Hin tree. unfold MerkleTree.verify, MerkleTree.getProof, MerkleTree.getRoot.
  cbn [tree MerkleTree.new MerkleTree.leaves MerkleTree.layers].
  pose proof (leafIndex_found leaf lvs 0 None) as Hidx.
  destruct (MerkleTree.leafIndex leaf lvs 0 None) as [j|].
  - destruct Hidx as [Hf | (k & -> & Hk)]; [discriminate|].
    rewrite (proof_climbs lvs (0 + k) leaf Hk).
    now rewrite BufferFacts.compare_refl.
  - destruct Hidx as [_ Hn]. contradiction.
Qed.

End WithHash.
End MerkleFacts.

(** ** The Merkle functions of [src/utils/merkle.ts] *)

(** C1. For every list of leaf hashes and every leaf in it (the list is then
    non-empty; its size may be 1 or odd), the proof generated for the leaf
    verifies against the root of the tree built from the list. *)
Theorem merkle_proof_verifies (leaves : list string) (leaf : string) :
  In leaf leaves ->
  verifyMerkleProof (getMerkleProof (createMerkleTree leaves) leaf) leaf
    (getMerkleRoot (createMerkleTree leaves)) = true.
Proof.
  intros Hin. unfold verifyMerkleProof, getMerkleProof, getMerkleRoot.
  rewrite BufferFacts.slice2_0x, BufferFacts.from_hex_toString_hex.
  rewrite List.map_map.
  rewrite (List.map_ext _ (fun p => p))
    by (intros p; rewrite BufferFacts.slice2_0x;
        apply BufferFacts.from_hex_toString_hex).
  rewrite List.map_id.
  apply (MerkleFacts.getProof_verifies (fun b => hashLeaf (Buf b))).
  apply (in_map (fun l => hashLeaf (Str l))). exact Hin.
Qed.

Lemma merkle_proof_verifies_witness :
  In "hash3" ["hash1"; "hash2"; "hash3"] /\
  verifyMerkleProof
    (getMerkleProof (createMerkleTree ["hash1"; "hash2"; "hash3"]) "hash3") "hash3"
    (getMerkleRoot (createMerkleTree ["hash1"; "hash2"; "hash3"])) = true.
Proof.
  split.
  - simpl. auto.
  - apply (merkle_proof_verifies ["hash1"; "hash2"; "hash3"] "hash3"). simpl. auto.
Defined.

(** ** The hash and the Merkle functions on known values *)

Example sha256_empty :
  hashContent "" = "0xe3b0c44298fc1c149afbf4c8996fb92427ae41e4649b934ca495991b7852b855".
Proof. vm_compute. reflexivity. Qed.

Example sha256_abc :
  hashContent "abc" = "0xba7816bf8f01cfea414140de5dae2223b00361a396177a9cb410ff61f20015ad".
Proof. vm_compute. reflexivity. Qed.

Example sha256_genesis :
  GENESIS_HASH = "0xaeebad4a796fcc2e15dc4c6061b45ed9b373f26adfc798ca7d2d8cc58182718e".
Proof. vm_compute. reflexivity. Qed.

Example sha256_two_blocks :
  hashContent "aaaaaaaaaaaaaaaaaaaaaaaaaaaaaaaaaaaaaaaaaaaaaaaaaaaaaaaa" =
  "0xb35439a4ac6f0948b6d6f9e3c6af0f5f590ce20f1bde7090ef7970686ec6738a".
Proof. vm_compute. reflexivity. Qed.

Example fixture_digests :
  hashContent "A" = Fixtures.hashA /\ hashContent "B" = Fixtures.hashB
  /\ hashContent "hash1" = Fixtures.hash1 /\ hashContent "hash2" = Fixtures.hash2
  /\ hashContent "genesis" = Fixtures.genesis
  /\ LogbookReconstructor.placeholder Fixtures.entryA = Ok Fixtures.placeholderA.
Proof. vm_compute. auto 10. Qed.

Example buildPayload_test :
  buildPayload "test-log" "abc123" = "logbook:test-log:abc123".
Proof. reflexivity. Qed.

Example merkle_root_length :
  String.length (getMerkleRoot (createMerkleTree ["hash1"; "hash2"; "hash3"])) = 66%nat.
Proof. vm_compute. reflexivity. Qed.

Example merkle_proof_sizes :
  let tree := createMerkleTree ["hash1"; "hash2"; "hash3"] in
  List.length (getMerkleProof tree "hash3") = 1%nat
  /\ List.length (getMerkleProof tree "hash1") = 2%nat
  /\ getMerkleProof tree "absent" = [].
Proof. vm_compute. auto. Qed.

Example toISOString_epoch :
  Date.toISOString 1234567890000 = Ok "2009-02-13T23:31:30.000Z"
  /\ Date.toISOString (-1) = Ok "1969-12-31T23:59:59.999Z"
  /\ Date.toISOString 8640000000000000 = Ok "+275760-09-13T00:00:00.000Z"
  /\ Date.toISOString 8640000000000001 = Throw "Invalid time value".
Proof. vm_compute. auto. Qed.

(** ** [ChainManager.addEntry] *)

Module AddEntryFacts.

(** The first regular expression, spelled out. *)
Lemma match_0x_hex_spec (s : string) :
  match_0x_hex s = true <->
  exists digits, s = "0x" +:+ digits /\ digits <> "" /\ all_hex digits = true.
Proof.
  split.
  - destruct s as [|a [|b digits]]; try discriminate.
    + destruct a as [[] [] [] [] [] [] [] []]; discriminate.
    + destruct a as [[] [] [] [] [] [] [] []]; try discriminate.
      destruct b as [[] [] [] [] [] [] [] []]; try discriminate.
      unfold match_0x_hex. intros H. apply andb_prop in H as [Hne Hhex].
      exists digits. repeat split; auto.
      intros ->. discriminate.
  - intros (digits & -> & Hne & Hhex).
    destruct digits; [contradiction | exact Hhex].
Qed.

Lemma match_0x_hex_nonempty (s : string) :
  match_0x_hex s = true -> String.eqb s "" = false.
Proof. destruct s; [discriminate | reflexivity]. Qed.

Lemma match_0x_hex64_nonempty (s : string) :
  match_0x_hex64 s = true -> String.eqb s "" = false.
Proof. destruct s; [discriminate | reflexivity]. Qed.

(** A rejected call throws before it touches the object or the disk. *)
Lemma addEntry_rejected name entryHash txHash timestamp blockNumber message
      (st : ChainManager.state) :
  Reading.rejected entryHash txHash timestamp blockNumber = Some message ->
  ChainManager.addEntry name entryHash txHash timestamp blockNumber st
  = (Throw message, st).
Proof.
  unfold Reading.rejected, ChainManager.addEntry.
  destruct (match_0x_hex entryHash) eqn:E1; simpl.
  2:{ intros [= <-]. rewrite orb_true_r. reflexivity. }
  rewrite (match_0x_hex_nonempty _ E1). simpl.
  destruct (match_0x_hex64 txHash) eqn:E2; simpl.
  2:{ intros [= <-]. rewrite orb_true_r. reflexivity. }
  rewrite (match_0x_hex64_nonempty _ E2). simpl.
  destruct (timestamp <? 0)%Z; [intros [= <-]; reflexivity|].
  destruct (blockNumber <? 0)%Z; [intros [= <-]; reflexivity|].
  discriminate.
Qed.

(** An accepted call appends the entry in memory and then saves. *)
Lemma addEntry_accepted name entryHash txHash timestamp blockNumber
      (st : ChainManager.state) :
  Reading.rejected entryHash txHash timestamp blockNumber = None ->
  let cm := fst st in
  let es := ChainData.entries (ChainManager.data cm) in
  let entry :=
    {| ChainEntry.name := name;
       ChainEntry.entryHash := entryHash;
       ChainEntry.previousHash := ChainManager.lastEntryHash es;
       ChainEntry.txHash := txHash;
       ChainEntry.timestamp := timestamp;
       ChainEntry.blockNumber := blockNumber;
       ChainEntry.merkleRoot :=
         getMerkleRoot (createMerkleTree (map ChainEntry.entryHash es ++ [entryHash])) |} in
  let d' := {| ChainData.logbookName := ChainData.logbookName (ChainManager.data cm);
               ChainData.entries := es ++ [entry] |} in
  let cm' := {| ChainManager.logbookName := ChainManager.logbookName cm;
                ChainManager.data := d' |} in
  ChainManager.addEntry name entryHash txHash timestamp blockNumber st =
  match writeError (snd st) with
  | Some message => (Throw ("Failed to save chain data: " +:+ message), (cm', snd st))
  | None =>
      (Ok entry,
       (cm', {| logbookDirs := logbookDirs (snd st);
                chainFiles :=
                  <[ChainManager.logbookName cm := Document d']> (chainFiles (snd st));
                entryFiles := entryFiles (snd st);
                writeError := None |}))
  end.
Proof.
  unfold Reading.rejected, ChainManager.addEntry.
  destruct (match_0x_hex entryHash) eqn:E1; simpl; [|discriminate].
  rewrite (match_0x_hex_nonempty _ E1). simpl.
  destruct (match_0x_hex64 txHash) eqn:E2; simpl; [|discriminate].
  rewrite (match_0x_hex64_nonempty _ E2). simpl.
  destruct (timestamp <? 0)%Z; [discriminate|].
  destruct (blockNumber <? 0)%Z; [discriminate|].
  intros _. destruct st as [cm fs].
  unfold bind, ChainManager.this, ChainManager.setData, ChainManager.save,
    ChainManager.onDisk, ChainManager.saveChainData, try_catch, writeChainFile,
    bind, get, put, throw, ret.
  cbn. destruct (writeError fs); reflexivity.
Qed.

End AddEntryFacts.

(** C4, as the specification states it, fails: a 0x-prefixed string of 16
    hexadecimal digits does not match [^0x[0-9a-fA-F]{64}$], and [addEntry]
    accepts it as an entry hash (the first test of [addEntry] does so). *)
Lemma addEntry_accepts_short_entryHash :
  match_0x_hex64 "0xabcdef1234567890" = false /\
  fst (ChainManager.addEntry "entry" "0xabcdef1234567890" Fixtures.txA
         1700000000 1000 Fixtures.fresh) =
  Ok {| ChainEntry.name := "entry";
        ChainEntry.entryHash := "0xabcdef1234567890";
        ChainEntry.previousHash := Fixtures.genesis;
        ChainEntry.txHash := Fixtures.txA;
        ChainEntry.timestamp := 1700000000;
        ChainEntry.blockNumber := 1000;
        ChainEntry.merkleRoot :=
          "0x035c2ca6b8b39de7b9e3c747b76a57e341a6312dc0683858e11362d08c8d9bac" |}.
Proof.
  split; vm_compute; reflexivity.
Qed.

(** C4, amended. [addEntry] validates [entryHash] against
    [^0x[0-9a-fA-F]+$] (0x and one or more hexadecimal digits, of any
    number): the call throws the entry-hash format error exactly for the
    strings that do not match, whatever the other arguments and the state. *)
Theorem addEntry_validates_entryHash
        name entryHash txHash timestamp blockNumber (st : ChainManager.state) :
  fst (ChainManager.addEntry name entryHash txHash timestamp blockNumber st)
  = Throw Reading.entryHashError
  <-> match_0x_hex entryHash = false.
Proof.
  destruct (Reading.rejected entryHash txHash timestamp blockNumber)
    as [message|] eqn:R.
  - rewrite (AddEntryFacts.addEntry_rejected _ _ _ _ _ _ _ R). simpl.
    unfold Reading.rejected in R.
    destruct (match_0x_hex entryHash); simpl in R.
    + split; [|discriminate]. intros [= ->].
      destruct (match_0x_hex64 txHash); simpl in R; [|discriminate].
      destruct (timestamp <? 0)%Z; [discriminate|].
      destruct (blockNumber <? 0)%Z; discriminate.
    + injection R as <-. split; reflexivity.
  - rewrite (AddEntryFacts.addEntry_accepted _ _ _ _ _ _ R).
    unfold Reading.rejected in R.
    destruct (match_0x_hex entryHash); simpl in R; [|discriminate].
    destruct (writeError (snd st)); simpl; split; discriminate.
Qed.

(** C5. After a successful [addEntry], the new entry's [previousHash] is the
    [entryHash] of the entry that was last, and on an empty chain the genesis
    hash, the hash of the string "genesis". *)
Theorem addEntry_previousHash
        name entryHash txHash timestamp blockNumber
        (st st' : ChainManager.state) (entry : ChainEntry.t) :
  ChainManager.addEntry name entryHash txHash timestamp blockNumber st = (Ok entry, st') ->
  ChainEntry.previousHash entry =
  match ChainManager.getLastEntry (fst st) with
  | Some lastEntry => ChainEntry.entryHash lastEntry
  | None => hashContent "genesis"
  end.
Proof.
  intros Hadd.
  destruct (Reading.rejected entryHash txHash timestamp blockNumber)
    as [message|] eqn:R.
  - rewrite (AddEntryFacts.addEntry_rejected _ _ _ _ _ _ _ R) in Hadd. discriminate.
  - rewrite (AddEntryFacts.addEntry_accepted _ _ _ _ _ _ R) in Hadd.
    destruct (writeError (snd st)); [discriminate|].
    injection Hadd as <- _. reflexivity.
Qed.

Lemma addEntry_previousHash_witness :
  exists entry st',
    ChainManager.addEntry "entry-2" Fixtures.hash2 Fixtures.txA 1700000010 1001
      Fixtures.afterFirst = (Ok entry, st')
    /\ ChainEntry.previousHash entry = Fixtures.hash1.
Proof.
  destruct Fixtures.second as [[entry | message] st'] eqn:Hsecond;
    [|discriminate Hsecond].
  assert (Hadd : ChainManager.addEntry "entry-2" Fixtures.hash2 Fixtures.txA
                   1700000010 1001 Fixtures.afterFirst = (Ok entry, st')).
  { rewrite <- Hsecond. vm_compute. reflexivity. }
  exists entry, st'. split; [exact Hadd|].
  rewrite (addEntry_previousHash _ _ _ _ _ _ _ _ Hadd). reflexivity.
Defined.

(** C8. A call of [addEntry] whose [entryHash], [txHash], [timestamp] or
    [blockNumber] fails its check throws, and leaves the entries in memory
    and the disk as they were. *)
Theorem addEntry_invalid_changes_nothing
        name entryHash txHash timestamp blockNumber (st : ChainManager.state) :
  match_0x_hex entryHash = false \/ match_0x_hex64 txHash = false
  \/ timestamp < 0 \/ blockNumber < 0 ->
  exists message,
    ChainManager.addEntry name entryHash txHash timestamp blockNumber st
    = (Throw message, st).
Proof.
  intros Hbad.
  destruct (Reading.rejected entryHash txHash timestamp blockNumber)
    as [message|] eqn:R.
  - exists message. now apply AddEntryFacts.addEntry_rejected.
  - exfalso. unfold Reading.rejected in R.
    destruct (match_0x_hex entryHash); simpl in R; [|discriminate].
    destruct (match_0x_hex64 txHash); simpl in R; [|discriminate].
    destruct (Z.ltb_spec timestamp 0) as [Ht | Ht]; [discriminate|].
    destruct (Z.ltb_spec blockNumber 0) as [Hb | Hb]; [discriminate|].
    destruct Hbad as [Hbad | [Hbad | [Hbad | Hbad]]]; try discriminate; lia.
Qed.

Lemma addEntry_invalid_changes_nothing_witness :
  exists message,
    ChainManager.addEntry "entry" "0xhash" Fixtures.txA (-1) 1000 Fixtures.afterFirst
    = (Throw message, Fixtures.afterFirst).
Proof.
  apply (addEntry_invalid_changes_nothing "entry" "0xhash" Fixtures.txA (-1) 1000
           Fixtures.afterFirst).
  left. reflexivity.
Defined.

(** C10. [addEntry] puts no condition on [name]: with an entry hash, a
    transaction hash, a timestamp and a block number that pass their checks,
    and a disk that accepts the write, the call succeeds for every string,
    the empty one and the name of an existing entry included, and the entry
    appended, in memory and in [chain.json], carries the name as given. *)
Theorem addEntry_any_name
        name entryHash txHash timestamp blockNumber (st : ChainManager.state) :
  match_0x_hex entryHash = true -> match_0x_hex64 txHash = true ->
  0 <= timestamp -> 0 <= blockNumber -> writeError (snd st) = None ->
  exists entry st',
    ChainManager.addEntry name entryHash txHash timestamp blockNumber st = (Ok entry, st')
    /\ ChainEntry.name entry = name
    /\ ChainManager.getEntries (fst st') = ChainManager.getEntries (fst st) ++ [entry]
    /\ chainFiles (snd st') !! ChainManager.logbookName (fst st)
       = Some (Document (ChainManager.data (fst st'))).
Proof.
  intros H1 H2 H3 H4 Hw.
  assert (R : Reading.rejected entryHash txHash timestamp blockNumber = None).
  { unfold Reading.rejected. rewrite H1, H2. simpl.
    destruct (Z.ltb_spec timestamp 0); [lia|].
    destruct (Z.ltb_spec blockNumber 0); [lia|]. reflexivity. }
  rewrite (AddEntryFacts.addEntry_accepted name _ _ _ _ st R), Hw.
  eexists. eexists. split; [reflexivity|].
  repeat split. simpl. apply lookup_insert_eq.
Qed.

Lemma addEntry_any_name_witness :
  exists entry st',
    ChainManager.addEntry "" Fixtures.hash2 Fixtures.txA 0 0 Fixtures.afterFirst
    = (Ok entry, st')
    /\ ChainEntry.name entry = ""
    /\ ChainManager.getEntries (fst st')
       = ChainManager.getEntries (fst Fixtures.afterFirst) ++ [entry]
    /\ chainFiles (snd st') !! ChainManager.logbookName (fst Fixtures.afterFirst)
       = Some (Document (ChainManager.data (fst st'))).
Proof.
  apply (addEntry_any_name "" Fixtures.hash2 Fixtures.txA 0 0 Fixtures.afterFirst).
  - reflexivity.
  - reflexivity.
  - lia.
  - lia.
  - reflexivity.
Defined.

(** ** [LogbookReconstructor.checkLocalIntegrity] *)

Module IntegrityFacts.

(** A failed synchronisation carries no entries. *)
Lemma sync_failed_no_entries (anchorService : AnchorService.t) (logbookName : string) :
  SyncResult.success
    (BlockchainSyncService.syncFromContract anchorService logbookName) = false ->
  SyncResult.entries
    (BlockchainSyncService.syncFromContract anchorService logbookName) = [].
Proof.
  unfold BlockchainSyncService.syncFromContract.
  destruct (AnchorService.getLogbookNames anchorService) as [names | m]; [|reflexivity].
  destruct (negb (existsb (String.eqb logbookName) names)); [discriminate|].
  destruct (AnchorService.getAllEntries anchorService logbookName None);
    [discriminate | reflexivity].
Qed.

(** With no entry from the contract, the check answers before it looks at
    the disk. *)
Lemma nothing_to_reconcile (anchorService : AnchorService.t) (logbookName : string)
      (fs : FileSystem) :
  SyncResult.entries
    (BlockchainSyncService.syncFromContract anchorService logbookName) = [] ->
  LogbookReconstructor.checkLocalIntegrity anchorService logbookName fs =
  (Ok {| LogbookReconstructor.needsReconstruction := false;
         LogbookReconstructor.contractEntries := None |}, fs).
Proof.
  intros H. unfold LogbookReconstructor.checkLocalIntegrity.
  rewrite H. simpl. rewrite orb_true_r. reflexivity.
Qed.

Lemma existsb_placeholder (es : list ChainEntry.t) :
  existsb (fun e => String.eqb (ChainEntry.txHash e) "reconstructed") es = true
  <-> Exists Reading.isPlaceholderEntry es.
Proof.
  rewrite existsb_exists, List.Exists_exists. unfold Reading.isPlaceholderEntry.
  split; intros (e & Hin & He); exists e; (split; [exact Hin|]).
  - apply String.eqb_eq. exact He.
  - apply String.eqb_eq. exact He.
Qed.

Lemma length_zero {A} (l : list A) : Nat.eqb (length l) 0 = true <-> l = [].
Proof. destruct l; simpl; split; congruence. Qed.

End IntegrityFacts.

(** C9. When the query of the contract fails, [checkLocalIntegrity] returns
    [needsReconstruction = false] without throwing and without touching the
    disk: the same answer as for a contract that holds no entry. *)
Theorem checkLocalIntegrity_hides_ledger_failure
        (failing empty : AnchorService.t) (logbookName : string) (fs : FileSystem) :
  SyncResult.success
    (BlockchainSyncService.syncFromContract failing logbookName) = false ->
  SyncResult.success
    (BlockchainSyncService.syncFromContract empty logbookName) = true ->
  SyncResult.entries
    (BlockchainSyncService.syncFromContract empty logbookName) = [] ->
  LogbookReconstructor.checkLocalIntegrity failing logbookName fs =
  (Ok {| LogbookReconstructor.needsReconstruction := false;
         LogbookReconstructor.contractEntries := None |}, fs)
  /\ LogbookReconstructor.checkLocalIntegrity failing logbookName fs =
     LogbookReconstructor.checkLocalIntegrity empty logbookName fs.
Proof.
  intros Hfail _ Hempty.
  apply IntegrityFacts.sync_failed_no_entries in Hfail.
  rewrite (IntegrityFacts.nothing_to_reconcile failing _ fs Hfail).
  rewrite (IntegrityFacts.nothing_to_reconcile empty _ fs Hempty).
  split; reflexivity.
Qed.

(** C6. [checkLocalIntegrity] reports [needsReconstruction = false] when the
    contract gave no entry; and for a local store that is absent or opens,
    it reports [true] exactly when the contract gave entries and the store
    is absent, or empty, or holds an entry whose [txHash] is "reconstructed",
    or differs from the contract in its number of entries or in the
    [entryHash] of its last entry. *)
Theorem checkLocalIntegrity_decides
        (anchorService : AnchorService.t) (logbookName : string) (fs : FileSystem) :
  let ledger :=
    SyncResult.entries
      (BlockchainSyncService.syncFromContract anchorService logbookName) in
  (ledger = [] ->
   LogbookReconstructor.checkLocalIntegrity anchorService logbookName fs =
   (Ok {| LogbookReconstructor.needsReconstruction := false;
          LogbookReconstructor.contractEntries := None |}, fs))
  /\
  (forall local,
      Reading.localStore logbookName fs = Ok local ->
      exists r fs',
        LogbookReconstructor.checkLocalIntegrity anchorService logbookName fs = (Ok r, fs')
        /\ (LogbookReconstructor.needsReconstruction r = true
            <-> Reading.reconstructionRequired ledger local)).
Proof.
  intros ledger. split.
  - apply IntegrityFacts.nothing_to_reconcile.
  - intros local Hlocal.
    destruct ledger as [|e0 ledger'] eqn:Hledger.
    + subst ledger.
      rewrite (IntegrityFacts.nothing_to_reconcile _ _ fs Hledger).
      eexists. eexists. split; [reflexivity|]. simpl.
      split; [discriminate | intros [H _]; contradiction].
    + assert (Hsucc : SyncResult.success
                (BlockchainSyncService.syncFromContract anchorService logbookName) = true).
      { destruct (SyncResult.success _) eqn:E; [reflexivity|].
        apply IntegrityFacts.sync_failed_no_entries in E.
        subst ledger. rewrite E in Hledger. discriminate. }
      unfold LogbookReconstructor.checkLocalIntegrity, bind, get, ret, throw.
      subst ledger. rewrite Hsucc, Hledger. cbn [negb orb length Nat.eqb].
      unfold Reading.localStore in Hlocal.
      destruct (ChainManager.logbookExists logbookName fs) eqn:Hex; cbn [negb].
      * destruct (ChainManager.new logbookName fs) as [[cm | m] fs1] eqn:Hnew;
          [|discriminate].
        injection Hlocal as <-.
        destruct (Nat.eqb (length (ChainManager.getEntries cm)) 0) eqn:Hlen.
        { eexists. eexists. split; [reflexivity|]. simpl.
          split; [|reflexivity]. intros _. split; [discriminate|].
          left. now apply IntegrityFacts.length_zero. }
        destruct (existsb _ (ChainManager.getEntries cm)) eqn:Hph.
        { eexists. eexists. split; [reflexivity|]. simpl.
          split; [|reflexivity]. intros _. split; [discriminate|].
          right. left. now apply IntegrityFacts.existsb_placeholder. }
        destruct (last (ChainManager.getEntries cm)) as [lastLocal|] eqn:Hll.
        2:{ apply last_None in Hll. rewrite Hll in Hlen. discriminate. }
        destruct (last (e0 :: ledger')) as [lastContract|] eqn:Hlc.
        2:{ apply last_None in Hlc. discriminate. }
        eexists. eexists. split; [reflexivity|].
        cbn [LogbookReconstructor.needsReconstruction].
        unfold Reading.reconstructionRequired. rewrite Hll, Hlc.
        rewrite orb_true_iff, !negb_true_iff. cbn [fmap option_fmap option_map].
        split.
        { intros H. split; [discriminate|]. right. right.
          destruct H as [H | H].
          - left. apply Nat.eqb_neq in H. exact H.
          - right. apply String.eqb_neq in H. congruence. }
        { intros [_ [H | [H | [H | H]]]].
          - apply IntegrityFacts.length_zero in H. congruence.
          - apply IntegrityFacts.existsb_placeholder in H. congruence.
          - left. now apply Nat.eqb_neq.
          - right. apply String.eqb_neq. congruence. }
      * injection Hlocal as <-.
        eexists. eexists. split; [reflexivity|]. simpl.
        split; [|reflexivity]. intros _. split; [discriminate | exact I].
Qed.

Lemma checkLocalIntegrity_hides_ledger_failure_witness :
  LogbookReconstructor.checkLocalIntegrity Fixtures.unreachable "lb" Fixtures.emptyDisk =
  (Ok {| LogbookReconstructor.needsReconstruction := false;
         LogbookReconstructor.contractEntries := None |}, Fixtures.emptyDisk)
  /\ LogbookReconstructor.checkLocalIntegrity Fixtures.unreachable "lb" Fixtures.emptyDisk =
     LogbookReconstructor.checkLocalIntegrity Fixtures.contractEmpty "lb" Fixtures.emptyDisk.
Proof.
  apply (checkLocalIntegrity_hides_ledger_failure
           Fixtures.unreachable Fixtures.contractEmpty "lb" Fixtures.emptyDisk);
    reflexivity.
Defined.

(** A store whose [chain.json] does not parse is neither absent nor open:
    with entries on the contract the check throws what the constructor
    throws. *)
Example checkLocalIntegrity_corrupt_store :
  fst (LogbookReconstructor.checkLocalIntegrity Fixtures.contractAB "lb"
         {| logbookDirs := {["lb"]};
            chainFiles := {[ "lb" := SyntaxError "Unexpected end of JSON input" ]};
            entryFiles := ∅;
            writeError := None |})
  = Throw "Corrupted chain.json: Unexpected end of JSON input".
Proof. vm_compute. reflexivity. Qed.

Lemma checkLocalIntegrity_decides_witness :
  exists r fs',
    LogbookReconstructor.checkLocalIntegrity Fixtures.contractAB "lb" Fixtures.emptyDisk
    = (Ok r, fs')
    /\ (LogbookReconstructor.needsReconstruction r = true
        <-> Reading.reconstructionRequired [Fixtures.entryA; Fixtures.entryB] None).
Proof.
  apply (proj2 (checkLocalIntegrity_decides Fixtures.contractAB "lb" Fixtures.emptyDisk)
               None).
  reflexivity.
Defined.

(** ** [LogbookReconstructor.reconstruct] *)

Module ReconstructFacts.

Ltac run :=
  unfold bind, ret, throw, get, put, try_catch; cbn beta iota.

(** Opening a logbook that is on the disk loads its document and writes
    nothing. *)
Lemma new_loaded (logbook : string) (fs : FileSystem) (d : ChainData.t) :
  blank logbook = false ->
  ChainManager.logbookExists logbook fs = true ->
  chainFiles fs !! logbook = Some (Document d) ->
  ChainData.logbookName d <> "" ->
  ChainManager.new logbook fs =
  (Ok {| ChainManager.logbookName := logbook; ChainManager.data := d |}, fs).
Proof.
  intros Hb Hex Hfile Hname.
  unfold ChainManager.new, ChainManager.ensureLogbookDirectory,
    ChainManager.loadOrCreateChain.
  rewrite Hb. run. rewrite Hex. cbn. rewrite Hfile.
  apply String.eqb_neq in Hname. rewrite Hname. reflexivity.
Qed.

(** What a successful opening leaves. *)
Lemma new_ok (logbook : string) (fs fs' : FileSystem) (cm : ChainManager.t) :
  ChainManager.new logbook fs = (Ok cm, fs') ->
  blank logbook = false
  /\ ChainManager.logbookExists logbook fs' = true
  /\ ChainManager.logbookName cm = logbook
  /\ entryFiles fs' = entryFiles fs.
Proof.
  unfold ChainManager.new, ChainManager.ensureLogbookDirectory,
    ChainManager.loadOrCreateChain, ChainManager.saveChainData, mkdirSync,
    writeChainFile, ChainManager.logbookExists.
  destruct (blank logbook); [discriminate|]. run.
  destruct (bool_decide (logbook ∈ logbookDirs fs)) eqn:Hex; cbn.
  - destruct (chainFiles fs !! logbook) as [[m | | d]|]; cbn; try discriminate.
    + destruct (String.eqb (ChainData.logbookName d) ""); cbn; [discriminate|].
      intros [= <- <-]. auto.
    + destruct (writeError fs); cbn; [discriminate|].
      intros [= <- <-]. cbn. auto.
  - destruct (writeError fs); cbn; [discriminate|].
    destruct (chainFiles fs !! logbook) as [[m | | d]|]; cbn; try discriminate.
    + destruct (String.eqb (ChainData.logbookName d) ""); cbn; [discriminate|].
      intros [= <- <-]. cbn. repeat split; auto.
      apply bool_decide_eq_true. set_solver.
    + intros [= <- <-]. cbn. repeat split; auto.
      apply bool_decide_eq_true. set_solver.
Qed.

Lemma blank_nonempty (s : string) : blank s = false -> s <> "".
Proof. intros H ->. discriminate. Qed.

(** [chainManager.reconstruct(entries)] on a local object. *)
Lemma call_reconstruct (cm : ChainManager.t) (es : list ChainEntry.t) (fs : FileSystem) :
  let d := {| ChainData.logbookName := ChainManager.logbookName cm;
              ChainData.entries := es |} in
  let cm' := {| ChainManager.logbookName := ChainManager.logbookName cm;
                ChainManager.data := d |} in
  ChainManager.call cm (ChainManager.reconstruct es) fs =
  match writeError fs with
  | Some message => (Throw ("Failed to save chain data: " +:+ message), fs)
  | None =>
      (Ok (tt, cm'),
       {| logbookDirs := logbookDirs fs;
          chainFiles := <[ChainManager.logbookName cm := Document d]> (chainFiles fs);
          entryFiles := entryFiles fs;
          writeError := None |})
  end.
Proof.
  unfold ChainManager.call, ChainManager.reconstruct, ChainManager.this,
    ChainManager.setData, ChainManager.save, ChainManager.onDisk,
    ChainManager.saveChainData, writeChainFile.
  run. cbn. destruct (writeError fs); reflexivity.
Qed.

(** The placeholder loop only adds entry files. *)
Lemma writePlaceholders_ok (logbook : string) (entries : list BaseEntry.t) :
  forall fs fs',
    LogbookReconstructor.writePlaceholders logbook entries fs = (Ok tt, fs') ->
    logbookDirs fs' = logbookDirs fs
    /\ chainFiles fs' = chainFiles fs
    /\ writeError fs' = writeError fs
    /\ (forall k, is_Some (entryFiles fs !! k) -> is_Some (entryFiles fs' !! k))
    /\ (forall e, In e entries ->
                  is_Some (entryFiles fs' !! (logbook, BaseEntry.name e))).
Proof.
  induction entries as [|e rest IH]; intros fs fs'.
  - cbn. intros [= <-]. repeat split; auto. intros e [].
  - cbn [LogbookReconstructor.writePlaceholders]. unfold writeEntryFile. run.
    destruct (entryFiles fs !! (logbook, BaseEntry.name e)) as [f|] eqn:Hf.
    + intros H. destruct (IH _ _ H) as (Hd & Hc & Hw & Hmono & Hall).
      repeat split; auto.
      intros e' [<- | Hin]; [|now apply Hall].
      apply Hmono. rewrite Hf. eauto.
    + unfold mkdirEntry. run.
      destruct (writeError fs) eqn:Hwe; cbn; [discriminate|].
      destruct (LogbookReconstructor.placeholder e) as [text | m]; [|discriminate].
      cbn. rewrite Hwe.
      intros H. destruct (IH _ _ H) as (Hd & Hc & Hw & Hmono & Hall).
      cbn in Hd, Hc, Hw, Hmono.
      split; [exact Hd|]. split; [exact Hc|]. split; [congruence|]. split.
      * intros k Hk. apply Hmono.
        destruct (decide ((logbook, BaseEntry.name e) = k)) as [<- | Hne].
        -- rewrite lookup_insert_eq. eauto.
        -- now rewrite lookup_insert_ne.
      * intros e' [<- | Hin]; [|now apply Hall].
        apply Hmono. rewrite lookup_insert_eq. eauto.
Qed.

(** Where every entry has its file, the loop writes nothing. *)
Lemma writePlaceholders_present (logbook : string) (entries : list BaseEntry.t)
      (fs : FileSystem) :
  (forall e, In e entries -> is_Some (entryFiles fs !! (logbook, BaseEntry.name e))) ->
  LogbookReconstructor.writePlaceholders logbook entries fs = (Ok tt, fs).
Proof.
  induction entries as [|e rest IH]; intros Hall; [reflexivity|].
  cbn [LogbookReconstructor.writePlaceholders]. run.
  destruct (Hall e (or_introl eq_refl)) as [f ->].
  apply IH. intros e' Hin. apply Hall. now right.
Qed.

End ReconstructFacts.

Module RebuildFacts.

Import ReconstructFacts.

Abbreviation ledgerOf anchorService logbookName :=
  (SyncResult.entries (BlockchainSyncService.syncFromContract anchorService logbookName)).

(** A check that asks for a reconstruction hands over the entries of the
    contract, and there is at least one. *)
Lemma check_needs (anchorService : AnchorService.t) (logbookName : string)
      (fs fs0 : FileSystem) (r : LogbookReconstructor.check) :
  LogbookReconstructor.checkLocalIntegrity anchorService logbookName fs = (Ok r, fs0) ->
  LogbookReconstructor.needsReconstruction r = true ->
  LogbookReconstructor.contractEntries r = Some (ledgerOf anchorService logbookName)
  /\ ledgerOf anchorService logbookName <> [].
Proof.
  unfold LogbookReconstructor.checkLocalIntegrity. run.
  destruct (SyncResult.success _); cbn [negb orb].
  2:{ intros [= <- <-]. discriminate. }
  destruct (ledgerOf anchorService logbookName) as [|e0 ledger'] eqn:Hl; cbn [length Nat.eqb].
  { intros [= <- <-]. discriminate. }
  destruct (ChainManager.logbookExists logbookName fs); cbn [negb].
  2:{ intros [= <- <-] _. split; [reflexivity | discriminate]. }
  destruct (ChainManager.new logbookName fs) as [[cm | m] fs1]; [|discriminate].
  destruct (Nat.eqb (length (ChainManager.getEntries cm)) 0).
  { intros [= <- <-] _. split; [reflexivity | discriminate]. }
  destruct (existsb _ (ChainManager.getEntries cm)).
  { intros [= <- <-] _. split; [reflexivity | discriminate]. }
  destruct (last (ChainManager.getEntries cm)); [|discriminate].
  destruct (last (e0 :: ledger')); [|discriminate].
  intros [= <- <-] _. split; [reflexivity | discriminate].
Qed.

(** On a disk that holds the rebuilt chain, the check asks for a
    reconstruction again, and writes nothing. *)
Lemma check_rebuilt (anchorService : AnchorService.t) (logbookName : string)
      (fs : FileSystem) :
  let ledger := ledgerOf anchorService logbookName in
  ledger <> [] ->
  blank logbookName = false ->
  ChainManager.logbookExists logbookName fs = true ->
  chainFiles fs !! logbookName =
    Some (Document {| ChainData.logbookName := logbookName;
                      ChainData.entries := LogbookReconstructor.rebuildEntries ledger |}) ->
  LogbookReconstructor.checkLocalIntegrity anchorService logbookName fs =
  (Ok {| LogbookReconstructor.needsReconstruction := true;
         LogbookReconstructor.contractEntries := Some ledger |}, fs).
Proof.
  intros ledger Hne Hb Hex Hfile.
  assert (Hsucc : SyncResult.success
            (BlockchainSyncService.syncFromContract anchorService logbookName) = true).
  { destruct (SyncResult.success _) eqn:E; [reflexivity|].
    apply IntegrityFacts.sync_failed_no_entries in E. contradiction. }
  unfold LogbookReconstructor.checkLocalIntegrity. run.
  rewrite Hsucc. fold ledger. cbn [negb orb].
  destruct ledger as [|e0 ledger'] eqn:Hl; [contradiction|]. cbn [length Nat.eqb].
  rewrite Hex. cbn [negb].
  rewrite (new_loaded logbookName fs _ Hb Hex Hfile)
    by (cbn; now apply blank_nonempty).
  reflexivity.
Qed.

(** Saving the document that the disk already holds changes nothing. *)
Lemma save_same (fs : FileSystem) (logbook : string) (d : ChainData.t) :
  writeError fs = None ->
  chainFiles fs !! logbook = Some (Document d) ->
  {| logbookDirs := logbookDirs fs;
     chainFiles := <[logbook := Document d]> (chainFiles fs);
     entryFiles := entryFiles fs;
     writeError := None |} = fs.
Proof.
  intros Hw Hfile. destruct fs as [dirs chains files we]. cbn in *.
  subst we. f_equal. now apply insert_id.
Qed.

End RebuildFacts.

(** C7. The entry that [reconstruct] builds at index [i] takes its name,
    hashes, timestamp and block number from the contract's entry [i]
    ([previousHash] as reported, not recomputed), has [txHash]
    "reconstructed", and has as [merkleRoot] the Merkle root of the entry
    hashes of the contract's entries 0 to [i].  A run that rebuilds leaves
    exactly these entries in [chain.json], and a second run from the same
    answers of the contract rebuilds the same entries and leaves the disk as
    the first run left it. *)
Theorem reconstruct_from_ledger :
  (forall (ledger : list BaseEntry.t) (i : nat) (e : BaseEntry.t),
      ledger !! i = Some e ->
      LogbookReconstructor.rebuildEntries ledger !! i =
      Some {| ChainEntry.name := BaseEntry.name e;
              ChainEntry.entryHash := BaseEntry.entryHash e;
              ChainEntry.previousHash := BaseEntry.previousHash e;
              ChainEntry.txHash := "reconstructed";
              ChainEntry.timestamp := BaseEntry.timestamp e;
              ChainEntry.blockNumber := BaseEntry.blockNumber e;
              ChainEntry.merkleRoot :=
                getMerkleRoot
                  (createMerkleTree (map BaseEntry.entryHash (take (S i) ledger))) |})
  /\
  (forall (anchorService : AnchorService.t) (logbookName : string)
          (fs fs1 : FileSystem) (validation : ChainManager.report),
      LogbookReconstructor.reconstruct anchorService logbookName fs
      = (Ok (LogbookReconstructor.Rebuilt validation), fs1) ->
      chainFiles fs1 !! logbookName =
        Some (Document
                {| ChainData.logbookName := logbookName;
                   ChainData.entries :=
                     LogbookReconstructor.rebuildEntries
                       (SyncResult.entries
                          (BlockchainSyncService.syncFromContract
                             anchorService logbookName)) |})
      /\ LogbookReconstructor.reconstruct anchorService logbookName fs1
         = (Ok (LogbookReconstructor.Rebuilt validation), fs1)).
Proof.
  split.
  - intros ledger i e Hi. unfold LogbookReconstructor.rebuildEntries.
    rewrite list_lookup_imap, Hi. reflexivity.
  - intros anchorService logbookName fs fs3 validation.
    unfold LogbookReconstructor.reconstruct at 1. ReconstructFacts.run.
    destruct (LogbookReconstructor.checkLocalIntegrity anchorService logbookName fs)
      as [[r | m] fs0] eqn:Hcheck; [|discriminate].
    destruct (LogbookReconstructor.needsReconstruction r) eqn:Hneeds; cbn [negb];
      [|discriminate].
    destruct (RebuildFacts.check_needs _ _ _ _ _ Hcheck Hneeds) as [Hentries Hne].
    rewrite Hentries.
    set (ledger := SyncResult.entries _) in *.
    destruct (Nat.eqb (length ledger) 0) eqn:Hlen; [discriminate|].
    destruct (ChainManager.new logbookName fs0) as [[cm | m] fs1] eqn:Hnew;
      [|discriminate].
    destruct (ReconstructFacts.new_ok _ _ _ _ Hnew) as (Hb & Hex & Hname & _).
    rewrite ReconstructFacts.call_reconstruct, Hname.
    destruct (writeError fs1) eqn:Hw1; [discriminate|].
    set (d := {| ChainData.logbookName := logbookName;
                 ChainData.entries := LogbookReconstructor.rebuildEntries ledger |}).
    set (fs2 := {| logbookDirs := logbookDirs fs1;
                   chainFiles := <[logbookName := Document d]> (chainFiles fs1);
                   entryFiles := entryFiles fs1;
                   writeError := None |}).
    destruct (LogbookReconstructor.writePlaceholders logbookName ledger fs2)
      as [[[] | m] fs3'] eqn:Hwrite; [|discriminate].
    cbn [snd]. intros [= <- <-].
    destruct (ReconstructFacts.writePlaceholders_ok _ _ _ _ Hwrite)
      as (Hdirs & Hchains & Hwe & _ & Hall).
    assert (Hfile : chainFiles fs3' !! logbookName = Some (Document d)).
    { rewrite Hchains. cbn. apply lookup_insert_eq. }
    assert (Hex3 : ChainManager.logbookExists logbookName fs3' = true).
    { unfold ChainManager.logbookExists in *. now rewrite Hdirs. }
    split; [exact Hfile|].
    unfold LogbookReconstructor.reconstruct. ReconstructFacts.run.
    rewrite (RebuildFacts.check_rebuilt anchorService logbookName fs3' Hne Hb Hex3 Hfile).
    cbn [LogbookReconstructor.needsReconstruction LogbookReconstructor.contractEntries negb].
    fold ledger. rewrite Hlen.
    rewrite (ReconstructFacts.new_loaded logbookName fs3' d Hb Hex3 Hfile)
      by (cbn; now apply ReconstructFacts.blank_nonempty).
    rewrite ReconstructFacts.call_reconstruct.
    cbn [ChainManager.logbookName].
    rewrite Hwe. cbn [writeError fs2].
    fold d.
    rewrite (RebuildFacts.save_same fs3' logbookName d) by (rewrite ?Hwe; auto).
    rewrite (ReconstructFacts.writePlaceholders_present _ _ _ Hall).
    reflexivity.
Qed.

Lemma reconstruct_from_ledger_witness :
  LogbookReconstructor.reconstruct Fixtures.contractAB "lb" Fixtures.emptyDisk
  = (Ok (LogbookReconstructor.Rebuilt Fixtures.validationAB), Fixtures.diskAB)
  /\ chainFiles Fixtures.diskAB !! "lb" =
     Some (Document
             {| ChainData.logbookName := "lb";
                ChainData.entries :=
                  LogbookReconstructor.rebuildEntries
                    (SyncResult.entries
                       (BlockchainSyncService.syncFromContract
                          Fixtures.contractAB "lb")) |})
  /\ LogbookReconstructor.reconstruct Fixtures.contractAB "lb" Fixtures.diskAB
     = (Ok (LogbookReconstructor.Rebuilt Fixtures.validationAB), Fixtures.diskAB).
Proof.
  assert (Hrun : LogbookReconstructor.reconstruct Fixtures.contractAB "lb"
                   Fixtures.emptyDisk
                 = (Ok (LogbookReconstructor.Rebuilt Fixtures.validationAB),
                    Fixtures.diskAB)).
  { vm_compute. reflexivity. }
  split; [exact Hrun|].
  exact (proj2 reconstruct_from_ledger Fixtures.contractAB "lb" Fixtures.emptyDisk
               Fixtures.diskAB Fixtures.validationAB Hrun).
Defined.

(** ** [ChainManager.validateChain] *)

Module ValidateFacts.

Lemma linkErrors_nil (rest : list ChainEntry.t) :
  forall (i : nat) (prev : ChainEntry.t),
    ChainManager.linkErrors i prev rest = [] <-> Reading.linked (prev :: rest).
Proof.
  induction rest as [|curr rest IH]; intros i prev; cbn [ChainManager.linkErrors].
  - split; [|reflexivity]. intros _ [|j] p c Hp Hc; discriminate.
  - destruct (String.eqb_spec (ChainEntry.previousHash curr) (ChainEntry.entryHash prev))
      as [Heq | Hne]; cbn [app].
    + rewrite IH. split.
      * intros Hl [|j] p c Hp Hc.
        -- injection Hp as <-. injection Hc as <-. exact Heq.
        -- exact (Hl j p c Hp Hc).
      * intros Hl j p c Hp Hc. exact (Hl (S j) p c Hp Hc).
    + split; [discriminate|].
      intros Hl. exfalso. apply Hne. exact (Hl 0%nat prev curr eq_refl eq_refl).
Qed.

Lemma contentErrors_nil (logbook : string) (fs : FileSystem) (e : ChainEntry.t) :
  ChainManager.contentErrors logbook fs e = [] <->
  exists content,
    entryFiles fs !! (logbook, ChainEntry.name e) = Some (Text content)
    /\ hashContent content = ChainEntry.entryHash e.
Proof.
  unfold ChainManager.contentErrors.
  destruct (entryFiles fs !! (logbook, ChainEntry.name e)) as [[m | content]|].
  - split; [discriminate | intros (c & [=] & _)].
  - destruct (String.eqb_spec (hashContent content) (ChainEntry.entryHash e)) as [Heq | Hne].
    + split; [|reflexivity]. intros _. exists content. auto.
    + split; [discriminate|]. intros (c & [= <-] & Hc). contradiction.
  - split; [discriminate | intros (c & [=] & _)].
Qed.

Lemma flat_map_nil {A B} (f : A -> list B) (l : list A) :
  flat_map f l = [] <-> forall a, In a l -> f a = [].
Proof.
  induction l as [|a l IH]; cbn.
  - split; [intros _ a [] | reflexivity].
  - split.
    + intros H. apply app_eq_nil in H as [Ha Hl].
      intros a' [<- | Hin]; [exact Ha | now apply IH].
    + intros H. rewrite (H a (or_introl eq_refl)).
      apply IH. intros a' Hin. apply H. now right.
Qed.

(** The report is valid exactly when nothing was recorded, and that is when
    the three invariants hold for every entry. *)
Lemma valid_iff_chainOk (cm : ChainManager.t) (fs : FileSystem) :
  ChainManager.valid (ChainManager.validateChain cm fs) = true <-> Reading.chainOk cm fs.
Proof.
  unfold ChainManager.validateChain, Reading.chainOk, ChainManager.getEntries.
  destruct (ChainData.entries (ChainManager.data cm)) as [|first rest].
  - cbn. split; [|reflexivity]. intros _. repeat split.
    + intros f [=].
    + intros i p c [=].
    + intros e [].
  - cbn [ChainManager.valid]. rewrite IntegrityFacts.length_zero.
    split.
    + intros H. apply app_eq_nil in H as [Hg H]. apply app_eq_nil in H as [Hl Hc].
      repeat split.
      * intros f [= <-].
        destruct (String.eqb_spec (ChainEntry.previousHash first) GENESIS_HASH);
          [assumption | discriminate].
      * now apply (linkErrors_nil rest 1 first).
      * intros e Hin. apply contentErrors_nil.
        apply (proj1 (flat_map_nil _ _) Hc e Hin).
    + intros (Hg & Hl & Hc).
      specialize (Hg first eq_refl). apply String.eqb_eq in Hg. rewrite Hg.
      apply (linkErrors_nil rest 1 first) in Hl. rewrite Hl.
      cbn [app]. apply flat_map_nil. intros e Hin.
      apply contentErrors_nil. now apply Hc.
Qed.

(** A content hash that differs is recorded. *)
Lemma mismatch_recorded (cm : ChainManager.t) (fs : FileSystem)
      (e : ChainEntry.t) (content : string) :
  In e (ChainManager.getEntries cm) ->
  entryFiles fs !! (ChainManager.logbookName cm, ChainEntry.name e) = Some (Text content) ->
  hashContent content <> ChainEntry.entryHash e ->
  In (ContentHashMismatch (ChainEntry.name e) (ChainEntry.entryHash e) (hashContent content))
     (ChainManager.errors (ChainManager.validateChain cm fs)).
Proof.
  unfold ChainManager.validateChain, ChainManager.getEntries.
  intros Hin Hfile Hne.
  destruct (ChainData.entries (ChainManager.data cm)) as [|first rest]; [destruct Hin|].
  cbn [ChainManager.errors]. apply in_or_app. right. apply in_or_app. right.
  apply in_flat_map. exists e. split; [exact Hin|].
  unfold ChainManager.contentErrors. rewrite Hfile.
  apply String.eqb_neq in Hne. rewrite Hne. now left.
Qed.

End ValidateFacts.

(** C2, as the specification states it, fails.  In the scenario of section 8
    (the contract holds [A] and [B], linked from the genesis hash; nothing on
    the disk), [reconstruct] writes a placeholder for each entry and the
    validation it then runs reports two content-hash mismatches and
    [valid = false]: the check is applied to the placeholders, not skipped. *)
Lemma validateChain_fails_placeholders :
  LogbookReconstructor.reconstruct Fixtures.contractAB "lb" Fixtures.emptyDisk =
  (Ok (LogbookReconstructor.Rebuilt
         {| ChainManager.valid := false;
            ChainManager.errors :=
              [ ContentHashMismatch "a" Fixtures.hashA
                  "0x4f663e605a0e223e74a46540bf8a655a0887aafab58449ca7a9c61d30b8c972b";
                ContentHashMismatch "b" Fixtures.hashB
                  "0xd352fa7148d7272719cec269c59a8feed65e24421b192143e618077ea86d91d9" ] |}),
   Fixtures.diskAB)
  /\ entryFiles Fixtures.diskAB !! ("lb", "a") = Some (Text Fixtures.placeholderA)
  /\ String.prefix "PLACEHOLDER - Original content not available" Fixtures.placeholderA
     = true
  /\ ChainManager.validateChain Fixtures.chainAB Fixtures.diskAB = Fixtures.validationAB.
Proof.
  split; [|split; [|split]]; vm_compute; reflexivity.
Qed.

(** C2, amended.  [validateChain] has no exemption for placeholders: it
    reports [valid = true] exactly when the first entry names the genesis
    hash, every entry names the hash of the entry before it, and every
    entry, placeholder or not, has an [entry.txt] whose hash is its
    [entryHash]; for an entry whose file holds the placeholder text with
    another hash it records a content-hash mismatch and reports
    [valid = false]. *)
Theorem validateChain_checks_every_content (cm : ChainManager.t) (fs : FileSystem) :
  (ChainManager.valid (ChainManager.validateChain cm fs) = true <-> Reading.chainOk cm fs)
  /\
  (forall (e : ChainEntry.t) (content : string),
      In e (ChainManager.getEntries cm) ->
      entryFiles fs !! (ChainManager.logbookName cm, ChainEntry.name e)
      = Some (Text content) ->
      String.prefix LogbookVerifier.PLACEHOLDER content = true ->
      hashContent content <> ChainEntry.entryHash e ->
      In (ContentHashMismatch (ChainEntry.name e) (ChainEntry.entryHash e)
            (hashContent content))
         (ChainManager.errors (ChainManager.validateChain cm fs))
      /\ ChainManager.valid (ChainManager.validateChain cm fs) = false).
Proof.
  split; [apply ValidateFacts.valid_iff_chainOk|].
  intros e content Hin Hfile _ Hne. split.
  - now apply ValidateFacts.mismatch_recorded.
  - destruct (ChainManager.valid (ChainManager.validateChain cm fs)) eqn:Hv;
      [|reflexivity].
    apply ValidateFacts.valid_iff_chainOk in Hv. destruct Hv as (_ & _ & Hc).
    destruct (Hc e Hin) as (c & Hfile' & Hhash).
    rewrite Hfile in Hfile'. injection Hfile' as <-. contradiction.
Qed.

(** ** [LogbookVerifier.performVerification] *)

Module VerifierFacts.

(** A loop whose step clears [allValid] when [ok] fails and raises
    [hasPlaceholders] when [ph] holds computes the conjunction of [ok] and
    the disjunction of [ph]. *)
Lemma loop_flags {A L} (step : LogbookVerifier.flags -> A -> LogbookVerifier.flags * L)
      (ok ph : A -> bool) :
  (forall f a,
      LogbookVerifier.allValid (fst (step f a)) = LogbookVerifier.allValid f && ok a
      /\ LogbookVerifier.hasPlaceholders (fst (step f a))
         = LogbookVerifier.hasPlaceholders f || ph a) ->
  forall l f,
    LogbookVerifier.allValid (fst (LogbookVerifier.loop step f l))
    = LogbookVerifier.allValid f && forallb ok l
    /\ LogbookVerifier.hasPlaceholders (fst (LogbookVerifier.loop step f l))
       = LogbookVerifier.hasPlaceholders f || existsb ph l.
Proof.
  intros Hstep. induction l as [|a l IH]; intros f; cbn.
  - now rewrite andb_true_r, orb_false_r.
  - destruct (Hstep f a) as [Hv Hp].
    destruct (step f a) as [f1 line]. cbn in Hv, Hp.
    destruct (IH f1) as [Hv' Hp'].
    destruct (LogbookVerifier.loop step f1 l) as [f2 lines]. cbn in *.
    rewrite Hv', Hp', Hv, Hp. now rewrite andb_assoc, orb_assoc.
Qed.

Lemma checkContent_flags f e :
  LogbookVerifier.allValid (fst (LogbookVerifier.checkContent f e))
  = LogbookVerifier.allValid f && Reading.contentOk e
  /\ LogbookVerifier.hasPlaceholders (fst (LogbookVerifier.checkContent f e))
     = LogbookVerifier.hasPlaceholders f || LogbookVerifier.isPlaceholder e.
Proof.
  unfold LogbookVerifier.checkContent, Reading.contentOk.
  destruct (LogbookVerifier.isPlaceholder e); cbn.
  - now rewrite andb_true_r, orb_true_r.
  - destruct (String.eqb _ _); cbn;
      now rewrite ?andb_true_r, ?andb_false_r, ?orb_false_r.
Qed.

Lemma checkLink_flags f (p : option ExportEntry.t * ExportEntry.t) :
  LogbookVerifier.allValid
    (fst (LogbookVerifier.checkLink (hashContent "genesis") f (fst p) (snd p)))
  = LogbookVerifier.allValid f && Reading.linkOk p
  /\ LogbookVerifier.hasPlaceholders
       (fst (LogbookVerifier.checkLink (hashContent "genesis") f (fst p) (snd p)))
     = LogbookVerifier.hasPlaceholders f || false.
Proof.
  unfold LogbookVerifier.checkLink, Reading.linkOk.
  destruct p as [[prev|] e]; cbn [fst snd];
    destruct (LogbookVerifier.isPlaceholder e); cbn [orb fst];
    try (now rewrite andb_true_r, orb_false_r).
  - destruct (LogbookVerifier.isPlaceholder prev); cbn [orb fst];
      [now rewrite andb_true_r, orb_false_r|].
    destruct (String.eqb _ _); cbn;
      now rewrite ?andb_true_r, ?andb_false_r, ?orb_false_r.
  - destruct (String.eqb _ _); cbn;
      now rewrite ?andb_true_r, ?andb_false_r, ?orb_false_r.
Qed.

Lemma checkOnChain_flags f (p : ExportEntry.t * BaseEntry.t) :
  LogbookVerifier.allValid (fst (LogbookVerifier.checkOnChain f p))
  = LogbookVerifier.allValid f && Reading.onChainOk p
  /\ LogbookVerifier.hasPlaceholders (fst (LogbookVerifier.checkOnChain f p))
     = LogbookVerifier.hasPlaceholders f || false.
Proof.
  unfold LogbookVerifier.checkOnChain, Reading.onChainOk.
  destruct p as [local onChain]. cbn [fst snd].
  destruct (_ && _ && _); cbn;
    now rewrite ?andb_true_r, ?andb_false_r, ?orb_false_r.
Qed.

Lemma checkContract_flags anchorService data f :
  LogbookVerifier.allValid (fst (LogbookVerifier.checkContract anchorService data f))
  = LogbookVerifier.allValid f && Reading.ledgerOk anchorService data
  /\ LogbookVerifier.hasPlaceholders
       (fst (LogbookVerifier.checkContract anchorService data f))
     = LogbookVerifier.hasPlaceholders f.
Proof.
  unfold LogbookVerifier.checkContract, Reading.ledgerOk.
  destruct (AnchorService.getAllEntries _ _ _) as [onChain | m]; cbn.
  2:{ now rewrite andb_false_r. }
  destruct (Nat.eqb (length onChain) (length (ExportData.entries data))); cbn.
  - pose proof (loop_flags LogbookVerifier.checkOnChain Reading.onChainOk
                  (fun _ => false) checkOnChain_flags
                  (combine (ExportData.entries data) onChain) f) as [Hv Hp].
    destruct (LogbookVerifier.loop _ f _) as [f' lines]. cbn in Hv, Hp.
    assert (Hp' : LogbookVerifier.hasPlaceholders f' = LogbookVerifier.hasPlaceholders f).
    { rewrite Hp. clear. induction (combine _ _); cbn; [apply orb_false_r | assumption]. }
    destruct (AnchorService.validateChain _ _ _) as [v | m]; cbn.
    + destruct (ValidationResult.valid v); cbn; rewrite ?Hv, ?Hp';
        now rewrite ?andb_true_r, ?andb_false_r.
    + now rewrite ?andb_false_r.
  - destruct (AnchorService.validateChain _ _ _) as [v | m]; cbn.
    + destruct (ValidationResult.valid v); cbn; now rewrite ?andb_false_r.
    + now rewrite ?andb_false_r.
Qed.

(** The verdict in full: placeholders first, then the checks. *)
Lemma verdict (anchorService : AnchorService.t) (currentCodeHash : string)
      (proofs : string -> option (option string)) (data : ExportData.t) :
  exists r,
    LogbookVerifier.performVerification anchorService (Ok currentCodeHash) proofs data
    = Ok r
    /\ LogbookVerifier.final r =
       if existsb LogbookVerifier.isPlaceholder (ExportData.entries data)
       then LogbookVerifier.RECONSTRUCTED_LOGBOOK
       else if Reading.checksPass anchorService data
            then LogbookVerifier.VERIFICATION_PASSED
            else LogbookVerifier.VERIFICATION_FAILED.
Proof.
  unfold LogbookVerifier.performVerification, Reading.checksPass.
  pose proof (loop_flags LogbookVerifier.checkContent Reading.contentOk
                LogbookVerifier.isPlaceholder checkContent_flags
                (ExportData.entries data)
                {| LogbookVerifier.allValid := true;
                   LogbookVerifier.hasPlaceholders := false |}) as [Hv1 Hp1].
  destruct (LogbookVerifier.loop LogbookVerifier.checkContent _ _) as [f1 lines1].
  cbn in Hv1, Hp1.
  pose proof (loop_flags
                (fun f p => LogbookVerifier.checkLink (hashContent "genesis") f (fst p) (snd p))
                Reading.linkOk (fun _ => false) checkLink_flags
                (LogbookVerifier.withPrevious None (ExportData.entries data)) f1)
    as [Hv2 Hp2].
  destruct (LogbookVerifier.loop _ f1 _) as [f2 lines2]. cbn [fst] in Hv2, Hp2.
  pose proof (checkContract_flags anchorService data f2) as [Hv3 Hp3].
  destruct (LogbookVerifier.checkContract anchorService data f2) as [f3 lines3].
  cbn [fst] in Hv3, Hp3.
  eexists. split; [reflexivity|]. cbn [LogbookVerifier.final].
  assert (Hp2' : LogbookVerifier.hasPlaceholders f2 = LogbookVerifier.hasPlaceholders f1).
  { rewrite Hp2. clear.
    induction (LogbookVerifier.withPrevious _ _); cbn; [apply orb_false_r | assumption]. }
  rewrite Hp3, Hp2', Hp1, Hv3, Hv2, Hv1. reflexivity.
Qed.

End VerifierFacts.

(** C3, as the specification states it, fails.  An export of two entries
    with their genuine contents, correctly linked, is verified while the
    contract cannot be reached: the verdict is [VERIFICATION_FAILED]; there
    is no verdict for a verification that could not complete. *)
Lemma unreachable_ledger_reported_failed :
  exists r,
    LogbookVerifier.performVerification Fixtures.unreachable (Ok "code")
      Fixtures.noProofs Fixtures.exportAB = Ok r
    /\ LogbookVerifier.step1 r = [LogbookVerifier.CONTENT_VALID; LogbookVerifier.CONTENT_VALID]
    /\ LogbookVerifier.step2 r = [LogbookVerifier.LINKED; LogbookVerifier.LINKED]
    /\ LogbookVerifier.step3 r = LogbookVerifier.BLOCKCHAIN_FAILED "network error"
    /\ LogbookVerifier.final r = LogbookVerifier.VERIFICATION_FAILED.
Proof.
  eexists. split; [vm_compute; reflexivity|].
  repeat split.
Qed.

(** C3, amended.  A verification that reaches its end gives one of three
    verdicts.  When no entry is a Placeholder the verdict is
    [VERIFICATION_PASSED] if every content hash and every link passes and the
    contract answers, agrees with the export in count and at every index, and
    validates its chain, and [VERIFICATION_FAILED] otherwise, the contract
    that cannot be reached included.  When some entry is a Placeholder and
    all of these checks pass, the verdict is [RECONSTRUCTED_LOGBOOK]. *)
Theorem verdict_precedence
        (anchorService : AnchorService.t) (currentCodeHash : string)
        (proofs : string -> option (option string)) (data : ExportData.t) :
  exists r,
    LogbookVerifier.performVerification anchorService (Ok currentCodeHash) proofs data
    = Ok r
    /\ (existsb LogbookVerifier.isPlaceholder (ExportData.entries data) = false ->
        LogbookVerifier.final r =
        if Reading.checksPass anchorService data
        then LogbookVerifier.VERIFICATION_PASSED
        else LogbookVerifier.VERIFICATION_FAILED)
    /\ (existsb LogbookVerifier.isPlaceholder (ExportData.entries data) = false ->
        forall message,
          AnchorService.getAllEntries anchorService
            (ExportData.logbookName (ExportData.metadata data))
            (Some (ExportData.walletAddress (ExportData.metadata data)))
          = Throw message ->
          LogbookVerifier.final r = LogbookVerifier.VERIFICATION_FAILED)
    /\ (existsb LogbookVerifier.isPlaceholder (ExportData.entries data) = true ->
        Reading.checksPass anchorService data = true ->
        LogbookVerifier.final r = LogbookVerifier.RECONSTRUCTED_LOGBOOK).
Proof.
  destruct (VerifierFacts.verdict anchorService currentCodeHash proofs data)
    as (r & Hr & Hfinal).
  exists r. split; [exact Hr|]. rewrite Hfinal. repeat split.
  - intros ->. reflexivity.
  - intros -> message Hthrow. unfold Reading.checksPass, Reading.ledgerOk.
    rewrite Hthrow. now rewrite andb_false_r.
  - intros -> _. reflexivity.
Qed.

Lemma verdict_precedence_witness :
  (exists r,
      LogbookVerifier.performVerification Fixtures.contractAB (Ok "code")
        Fixtures.noProofs Fixtures.exportAB = Ok r
      /\ LogbookVerifier.final r = LogbookVerifier.VERIFICATION_PASSED)
  /\
  (exists r,
      LogbookVerifier.performVerification Fixtures.unreachable (Ok "code")
        Fixtures.noProofs Fixtures.exportAB = Ok r
      /\ LogbookVerifier.final r = LogbookVerifier.VERIFICATION_FAILED)
  /\
  (exists r,
      LogbookVerifier.performVerification Fixtures.contractAB (Ok "code")
        Fixtures.noProofs Fixtures.exportAplaceholderB = Ok r
      /\ LogbookVerifier.final r = LogbookVerifier.RECONSTRUCTED_LOGBOOK).
Proof.
  split; [|split].
  - destruct (verdict_precedence Fixtures.contractAB "code" Fixtures.noProofs
                Fixtures.exportAB) as (r & Hr & Hnone & _ & _).
    exists r. split; [exact Hr|].
    rewrite Hnone; vm_compute; reflexivity.
  - destruct (verdict_precedence Fixtures.unreachable "code" Fixtures.noProofs
                Fixtures.exportAB) as (r & Hr & _ & Hthrow & _).
    exists r. split; [exact Hr|].
    apply (Hthrow eq_refl "network error"). reflexivity.
  - destruct (verdict_precedence Fixtures.contractAB "code" Fixtures.noProofs
                Fixtures.exportAplaceholderB) as (r & Hr & _ & _ & Hsome).
    exists r. split; [exact Hr|].
    apply Hsome; vm_compute; reflexivity.
Defined.

(** Where an entry is a Placeholder the verdict does not look at the checks:
    the altered content of [A] is reported by step 1 and the verdict is still
    [RECONSTRUCTED_LOGBOOK]. *)
Example placeholders_hide_a_mismatch :
  exists r,
    LogbookVerifier.performVerification Fixtures.contractAB (Ok "code")
      Fixtures.noProofs Fixtures.exportTamperedAplaceholderB = Ok r
    /\ LogbookVerifier.step1 r =
       [LogbookVerifier.HASH_MISMATCH; LogbookVerifier.CONTENT_PLACEHOLDER]
    /\ LogbookVerifier.final r = LogbookVerifier.RECONSTRUCTED_LOGBOOK.
Proof.
  eexists. split; [vm_compute; reflexivity|].
  repeat split.
Qed.

Lemma validateChain_checks_every_content_witness :
  In (ContentHashMismatch "a" Fixtures.hashA (hashContent Fixtures.placeholderA))
     (ChainManager.errors (ChainManager.validateChain Fixtures.chainAB Fixtures.diskAB))
  /\ ChainManager.valid (ChainManager.validateChain Fixtures.chainAB Fixtures.diskAB)
     = false.
Proof.
  apply (proj2 (validateChain_checks_every_content Fixtures.chainAB Fixtures.diskAB)
               (LogbookReconstructor.rebuildEntry
                  [Fixtures.entryA; Fixtures.entryB] 0 Fixtures.entryA)
               Fixtures.placeholderA).
  - left. reflexivity.
  - vm_compute. reflexivity.
  - vm_compute. reflexivity.
  - vm_compute. discriminate.
Defined.

Lemma addEntry_validates_entryHash_witness :
  fst (ChainManager.addEntry "entry" "invalid-hash" Fixtures.txA 1700000000 1000
         Fixtures.fresh)
  = Throw Reading.entryHashError.
Proof.
  apply (addEntry_validates_entryHash "entry" "invalid-hash" Fixtures.txA
           1700000000 1000 Fixtures.fresh).
  reflexivity.
Defined.

(** * Further properties *)

(** ** Opening, saving and loading a logbook *)

Module StoreFacts.

Import ReconstructFacts.

(** What [opened] says of the disk. *)
Lemma opened_iff (cm : ChainManager.t) (fs : FileSystem) :
  Invariants.opened cm fs <->
  blank (ChainManager.logbookName cm) = false
  /\ ChainManager.logbookExists (ChainManager.logbookName cm) fs = true
  /\ chainFiles fs !! ChainManager.logbookName cm = Some (Document (ChainManager.data cm))
  /\ ChainData.logbookName (ChainManager.data cm) <> "".
Proof.
  unfold Invariants.opened. split.
  - destruct cm as [name d]. cbn [ChainManager.logbookName ChainManager.data].
    unfold ChainManager.new, ChainManager.ensureLogbookDirectory,
      ChainManager.loadOrCreateChain, ChainManager.saveChainData, mkdirSync,
      writeChainFile, ChainManager.logbookExists.
    destruct (blank name); [discriminate|]. run.
    destruct (bool_decide (name ∈ logbookDirs fs)) eqn:Hex; cbn.
    + destruct (chainFiles fs !! name) as [[m | | d0]|] eqn:Hfile; cbn; try discriminate.
      * destruct (String.eqb_spec (ChainData.logbookName d0) ""); cbn; [discriminate|].
        intros [= ->]. auto.
      * destruct (writeError fs); cbn; [discriminate|].
        intros [= _ Hfs]. exfalso.
        assert (Hl : chainFiles fs !! name
                     = Some (Document {| ChainData.logbookName := name;
                                         ChainData.entries := [] |})).
        { rewrite <- Hfs at 1. cbn. apply lookup_insert_eq. }
        congruence.
    + destruct (writeError fs); cbn; [discriminate|].
      apply bool_decide_eq_false in Hex.
      destruct (chainFiles fs !! name) as [[m | | d0]|]; cbn; try discriminate.
      * destruct (String.eqb (ChainData.logbookName d0) ""); cbn; [discriminate|].
        intros [= _ Hfs]. exfalso. apply Hex. rewrite <- Hfs. cbn. set_solver.
      * intros [= _ Hfs]. exfalso. apply Hex. rewrite <- Hfs. cbn. set_solver.
  - intros (Hb & Hex & Hfile & Hname). destruct cm as [name d]. cbn in *.
    now apply new_loaded.
Qed.

(** What a successful opening returns and leaves. *)
Lemma new_opens (logbook : string) (fs fs' : FileSystem) (cm : ChainManager.t) :
  ChainManager.new logbook fs = (Ok cm, fs') ->
  ChainManager.logbookName cm = logbook /\ Invariants.opened cm fs'.
Proof.
  intros Hnew. destruct (new_ok _ _ _ _ Hnew) as (Hb & Hex & Hname & _).
  split; [exact Hname|]. apply opened_iff. rewrite Hname.
  split; [exact Hb|]. split; [exact Hex|].
  revert Hnew.
  unfold ChainManager.new, ChainManager.ensureLogbookDirectory,
    ChainManager.loadOrCreateChain, ChainManager.saveChainData, mkdirSync,
    writeChainFile, ChainManager.logbookExists.
  rewrite Hb. run.
  destruct (bool_decide (logbook ∈ logbookDirs fs)); cbn.
  - destruct (chainFiles fs !! logbook) as [[m | | d]|] eqn:Hfile; cbn; try discriminate.
    + destruct (String.eqb_spec (ChainData.logbookName d) ""); cbn; [discriminate|].
      intros [= <- <-]. cbn. auto.
    + destruct (writeError fs); cbn; [discriminate|].
      intros [= <- <-]. cbn. split; [apply lookup_insert_eq|].
      now apply blank_nonempty.
  - destruct (writeError fs); cbn; [discriminate|].
    destruct (chainFiles fs !! logbook) as [[m | | d]|] eqn:Hfile; cbn; try discriminate.
    + destruct (String.eqb_spec (ChainData.logbookName d) ""); cbn; [discriminate|].
      intros [= <- <-]. cbn. auto.
    + intros [= <- <-]. cbn. split; [apply lookup_insert_eq|].
      now apply blank_nonempty.
Qed.

(** Opening never rewrites a [chain.json] that is there, nor an entry file. *)
Lemma new_keeps_files (logbook : string) (fs : FileSystem) (c : chain_json) :
  chainFiles fs !! logbook = Some c ->
  chainFiles (snd (ChainManager.new logbook fs)) = chainFiles fs
  /\ entryFiles (snd (ChainManager.new logbook fs)) = entryFiles fs.
Proof.
  intros Hfile.
  unfold ChainManager.new, ChainManager.ensureLogbookDirectory,
    ChainManager.loadOrCreateChain, ChainManager.saveChainData, mkdirSync,
    writeChainFile, ChainManager.logbookExists.
  destruct (blank logbook); [auto|]. run.
  destruct (bool_decide (logbook ∈ logbookDirs fs)); cbn.
  - rewrite Hfile. destruct c as [m | | d]; cbn; auto.
    destruct (String.eqb (ChainData.logbookName d) ""); cbn; auto.
  - destruct (writeError fs); cbn; [auto|]. rewrite Hfile.
    destruct c as [m | | d]; cbn; auto.
    destruct (String.eqb (ChainData.logbookName d) ""); cbn; auto.
Qed.

End StoreFacts.


(** ** Appending to a chain *)

Module ChainFacts.

(** What a successful [addEntry] was given, returns and leaves. *)
Lemma addEntry_ok name entryHash txHash timestamp blockNumber
      (cm cm' : ChainManager.t) (fs fs' : FileSystem) (entry : ChainEntry.t) :
  ChainManager.addEntry name entryHash txHash timestamp blockNumber (cm, fs)
  = (Ok entry, (cm', fs')) ->
  let es := ChainManager.getEntries cm in
  writeError fs = None
  /\ entry = {| ChainEntry.name := name;
                ChainEntry.entryHash := entryHash;
                ChainEntry.previousHash := ChainManager.lastEntryHash es;
                ChainEntry.txHash := txHash;
                ChainEntry.timestamp := timestamp;
                ChainEntry.blockNumber := blockNumber;
                ChainEntry.merkleRoot :=
                  getMerkleRoot
                    (createMerkleTree (map ChainEntry.entryHash es ++ [entryHash])) |}
  /\ ChainManager.logbookName cm' = ChainManager.logbookName cm
  /\ ChainData.logbookName (ChainManager.data cm')
     = ChainData.logbookName (ChainManager.data cm)
  /\ ChainManager.getEntries cm' = es ++ [entry]
  /\ logbookDirs fs' = logbookDirs fs
  /\ chainFiles fs'
     = <[ChainManager.logbookName cm := Document (ChainManager.data cm')]> (chainFiles fs)
  /\ entryFiles fs' = entryFiles fs
  /\ writeError fs' = None.
Proof.
  intros Hadd es.
  destruct (Reading.rejected entryHash txHash timestamp blockNumber) as [message|] eqn:R.
  - rewrite (AddEntryFacts.addEntry_rejected _ _ _ _ _ _ _ R) in Hadd. discriminate.
  - rewrite (AddEntryFacts.addEntry_accepted _ _ _ _ _ _ R) in Hadd. cbn [fst snd] in Hadd.
    destruct (writeError fs) eqn:Hw; [discriminate|].
    injection Hadd as <- <- <-. cbn. repeat split; reflexivity.
Qed.

Lemma linked_snoc (es : list ChainEntry.t) (e : ChainEntry.t) :
  Reading.linked es ->
  (forall l, last es = Some l -> ChainEntry.previousHash e = ChainEntry.entryHash l) ->
  Reading.linked (es ++ [e]).
Proof.
  intros Hl He i prev curr Hp Hc.
  destruct (decide (S i < length es)%nat) as [Hlt | Hge].
  - rewrite lookup_app_l in Hp by lia. rewrite lookup_app_l in Hc by lia.
    exact (Hl i prev curr Hp Hc).
  - assert (Hi : S i = length es).
    { apply lookup_lt_Some in Hc. rewrite length_app in Hc. cbn in Hc. lia. }
    rewrite lookup_app_l in Hp by lia.
    rewrite lookup_app_r in Hc by lia.
    replace (S i - length es)%nat with 0%nat in Hc by lia.
    injection Hc as <-. apply He.
    rewrite last_lookup. rewrite <- Hi. exact Hp.
Qed.

Lemma genesisFirst_snoc (es : list ChainEntry.t) (e : ChainEntry.t) :
  Invariants.genesisFirst es ->
  (es = [] -> ChainEntry.previousHash e = GENESIS_HASH) ->
  Invariants.genesisFirst (es ++ [e]).
Proof.
  intros Hg He first. destruct es as [|e0 es']; cbn.
  - intros [= <-]. now apply He.
  - intros [= <-]. now apply Hg.
Qed.

Lemma lastEntryHash_last (es : list ChainEntry.t) (l : ChainEntry.t) :
  last es = Some l -> ChainManager.lastEntryHash es = ChainEntry.entryHash l.
Proof. unfold ChainManager.lastEntryHash. now intros ->. Qed.

Lemma committed_snoc (es : list ChainEntry.t) (e : ChainEntry.t) :
  Invariants.committed es ->
  ChainEntry.merkleRoot e =
    getMerkleRoot (createMerkleTree (map ChainEntry.entryHash (es ++ [e]))) ->
  Invariants.committed (es ++ [e]).
Proof.
  intros Hc He i x Hi.
  destruct (decide (i < length es)%nat) as [Hlt | Hge].
  - rewrite lookup_app_l in Hi by lia.
    rewrite take_app_le by lia. now apply Hc.
  - assert (Hlen : i = length es).
    { apply lookup_lt_Some in Hi. rewrite length_app in Hi. cbn in Hi. lia. }
    rewrite lookup_app_r in Hi by lia.
    replace (i - length es)%nat with 0%nat in Hi by lia.
    injection Hi as <-.
    rewrite take_ge by (rewrite length_app; cbn; lia). exact He.
Qed.

(** The proof functions of [merkle.ts] agree on every leaf of the tree. *)
Lemma proof_of_leaf_verifies (leaves : list string) (leaf : string) :
  In leaf leaves ->
  verifyMerkleProof (getMerkleProof (createMerkleTree leaves) leaf) leaf
    (getMerkleRoot (createMerkleTree leaves)) = true.
Proof.
  intros Hin. unfold verifyMerkleProof, getMerkleProof, getMerkleRoot.
  rewrite BufferFacts.slice2_0x, BufferFacts.from_hex_toString_hex, List.map_map.
  erewrite List.map_ext; [rewrite List.map_id|].
  - apply (MerkleFacts.getProof_verifies (fun b => hashLeaf (Buf b))).
    now apply (in_map (fun l => hashLeaf (Str l))).
  - intros p. cbn beta. rewrite BufferFacts.slice2_0x.
    apply BufferFacts.from_hex_toString_hex.
Qed.

End ChainFacts.

(** X1. A logbook that opens opens again to the same object, and the second
    opening writes nothing. *)
Theorem new_twice (logbook : string) (fs fs' : FileSystem) (cm : ChainManager.t) :
  ChainManager.new logbook fs = (Ok cm, fs') ->
  ChainManager.new logbook fs' = (Ok cm, fs').
Proof.
  intros Hnew. destruct (StoreFacts.new_opens _ _ _ _ Hnew) as [Hname Hopen].
  unfold Invariants.opened in Hopen. now rewrite Hname in Hopen.
Qed.

Lemma new_twice_witness :
  ChainManager.new "lb" Fixtures.diskAB = (Ok Fixtures.chainAB, Fixtures.diskAB).
Proof.
  apply (new_twice "lb" Fixtures.diskAB Fixtures.diskAB Fixtures.chainAB).
  vm_compute. reflexivity.
Defined.

(** X2. Opening never rewrites a [chain.json] that exists, nor any entry file,
    whether it succeeds or throws; and a [chain.json] that does not parse, is
    not a chain document, or has an empty [logbookName] makes it throw. *)
Theorem new_keeps_existing_chain (logbook : string) (fs : FileSystem) (c : chain_json) :
  chainFiles fs !! logbook = Some c ->
  chainFiles (snd (ChainManager.new logbook fs)) = chainFiles fs
  /\ entryFiles (snd (ChainManager.new logbook fs)) = entryFiles fs
  /\ ((forall d, c = Document d -> ChainData.logbookName d = "") ->
      exists message, fst (ChainManager.new logbook fs) = Throw message).
Proof.
  intros Hfile.
  destruct (StoreFacts.new_keeps_files logbook fs c Hfile) as [Hc He].
  split; [exact Hc|]. split; [exact He|].
  intros Hbad.
  destruct (ChainManager.new logbook fs) as [[cm | m] fs'] eqn:Hnew; [|eauto].
  exfalso.
  destruct (StoreFacts.new_opens _ _ _ _ Hnew) as [Hname Hopen].
  apply StoreFacts.opened_iff in Hopen. destruct Hopen as (_ & _ & Hfile' & Hne).
  cbn [snd] in Hc. rewrite Hname, Hc, Hfile in Hfile'. injection Hfile' as ->.
  apply Hne. now apply Hbad.
Qed.

Lemma new_keeps_existing_chain_witness :
  chainFiles (snd (ChainManager.new "lb" Samples.corrupt)) = chainFiles Samples.corrupt
  /\ entryFiles (snd (ChainManager.new "lb" Samples.corrupt)) = entryFiles Samples.corrupt
  /\ exists message, fst (ChainManager.new "lb" Samples.corrupt) = Throw message.
Proof.
  destruct (new_keeps_existing_chain "lb" Samples.corrupt
              (SyntaxError "Unexpected end of JSON input") eq_refl)
    as (Hc & He & Hthrow).
  split; [exact Hc|]. split; [exact He|].
  apply Hthrow. intros d [=].
Defined.

(** X3. After a successful [addEntry] on an open logbook, opening the logbook
    again loads exactly what the object holds, the new entry included. *)
Theorem addEntry_then_reopen
        name entryHash txHash timestamp blockNumber
        (cm cm' : ChainManager.t) (fs fs' : FileSystem) (entry : ChainEntry.t) :
  ChainManager.new (ChainManager.logbookName cm) fs = (Ok cm, fs) ->
  ChainManager.addEntry name entryHash txHash timestamp blockNumber (cm, fs)
  = (Ok entry, (cm', fs')) ->
  ChainManager.new (ChainManager.logbookName cm) fs' = (Ok cm', fs')
  /\ ChainManager.getLastEntry cm' = Some entry.
Proof.
  intros Hopen Hadd.
  apply StoreFacts.opened_iff in Hopen. destruct Hopen as (Hb & Hex & Hfile & Hne).
  destruct (ChainFacts.addEntry_ok _ _ _ _ _ _ _ _ _ _ Hadd)
    as (_ & _ & Hname & Hdname & Hes & Hdirs & Hchains & _ & _).
  split.
  - rewrite <- Hname. apply StoreFacts.opened_iff. rewrite Hname.
    split; [exact Hb|]. split.
    + unfold ChainManager.logbookExists in *. now rewrite Hdirs.
    + split; [rewrite Hchains; apply lookup_insert_eq | now rewrite Hdname].
  - unfold ChainManager.getLastEntry. unfold ChainManager.getEntries in Hes.
    rewrite Hes. apply last_snoc.
Qed.

Lemma addEntry_then_reopen_witness :
  ChainManager.new "test-logbook" (snd (snd Samples.first))
  = (Ok (fst (snd Samples.first)), snd (snd Samples.first)).
Proof.
  destruct Samples.first as [[entry | message] [cm' fs']] eqn:Hfirst;
    [|discriminate Hfirst].
  apply (addEntry_then_reopen "0001_a" Fixtures.hashA Fixtures.txA 1700000000 1000
           (fst Samples.opened) cm' (snd Samples.opened) fs' entry).
  - vm_compute. reflexivity.
  - transitivity Samples.first; [vm_compute; reflexivity | exact Hfirst].
Defined.

(** X4. When the write of [chain.json] fails, [addEntry] throws
    "Failed to save chain data", the disk is as it was, and the object
    already holds the new entry: memory and disk then differ by that entry. *)
Theorem addEntry_save_failure
        name entryHash txHash timestamp blockNumber
        (cm : ChainManager.t) (fs : FileSystem) (message : string) :
  match_0x_hex entryHash = true -> match_0x_hex64 txHash = true ->
  0 <= timestamp -> 0 <= blockNumber -> writeError fs = Some message ->
  exists cm' entry,
    ChainManager.addEntry name entryHash txHash timestamp blockNumber (cm, fs)
    = (Throw ("Failed to save chain data: " +:+ message), (cm', fs))
    /\ ChainManager.getEntries cm' = ChainManager.getEntries cm ++ [entry]
    /\ ChainEntry.name entry = name
    /\ ChainEntry.entryHash entry = entryHash.
Proof.
  intros H1 H2 H3 H4 Hw.
  assert (R : Reading.rejected entryHash txHash timestamp blockNumber = None).
  { unfold Reading.rejected. rewrite H1, H2. simpl.
    destruct (Z.ltb_spec timestamp 0); [lia|].
    destruct (Z.ltb_spec blockNumber 0); [lia|]. reflexivity. }
  rewrite (AddEntryFacts.addEntry_accepted name _ _ _ _ (cm, fs) R).
  cbn [fst snd]. rewrite Hw.
  eexists. eexists. split; [reflexivity|]. cbn. auto.
Qed.

Lemma addEntry_save_failure_witness :
  exists cm' entry,
    ChainManager.addEntry "entry" Fixtures.hash1 Fixtures.txA 1700000000 1000
      (Fixtures.emptyChain "test-logbook", Samples.readOnly)
    = (Throw "Failed to save chain data: EROFS: read-only file system",
       (cm', Samples.readOnly))
    /\ ChainManager.getEntries cm'
       = ChainManager.getEntries (Fixtures.emptyChain "test-logbook") ++ [entry]
    /\ ChainEntry.name entry = "entry"
    /\ ChainEntry.entryHash entry = Fixtures.hash1.
Proof.
  apply (addEntry_save_failure "entry" Fixtures.hash1 Fixtures.txA 1700000000 1000
           (Fixtures.emptyChain "test-logbook") Samples.readOnly
           "EROFS: read-only file system");
    try reflexivity; lia.
Defined.

(** X5. [addEntry] keeps the linkage of a chain: if the first entry names
    the genesis hash and every entry names the hash of the one before it,
    the same holds once the new entry is appended. *)
Theorem addEntry_keeps_linkage
        name entryHash txHash timestamp blockNumber
        (cm cm' : ChainManager.t) (fs fs' : FileSystem) (entry : ChainEntry.t) :
  Invariants.genesisFirst (ChainManager.getEntries cm) ->
  Reading.linked (ChainManager.getEntries cm) ->
  ChainManager.addEntry name entryHash txHash timestamp blockNumber (cm, fs)
  = (Ok entry, (cm', fs')) ->
  Invariants.genesisFirst (ChainManager.getEntries cm')
  /\ Reading.linked (ChainManager.getEntries cm').
Proof.
  intros Hg Hl Hadd.
  destruct (ChainFacts.addEntry_ok _ _ _ _ _ _ _ _ _ _ Hadd)
    as (_ & He & _ & _ & Hes & _).
  rewrite Hes. split.
  - apply ChainFacts.genesisFirst_snoc; [exact Hg|].
    intros Hnil. rewrite He. cbn [ChainEntry.previousHash].
    now rewrite Hnil.
  - apply ChainFacts.linked_snoc; [exact Hl|].
    intros l Hlast. rewrite He. cbn [ChainEntry.previousHash].
    now apply ChainFacts.lastEntryHash_last.
Qed.

Lemma addEntry_keeps_linkage_witness :
  Invariants.genesisFirst (ChainManager.getEntries (fst (snd Fixtures.second)))
  /\ Reading.linked (ChainManager.getEntries (fst (snd Fixtures.second))).
Proof.
  destruct Fixtures.second as [[entry | message] [cm' fs']] eqn:Hsecond;
    [|discriminate Hsecond].
  apply (addEntry_keeps_linkage "entry-2" Fixtures.hash2 Fixtures.txA 1700000010 1001
           (fst Fixtures.afterFirst) cm' (snd Fixtures.afterFirst) fs' entry).
  - intros first [= <-]. vm_compute. reflexivity.
  - intros [|i] prev curr Hp Hc; discriminate Hc.
  - transitivity Fixtures.second; [vm_compute; reflexivity | exact Hsecond].
Defined.


(** X7. Appending under the name of an existing entry and writing the new
    content to the shared [entry.txt] breaks the older entry, unless the
    content hashes to its entry hash: validation records a mismatch for it. *)
Theorem addEntry_same_name_breaks_older
        name content txHash timestamp blockNumber
        (cm cm' : ChainManager.t) (fs fs' fs'' : FileSystem)
        (older entry : ChainEntry.t) :
  In older (ChainManager.getEntries cm) ->
  ChainEntry.name older = name ->
  hashContent content <> ChainEntry.entryHash older ->
  ChainManager.addEntry name (hashContent content) txHash timestamp blockNumber (cm, fs)
  = (Ok entry, (cm', fs')) ->
  writeEntryFile (ChainManager.logbookName cm) name content fs' = (Ok tt, fs'') ->
  In (ContentHashMismatch name (ChainEntry.entryHash older) (hashContent content))
     (ChainManager.errors (ChainManager.validateChain cm' fs''))
  /\ ChainManager.valid (ChainManager.validateChain cm' fs'') = false.
Proof.
  intros Hin Hname Hne Hadd Hwrite.
  destruct (ChainFacts.addEntry_ok _ _ _ _ _ _ _ _ _ _ Hadd)
    as (_ & _ & Hlb & _ & Hes & _ & _ & _ & Hw).
  revert Hwrite. unfold writeEntryFile, bind, get, put, throw. rewrite Hw.
  intros [= <-].
  assert (Hin' : In older (ChainManager.getEntries cm')).
  { rewrite Hes. apply in_or_app. now left. }
  assert (Hfile : entryFiles
                    {| logbookDirs := logbookDirs fs';
                       chainFiles := chainFiles fs';
                       entryFiles :=
                         <[(ChainManager.logbookName cm, name) := Text content]>
                           (entryFiles fs');
                       writeError := None |}
                  !! (ChainManager.logbookName cm', ChainEntry.name older)
                  = Some (Text content)).
  { rewrite Hlb, Hname. cbn. apply lookup_insert_eq. }
  split.
  - rewrite <- Hname at 1.
    now apply ValidateFacts.mismatch_recorded.
  - match goal with |- ChainManager.valid ?r = false =>
      destruct (ChainManager.valid r) eqn:Hv; [|reflexivity] end.
    apply ValidateFacts.valid_iff_chainOk in Hv. destruct Hv as (_ & _ & Hc).
    destruct (Hc older Hin') as (c & Hfile' & Hhash).
    rewrite Hfile in Hfile'. injection Hfile' as <-. contradiction.
Qed.

(** X8. [addEntry] keeps the running commitment: if every entry's
    [merkleRoot] is the Merkle root of the entry hashes up to it, so it is
    after the call; and the proof of every entry hash of the chain, the new
    one included, verifies against the [merkleRoot] of the new entry. *)
Theorem addEntry_commits
        name entryHash txHash timestamp blockNumber
        (cm cm' : ChainManager.t) (fs fs' : FileSystem) (entry : ChainEntry.t) :
  Invariants.committed (ChainManager.getEntries cm) ->
  ChainManager.addEntry name entryHash txHash timestamp blockNumber (cm, fs)
  = (Ok entry, (cm', fs')) ->
  Invariants.committed (ChainManager.getEntries cm')
  /\ forall e,
      In e (ChainManager.getEntries cm') ->
      verifyMerkleProof
        (getMerkleProof
           (createMerkleTree (map ChainEntry.entryHash (ChainManager.getEntries cm')))
           (ChainEntry.entryHash e))
        (ChainEntry.entryHash e) (ChainEntry.merkleRoot entry) = true.
Proof.
  intros Hc Hadd.
  destruct (ChainFacts.addEntry_ok _ _ _ _ _ _ _ _ _ _ Hadd)
    as (_ & He & _ & _ & Hes & _).
  assert (Hroot : ChainEntry.merkleRoot entry =
                  getMerkleRoot
                    (createMerkleTree
                       (map ChainEntry.entryHash (ChainManager.getEntries cm')))).
  { rewrite Hes, List.map_app. rewrite He at 1. cbn. now rewrite He. }
  split.
  - rewrite Hes. apply ChainFacts.committed_snoc; [exact Hc|].
    rewrite <- Hes. exact Hroot.
  - intros e Hin. rewrite Hroot.
    apply ChainFacts.proof_of_leaf_verifies.
    now apply (in_map ChainEntry.entryHash).
Qed.

Lemma addEntry_commits_witness :
  Invariants.committed (ChainManager.getEntries (fst (snd Samples.first))).
Proof.
  destruct Samples.first as [[entry | message] [cm' fs']] eqn:Hfirst;
    [|discriminate Hfirst].
  apply (addEntry_commits "0001_a" Fixtures.hashA Fixtures.txA 1700000000 1000
           (fst Samples.opened) cm' (snd Samples.opened) fs' entry).
  - intros i e Hi. destruct i; discriminate Hi.
  - transitivity Samples.first; [vm_compute; reflexivity | exact Hfirst].
Defined.


Lemma addEntry_same_name_breaks_older_witness :
  ChainManager.valid
    (ChainManager.validateChain (fst (snd Samples.again)) (snd Samples.againWritten))
  = false.
Proof.
  destruct Samples.first as [[older | message] [cm fs0]] eqn:Hfirst;
    [|discriminate Hfirst].
  destruct Samples.again as [[entry | message] [cm' fs']] eqn:Hagain;
    [|discriminate Hagain].
  apply (addEntry_same_name_breaks_older "0001_a" "B" Fixtures.txA 1700000010 1001
           cm cm' (snd Samples.firstWritten) fs' (snd Samples.againWritten)
           older entry).
  - injection Hfirst as <- <- <-. left. reflexivity.
  - injection Hfirst as <- <- <-. reflexivity.
  - injection Hfirst as <- <- <-. vm_compute. discriminate.
  - injection Hfirst as <- <- <-.
    transitivity Samples.again; [vm_compute; reflexivity | exact Hagain].
  - injection Hfirst as <- <- <-. injection Hagain as <- <- <-.
    vm_compute. reflexivity.
Defined.

(** X9. [clear] on an open logbook whose disk accepts the write empties the
    chain in memory and in [chain.json], so that the logbook opens again
    empty and validates; the entry files stay on the disk. *)
Theorem clear_empties_chain (cm : ChainManager.t) (fs : FileSystem) :
  ChainManager.new (ChainManager.logbookName cm) fs = (Ok cm, fs) ->
  writeError fs = None ->
  exists cm' fs',
    ChainManager.clear (cm, fs) = (Ok tt, (cm', fs'))
    /\ ChainManager.getEntries cm' = []
    /\ ChainManager.new (ChainManager.logbookName cm) fs' = (Ok cm', fs')
    /\ ChainManager.valid (ChainManager.validateChain cm' fs') = true
    /\ entryFiles fs' = entryFiles fs.
Proof.
  intros Hopen Hw.
  apply StoreFacts.opened_iff in Hopen. destruct Hopen as (Hb & Hex & Hfile & Hne).
  unfold ChainManager.clear, ChainManager.this, ChainManager.setData, ChainManager.save,
    ChainManager.onDisk, ChainManager.saveChainData, writeChainFile, try_catch,
    bind, get, put, throw, ret.
  cbn. rewrite Hw. eexists. eexists. split; [reflexivity|].
  split; [reflexivity|]. split; [|split; reflexivity].
  apply (ReconstructFacts.new_loaded (ChainManager.logbookName cm)); cbn.
  - exact Hb.
  - exact Hex.
  - apply lookup_insert_eq.
  - now apply ReconstructFacts.blank_nonempty.
Qed.

Lemma clear_empties_chain_witness :
  exists cm' fs',
    ChainManager.clear (Fixtures.chainAB, Fixtures.diskAB) = (Ok tt, (cm', fs'))
    /\ ChainManager.getEntries cm' = []
    /\ ChainManager.new "lb" fs' = (Ok cm', fs')
    /\ ChainManager.valid (ChainManager.validateChain cm' fs') = true
    /\ entryFiles fs' = entryFiles Fixtures.diskAB.
Proof.
  apply (clear_empties_chain Fixtures.chainAB Fixtures.diskAB).
  - vm_compute. reflexivity.
  - reflexivity.
Defined.

(** ** The report of [validateChain] *)

Module ReportFacts.

Lemma in_linkErrors (rest : list ChainEntry.t) :
  forall (k : nat) (prev : ChainEntry.t) (i : nat) (expected got : string),
    In (ChainBroken i expected got) (ChainManager.linkErrors k prev rest) <->
    exists j p c,
      i = (k + j)%nat
      /\ (prev :: rest) !! j = Some p /\ (prev :: rest) !! S j = Some c
      /\ expected = ChainEntry.entryHash p /\ got = ChainEntry.previousHash c
      /\ got <> expected.
Proof.
  induction rest as [|curr rest IH]; intros k prev i expected got;
    cbn [ChainManager.linkErrors].
  - split; [intros [] | intros (j & p & c & _ & _ & Hc & _)].
    destruct j; discriminate Hc.
  - rewrite in_app_iff, IH. split.
    + intros [Hhere | (j & p & c & -> & Hp & Hc & He & Hg & Hne)].
      * destruct (String.eqb_spec (ChainEntry.previousHash curr)
                    (ChainEntry.entryHash prev)) as [Heq | Hneq]; [destruct Hhere|].
        destruct Hhere as [[= <- <- <-] | []].
        exists 0%nat, prev, curr. repeat split; auto; lia.
      * exists (S j), p, c. repeat split; auto; lia.
    + intros (j & p & c & -> & Hp & Hc & -> & -> & Hne).
      destruct j as [|j].
      * left. injection Hp as <-. injection Hc as <-.
        apply String.eqb_neq in Hne. rewrite Hne.
        left. f_equal. lia.
      * right. exists j, p, c. repeat split; auto; lia.
Qed.

Lemma in_contentErrors_broken (logbook : string) (fs : FileSystem) (e : ChainEntry.t)
      (i : nat) (expected got : string) :
  ~ In (ChainBroken i expected got) (ChainManager.contentErrors logbook fs e).
Proof.
  unfold ChainManager.contentErrors.
  destruct (entryFiles fs !! (logbook, ChainEntry.name e)) as [[m | content]|]; cbn.
  - intros [[=] | []].
  - destruct (String.eqb _ _); cbn; [tauto | intros [[=] | []]].
  - intros [[=] | []].
Qed.

End ReportFacts.

(** X10. The report names a broken link at index [i] with the two hashes
    exactly when [i] is at least 1 and the [previousHash] of the entry at [i]
    differs from the [entryHash] of the entry at [i - 1]: every broken link
    is reported, at its index, and nothing else is. *)
Theorem validateChain_reports_broken_links
        (cm : ChainManager.t) (fs : FileSystem) (i : nat) (expected got : string) :
  In (ChainBroken i expected got) (ChainManager.errors (ChainManager.validateChain cm fs))
  <->
  exists j prev curr,
    i = S j
    /\ ChainManager.getEntries cm !! j = Some prev
    /\ ChainManager.getEntries cm !! S j = Some curr
    /\ expected = ChainEntry.entryHash prev
    /\ got = ChainEntry.previousHash curr
    /\ got <> expected.
Proof.
  unfold ChainManager.validateChain, ChainManager.getEntries.
  destruct (ChainData.entries (ChainManager.data cm)) as [|first rest].
  - cbn. split; [intros [] | intros (j & p & c & _ & Hp & _); discriminate Hp].
  - cbn [ChainManager.errors]. rewrite !in_app_iff, ReportFacts.in_linkErrors.
    split.
    + intros [Hg | [Hlink | Hcontent]].
      * destruct (String.eqb _ _); [destruct Hg | destruct Hg as [[=] | []]].
      * destruct Hlink as (j & p & c & Hi & H). exists j, p, c. split; [lia | exact H].
      * apply in_flat_map in Hcontent. destruct Hcontent as (e & _ & He).
        now apply ReportFacts.in_contentErrors_broken in He.
    + intros (j & p & c & Hi & H). right. left. exists j, p, c. split; [lia | exact H].
Qed.

(** X11. The report names a missing entry file exactly for the entries of
    the chain whose [entry.txt] is not on the disk, and a content-hash
    mismatch, with the expected and the computed hash, exactly for the
    entries whose [entry.txt] hashes to something else than their
    [entryHash]. *)
Theorem validateChain_reports_files (cm : ChainManager.t) (fs : FileSystem) :
  (forall logbook n,
      In (EntryFileNotFound logbook n)
         (ChainManager.errors (ChainManager.validateChain cm fs))
      <-> logbook = ChainManager.logbookName cm
          /\ exists e, In e (ChainManager.getEntries cm)
                       /\ ChainEntry.name e = n
                       /\ entryFiles fs !! (logbook, n) = None)
  /\
  (forall n expected computed,
      In (ContentHashMismatch n expected computed)
         (ChainManager.errors (ChainManager.validateChain cm fs))
      <-> exists e content,
          In e (ChainManager.getEntries cm)
          /\ ChainEntry.name e = n
          /\ ChainEntry.entryHash e = expected
          /\ entryFiles fs !! (ChainManager.logbookName cm, n) = Some (Text content)
          /\ hashContent content = computed
          /\ computed <> expected).
Proof.
  assert (Hshape : forall x,
             In x (ChainManager.errors (ChainManager.validateChain cm fs)) ->
             (forall l n, x <> EntryFileNotFound l n)
             /\ (forall n a b, x <> ContentHashMismatch n a b)
             \/ exists e, In e (ChainManager.getEntries cm)
                          /\ In x (ChainManager.contentErrors
                                     (ChainManager.logbookName cm) fs e)).
  { unfold ChainManager.validateChain, ChainManager.getEntries.
    destruct (ChainData.entries (ChainManager.data cm)) as [|first rest];
      [intros x []|].
    cbn [ChainManager.errors]. intros x Hx.
    apply in_app_or in Hx. destruct Hx as [Hg | Hx].
    - left. destruct (String.eqb _ _); [destruct Hg|].
      destruct Hg as [<- | []]. split; discriminate.
    - apply in_app_or in Hx. destruct Hx as [Hl | Hc].
      + left. clear -Hl. revert Hl. generalize 1%nat as k. revert first.
        induction rest as [|c rest IH]; intros p k; cbn; [intros []|].
        intros Hl. apply in_app_or in Hl. destruct Hl as [Hh | Ht].
        * destruct (String.eqb _ _); [destruct Hh|].
          destruct Hh as [<- | []]. split; discriminate.
        * exact (IH _ _ Ht).
      + right. apply in_flat_map in Hc. exact Hc. }
  assert (Hback : forall e x,
             In e (ChainManager.getEntries cm) ->
             In x (ChainManager.contentErrors (ChainManager.logbookName cm) fs e) ->
             In x (ChainManager.errors (ChainManager.validateChain cm fs))).
  { unfold ChainManager.validateChain, ChainManager.getEntries.
    destruct (ChainData.entries (ChainManager.data cm)) as [|first rest];
      [intros e x []|].
    intros e x Hin Hx. cbn [ChainManager.errors].
    apply in_or_app. right. apply in_or_app. right.
    apply in_flat_map. exists e. auto. }
  split.
  - intros logbook n. split.
    + intros Hx. destruct (Hshape _ Hx) as [[Hno _] | (e & Hin & He)].
      * exfalso. exact (Hno logbook n eq_refl).
      * unfold ChainManager.contentErrors in He.
        destruct (entryFiles fs !! (ChainManager.logbookName cm, ChainEntry.name e))
          as [[m | content]|] eqn:Hfile.
        -- destruct He as [[=] | []].
        -- destruct (String.eqb _ _); [destruct He | destruct He as [[=] | []]].
        -- destruct He as [[= <- <-] | []]. split; [reflexivity|].
           exists e. auto.
    + intros (-> & e & Hin & <- & Hfile).
      apply (Hback e _ Hin). unfold ChainManager.contentErrors. rewrite Hfile.
      now left.
  - intros n expected computed. split.
    + intros Hx. destruct (Hshape _ Hx) as [[_ Hno] | (e & Hin & He)].
      * exfalso. exact (Hno n expected computed eq_refl).
      * unfold ChainManager.contentErrors in He.
        destruct (entryFiles fs !! (ChainManager.logbookName cm, ChainEntry.name e))
          as [[m | content]|] eqn:Hfile.
        -- destruct He as [[=] | []].
        -- destruct (String.eqb_spec (hashContent content) (ChainEntry.entryHash e))
             as [Heq | Hne]; [destruct He|].
           destruct He as [[= <- <- <-] | []].
           exists e, content. repeat split; auto.
        -- destruct He as [[=] | []].
    + intros (e & content & Hin & <- & <- & Hfile & <- & Hne).
      apply (Hback e _ Hin). unfold ChainManager.contentErrors. rewrite Hfile.
      apply String.eqb_neq in Hne. rewrite Hne. now left.
Qed.

(** ** Digests and their hexadecimal form *)

Module DigestFacts.

Lemma be_bytes_length (n : nat) (z : Z) : length (SHA256.be_bytes n z) = n.
Proof. induction n as [|n IH]; cbn; [reflexivity | now rewrite IH]. Qed.

Lemma round_length (s : list Z) (kw : Z * Z) : length (SHA256.round s kw) = length s.
Proof.
  unfold SHA256.round.
  destruct s as [|a [|b [|c [|d [|e [|f [|g [|h [|i s]]]]]]]]]; reflexivity.
Qed.

Lemma rounds_length (l : list (Z * Z)) :
  forall s, length (fold_left SHA256.round l s) = length s.
Proof.
  induction l as [|kw l IH]; intros s; cbn; [reflexivity|].
  now rewrite IH, round_length.
Qed.

Lemma compress_length (h : list Z) (block : list byte) :
  length (SHA256.compress h block) = length h.
Proof.
  unfold SHA256.compress.
  rewrite length_map, length_combine, rounds_length. lia.
Qed.

Lemma blocks_length (blocks : list (list byte)) :
  forall h, length (fold_left SHA256.compress blocks h) = length h.
Proof.
  induction blocks as [|b blocks IH]; intros h; cbn; [reflexivity|].
  now rewrite IH, compress_length.
Qed.

Lemma concat_be_bytes_length (h : list Z) :
  length (concat (map (SHA256.be_bytes 4) h)) = (4 * length h)%nat.
Proof.
  induction h as [|x h IH]; cbn [map concat]; [reflexivity|].
  rewrite length_app, be_bytes_length, IH. cbn [length]. lia.
Qed.

(** A digest has 32 bytes. *)
Lemma digest_length (msg : list byte) : length (SHA256.digest msg) = 32%nat.
Proof.
  unfold SHA256.digest. rewrite concat_be_bytes_length, blocks_length. reflexivity.
Qed.

Lemma hex_byte_digits (x : byte) :
  Buffer.is_hex (Buffer.nibble (Byte.to_N x / 16)) = true
  /\ Buffer.is_hex (Buffer.nibble (Byte.to_N x mod 16)) = true.
Proof. destruct x; vm_compute; auto. Qed.

Lemma toString_hex_length (b : Buffer.t) :
  String.length (Buffer.toString_hex b) = (2 * length b)%nat.
Proof. induction b as [|x b IH]; cbn; [reflexivity | rewrite IH; lia]. Qed.

Lemma toString_hex_all_hex (b : Buffer.t) : all_hex (Buffer.toString_hex b) = true.
Proof.
  induction b as [|x b IH]; [reflexivity|].
  destruct (hex_byte_digits x) as [Hhi Hlo].
  unfold all_hex in *. cbn [Buffer.toString_hex list_ascii_of_string forallb].
  now rewrite Hhi, Hlo, IH.
Qed.

End DigestFacts.

(** X12. [hashContent] always returns "0x" followed by 64 hexadecimal
    digits, 66 characters in all: every hash it makes passes the checks of
    [addEntry] on an entry hash and on a transaction hash. *)
Theorem hashContent_format (content : string) :
  String.length (hashContent content) = 66%nat
  /\ match_0x_hex64 (hashContent content) = true
  /\ match_0x_hex (hashContent content) = true.
Proof.
  unfold hashContent, ethers_sha256.
  set (digest := SHA256.digest (toUtf8Bytes content)).
  assert (Hlen : String.length (Buffer.toString_hex digest) = 64%nat).
  { rewrite DigestFacts.toString_hex_length. unfold digest.
    now rewrite DigestFacts.digest_length. }
  assert (Hhex := DigestFacts.toString_hex_all_hex digest).
  change ("0x" +:+ Buffer.toString_hex digest)
    with (String "0" (String "x" (Buffer.toString_hex digest))).
  cbn [String.length match_0x_hex64 match_0x_hex].
  rewrite Hlen, Hhex. repeat split.
  destruct (Buffer.toString_hex digest); [discriminate Hlen | reflexivity].
Qed.


(** ** The shape of a Merkle tree *)

Module TreeFacts.
Section WithHash.

Variable hashFn : Buffer.t -> Buffer.t.

Abbreviation hashPair := (MerkleTree.hashPair hashFn).
Abbreviation nextLayer := (MerkleTree.nextLayer hashFn).
Abbreviation createHashes := (MerkleTree.createHashes hashFn).

(** A layer is at most half of the one below, rounded up. *)
Lemma nextLayer_halves (nodes : list Buffer.t) :
  (2 * length (nextLayer nodes) <= S (length nodes))%nat.
Proof.
  induction nodes as [| x | x y l IH] using MerkleFacts.pair_ind; cbn in *; lia.
Qed.

(** The proof of a position of a tree of at most [2 ^ k] leaves has at most
    [k] elements. *)
Lemma proofFrom_length (nodes : list Buffer.t) :
  forall (i k : nat),
    (i < length nodes)%nat -> (length nodes <= 2 ^ k)%nat ->
    (length (MerkleTree.proofFrom (createHashes nodes) i) <= k)%nat.
Proof.
  funelim (createHashes nodes); intros i k Hi Hk.
  - cbn in Hi. lia.
  - cbn in Hi. assert (i = 0%nat) as -> by lia. cbn. lia.
  - simp createHashes. cbn [MerkleTree.proofFrom]. rewrite length_app.
    destruct k as [|k]; [cbn in Hk; lia|].
    assert (Hs : (length (MerkleTree.sibling (x :: y :: rest) i) <= 1)%nat).
    { unfold MerkleTree.sibling. destruct (_ !! _); cbn; lia. }
    destruct (lookup_lt_is_Some_2 (x :: y :: rest) i Hi) as [h Hh].
    pose proof (MerkleFacts.nextLayer_lookup hashFn (x :: y :: rest) i h Hh) as Hup.
    apply lookup_lt_Some in Hup.
    pose proof (nextLayer_halves (x :: y :: rest)) as Hhalf.
    rewrite Nat.pow_succ_r' in Hk.
    cbn [MerkleTree.nextLayer length] in Hup, Hhalf, Hk.
    assert (Hle : (length (hashPair x y :: nextLayer rest) <= 2 ^ k)%nat)
      by (cbn [length]; lia).
    specialize (H (Nat.div2 i) k Hup Hle).
    change (nextLayer (x :: y :: rest)) with (hashPair x y :: nextLayer rest). lia.
Qed.

Lemma hashPair_comm (a b : Buffer.t) : hashPair a b = hashPair b a.
Proof.
  rewrite <- (MerkleFacts.verifyStep_left hashFn a b).
  apply (MerkleFacts.verifyStep_right hashFn b a).
Qed.

Lemma nextLayer_even_app (pre rest : list Buffer.t) :
  Nat.even (length pre) = true ->
  nextLayer (pre ++ rest) = nextLayer pre ++ nextLayer rest.
Proof.
  induction pre as [| x | x y l IH] using MerkleFacts.pair_ind; cbn; intros He.
  - reflexivity.
  - discriminate.
  - now rewrite IH.
Qed.

(** From two nodes on, the root of a list is the root of its next layer. *)
Lemma top_step (x y : Buffer.t) (rest : list Buffer.t) :
  MerkleTree.top (createHashes (x :: y :: rest))
  = MerkleTree.top (createHashes (nextLayer (x :: y :: rest))).
Proof.
  simp createHashes. apply MerkleFacts.top_cons, MerkleFacts.createHashes_nonempty.
Qed.

Lemma top_swap (pre rest : list Buffer.t) (a b : Buffer.t) :
  Nat.even (length pre) = true ->
  MerkleTree.top (createHashes (pre ++ a :: b :: rest))
  = MerkleTree.top (createHashes (pre ++ b :: a :: rest)).
Proof.
  intros He.
  assert (Hnext : nextLayer (pre ++ a :: b :: rest) = nextLayer (pre ++ b :: a :: rest)).
  { rewrite !nextLayer_even_app by exact He. cbn. now rewrite hashPair_comm. }
  destruct pre as [|x [|y pre]].
  - cbn [app]. rewrite !top_step. cbn [app] in Hnext. now rewrite Hnext.
  - discriminate.
  - cbn [app] in *. rewrite !top_step. now rewrite Hnext.
Qed.

End WithHash.
End TreeFacts.

(** X13. The Merkle root of a single leaf is the SHA-256 of the leaf string:
    for a one-entry logbook the root is [hashContent] of the entry hash. *)
Theorem merkle_root_of_one (leaf : string) :
  getMerkleRoot (createMerkleTree [leaf]) = hashContent leaf.
Proof.
  unfold getMerkleRoot, createMerkleTree, MerkleTree.new, MerkleTree.getRoot.
  cbn [map MerkleTree.layers]. simp createHashes.
  unfold MerkleTree.top. cbn [last]. unfold hashLeaf, hashContent, ethers_sha256.
  rewrite BufferFacts.slice2_0x, BufferFacts.from_hex_toString_hex.
  reflexivity.
Qed.

(** X14. A proof is short: for a tree of at most [2 ^ k] leaves,
    [getMerkleProof] returns at most [k] hashes, for any leaf. *)
Theorem merkle_proof_length (leaves : list string) (leaf : string) (k : nat) :
  (length leaves <= 2 ^ k)%nat ->
  (length (getMerkleProof (createMerkleTree leaves) leaf) <= k)%nat.
Proof.
  intros Hk. unfold getMerkleProof, createMerkleTree, MerkleTree.getProof, MerkleTree.new.
  cbn [MerkleTree.leaves MerkleTree.layers]. rewrite length_map.
  set (hashed := map (fun l => hashLeaf (Str l)) leaves).
  pose proof (MerkleFacts.leafIndex_found (hashLeaf (Str leaf)) hashed 0 None) as Hidx.
  destruct (MerkleTree.leafIndex _ hashed 0 None) as [j|]; [|cbn; lia].
  destruct Hidx as [[=] | (i & -> & Hi)].
  apply TreeFacts.proofFrom_length.
  - apply lookup_lt_Some in Hi. exact Hi.
  - unfold hashed. now rewrite length_map.
Qed.

Lemma merkle_proof_length_witness :
  (length (getMerkleProof (createMerkleTree ["hash1"; "hash2"; "hash3"]) "hash1") <= 2)%nat.
Proof.
  apply (merkle_proof_length ["hash1"; "hash2"; "hash3"] "hash1" 2). cbn. lia.
Defined.

(** X15. The two members of a pair can be swapped: exchanging the leaves at
    positions [2n] and [2n + 1] leaves the Merkle root as it was. *)
Theorem merkle_root_pair_swap (pre rest : list string) (a b : string) :
  Nat.even (length pre) = true ->
  getMerkleRoot (createMerkleTree (pre ++ a :: b :: rest))
  = getMerkleRoot (createMerkleTree (pre ++ b :: a :: rest)).
Proof.
  intros He. unfold getMerkleRoot, createMerkleTree, MerkleTree.new, MerkleTree.getRoot.
  cbn [MerkleTree.layers]. rewrite !List.map_app. cbn [map].
  rewrite (TreeFacts.top_swap _ (map (fun l => hashLeaf (Str l)) pre));
    [reflexivity | now rewrite length_map].
Qed.

Lemma merkle_root_pair_swap_witness :
  getMerkleRoot (createMerkleTree ["hash1"; "hash2"; "hash3"; "hash4"])
  = getMerkleRoot (createMerkleTree ["hash1"; "hash2"; "hash4"; "hash3"]).
Proof.
  apply (merkle_root_pair_swap ["hash1"; "hash2"] [] "hash3" "hash4"). reflexivity.
Defined.

(** X16. For a leaf whose hash is the hash of no leaf of the tree,
    [getMerkleProof] returns the empty proof. *)
Theorem merkle_proof_of_absent_leaf (leaves : list string) (leaf : string) :
  (forall l, In l leaves -> hashLeaf (Str l) <> hashLeaf (Str leaf)) ->
  getMerkleProof (createMerkleTree leaves) leaf = [].
Proof.
  intros Habsent. unfold getMerkleProof, createMerkleTree, MerkleTree.getProof,
    MerkleTree.new. cbn [MerkleTree.leaves MerkleTree.layers].
  set (hashed := map (fun l => hashLeaf (Str l)) leaves).
  pose proof (MerkleFacts.leafIndex_found (hashLeaf (Str leaf)) hashed 0 None) as Hidx.
  destruct (MerkleTree.leafIndex _ hashed 0 None) as [j|]; [|reflexivity].
  exfalso. destruct Hidx as [[=] | (i & _ & Hi)].
  apply list_elem_of_lookup_2 in Hi. apply list_elem_of_In in Hi.
  apply in_map_iff in Hi. destruct Hi as (l & Heq & Hin).
  exact (Habsent l Hin Heq).
Qed.

Lemma merkle_proof_of_absent_leaf_witness :
  getMerkleProof (createMerkleTree ["hash1"; "hash2"]) "absent" = [].
Proof.
  apply (merkle_proof_of_absent_leaf ["hash1"; "hash2"] "absent").
  intros l [<- | [<- | []]]; vm_compute; discriminate.
Defined.

(** ** The payload of the script hash *)

Module PayloadFacts.

Lemma includes_colon_cons (c : ascii) (s : string) :
  includes ":" (String c s) = false -> c <> ":"%char /\ includes ":" s = false.
Proof.
  cbn [includes String.prefix]. destruct (ascii_dec ":" c) as [<- | Hne].
  - destruct s; discriminate.
  - cbn. intros H. split; [congruence | exact H].
Qed.

Lemma append_nil (s : string) : "" +:+ s = s.
Proof. reflexivity. Qed.

Lemma append_cons (c : ascii) (s t : string) : String c s +:+ t = String c (s +:+ t).
Proof. reflexivity. Qed.

Lemma append_colon_inj (n1 : string) :
  forall n2 h1 h2 : string,
    includes ":" n1 = false -> includes ":" n2 = false ->
    n1 +:+ ":" +:+ h1 = n2 +:+ ":" +:+ h2 -> n1 = n2 /\ h1 = h2.
Proof.
  induction n1 as [|c n1 IH]; intros [|c2 n2] h1 h2 H1 H2 Heq;
    rewrite ?append_cons, ?append_nil in Heq.
  - injection Heq as ->. auto.
  - injection Heq as <- _. apply includes_colon_cons in H2. now destruct H2.
  - injection Heq as -> _. apply includes_colon_cons in H1. now destruct H1.
  - injection Heq as -> Heq.
    apply includes_colon_cons in H1 as [_ H1].
    apply includes_colon_cons in H2 as [_ H2].
    destruct (IH n2 h1 h2 H1 H2 Heq) as [-> ->]. auto.
Qed.

End PayloadFacts.

(** X17. The payload of the script hash determines the entry: two payloads
    built from names that hold no colon are equal only for the same name and
    the same hash. *)
Theorem buildPayload_injective (name1 name2 hash1 hash2 : string) :
  includes ":" name1 = false -> includes ":" name2 = false ->
  buildPayload name1 hash1 = buildPayload name2 hash2 ->
  name1 = name2 /\ hash1 = hash2.
Proof.
  intros H1 H2 Heq. unfold buildPayload in Heq.
  rewrite !PayloadFacts.append_cons, !PayloadFacts.append_nil in Heq.
  injection Heq as Heq.
  exact (PayloadFacts.append_colon_inj name1 name2 hash1 hash2 H1 H2 Heq).
Qed.

Lemma buildPayload_injective_witness :
  "0001_a" = "0001_a" /\ Fixtures.hashA = Fixtures.hashA.
Proof.
  apply (buildPayload_injective "0001_a" "0001_a" Fixtures.hashA Fixtures.hashA);
    reflexivity.
Defined.

(** A colon in a name lets two entries share a payload. *)
Example buildPayload_colon :
  buildPayload "a:b" "c" = buildPayload "a" "b:c".
Proof. reflexivity. Qed.

(** ** Synchronisation with the contract *)

(** X18. The result of [syncFromContract] is one of two shapes: success with
    no error, or failure with no entry and the one error "Sync failed: ..."
    of the query that threw; and entries are returned only for a logbook
    that the contract lists, as [getAllEntries] gave them. *)
Theorem syncFromContract_outcomes (anchorService : AnchorService.t) (logbookName : string) :
  let r := BlockchainSyncService.syncFromContract anchorService logbookName in
  (SyncResult.success r = true <-> SyncResult.errors r = [])
  /\ (SyncResult.success r = false ->
      SyncResult.entries r = []
      /\ exists message,
          SyncResult.errors r = ["Sync failed: " +:+ message]
          /\ (AnchorService.getLogbookNames anchorService = Throw message
              \/ AnchorService.getAllEntries anchorService logbookName None
                 = Throw message))
  /\ (SyncResult.entries r <> [] ->
      AnchorService.getAllEntries anchorService logbookName None
      = Ok (SyncResult.entries r)
      /\ exists names,
          AnchorService.getLogbookNames anchorService = Ok names
          /\ In logbookName names).
Proof.
  unfold BlockchainSyncService.syncFromContract.
  destruct (AnchorService.getLogbookNames anchorService) as [names | m] eqn:Hn.
  - destruct (existsb (String.eqb logbookName) names) eqn:Hex; cbn [negb].
    + destruct (AnchorService.getAllEntries anchorService logbookName None)
        as [es | m] eqn:He; cbn.
      * split; [tauto|]. split; [discriminate|]. intros _. split; [reflexivity|].
        exists names. split; [reflexivity|].
        apply existsb_exists in Hex. destruct Hex as (n & Hin & Heq).
        apply String.eqb_eq in Heq. now subst.
      * split; [split; discriminate|]. split; [|intros []; reflexivity].
        intros _. split; [reflexivity|]. exists m. auto.
    + cbn. split; [tauto|]. split; [discriminate|]. intros []. reflexivity.
  - cbn. split; [split; discriminate|]. split; [|intros []; reflexivity].
    intros _. split; [reflexivity|]. exists m. auto.
Qed.

(** ** Reading a logbook from the contract *)

Module BatchFacts.



End BatchFacts.



(** ** Reconstruction and the disk *)

Module DiskFacts.

Import ReconstructFacts.

(** Opening a logbook touches no entry file, whatever it returns. *)
Lemma new_entryFiles (logbook : string) (fs : FileSystem) :
  entryFiles (snd (ChainManager.new logbook fs)) = entryFiles fs.
Proof.
  unfold ChainManager.new, ChainManager.ensureLogbookDirectory,
    ChainManager.loadOrCreateChain, ChainManager.saveChainData, mkdirSync,
    writeChainFile, ChainManager.logbookExists.
  destruct (blank logbook); [reflexivity|]. run.
  destruct (bool_decide (logbook ∈ logbookDirs fs)); cbn.
  - destruct (chainFiles fs !! logbook) as [[m | | d]|]; cbn; try reflexivity.
    + destruct (String.eqb (ChainData.logbookName d) ""); reflexivity.
    + destruct (writeError fs); reflexivity.
  - destruct (writeError fs); cbn; [reflexivity|].
    destruct (chainFiles fs !! logbook) as [[m | | d]|]; cbn; try reflexivity.
    destruct (String.eqb (ChainData.logbookName d) ""); reflexivity.
Qed.

(** Opening a logbook whose directory exists and finding entries in it has
    written nothing. *)
Lemma new_nonempty (logbook : string) (fs fs' : FileSystem) (cm : ChainManager.t) :
  ChainManager.new logbook fs = (Ok cm, fs') ->
  ChainManager.logbookExists logbook fs = true ->
  ChainManager.getEntries cm <> [] ->
  fs' = fs.
Proof.
  unfold ChainManager.new, ChainManager.ensureLogbookDirectory,
    ChainManager.loadOrCreateChain, ChainManager.saveChainData, mkdirSync,
    writeChainFile.
  destruct (blank logbook); [discriminate|]. run.
  intros Hnew Hex. rewrite Hex in Hnew. cbn in Hnew. revert Hnew.
  destruct (chainFiles fs !! logbook) as [[m | | d]|]; cbn; try discriminate.
  - destruct (String.eqb (ChainData.logbookName d) ""); cbn; [discriminate|].
    now intros [= <- <-].
  - destruct (writeError fs); cbn; [discriminate|].
    intros [= <- <-] Hne. now contradiction Hne.
Qed.

Lemma check_entryFiles (anchorService : AnchorService.t) (logbookName : string)
      (fs : FileSystem) :
  entryFiles (snd (LogbookReconstructor.checkLocalIntegrity anchorService logbookName fs))
  = entryFiles fs.
Proof.
  unfold LogbookReconstructor.checkLocalIntegrity. run.
  destruct (negb _ || _); [reflexivity|].
  destruct (negb (ChainManager.logbookExists logbookName fs)); [reflexivity|].
  pose proof (new_entryFiles logbookName fs) as Hnew.
  destruct (ChainManager.new logbookName fs) as [[cm | m] fs1]; cbn in Hnew;
    [|exact Hnew].
  destruct (Nat.eqb _ 0); [exact Hnew|].
  destruct (existsb _ _); [exact Hnew|].
  destruct (last (ChainManager.getEntries cm)); [|exact Hnew].
  destruct (last _); exact Hnew.
Qed.

(** A check that asks for nothing has written nothing. *)
Lemma check_not_needed (anchorService : AnchorService.t) (logbookName : string)
      (fs fs' : FileSystem) (c : LogbookReconstructor.check) :
  LogbookReconstructor.checkLocalIntegrity anchorService logbookName fs = (Ok c, fs') ->
  LogbookReconstructor.needsReconstruction c = false ->
  fs' = fs.
Proof.
  unfold LogbookReconstructor.checkLocalIntegrity. run.
  destruct (negb _ || _); [now intros [= <- <-]|].
  destruct (ChainManager.logbookExists logbookName fs) eqn:Hex; cbn [negb].
  2:{ intros [= <- <-]. discriminate. }
  destruct (ChainManager.new logbookName fs) as [[cm | m] fs1] eqn:Hnew; [|discriminate].
  destruct (Nat.eqb (length (ChainManager.getEntries cm)) 0) eqn:Hlen.
  { intros [= <- <-]. discriminate. }
  assert (Hfs : fs1 = fs).
  { apply (new_nonempty _ _ _ _ Hnew Hex).
    intros Hnil. rewrite Hnil in Hlen. discriminate. }
  destruct (existsb _ _); [intros [= <- <-]; discriminate|].
  destruct (last (ChainManager.getEntries cm)); [|discriminate].
  destruct (last _); [|discriminate].
  now intros [= <- <-].
Qed.

(** The placeholder loop leaves every entry file that is there, whether it
    runs to its end or throws. *)
Lemma writePlaceholders_keeps (logbook : string) (entries : list BaseEntry.t) :
  forall (fs : FileSystem) (k : string * string) (f : entry_file),
    entryFiles fs !! k = Some f ->
    entryFiles (snd (LogbookReconstructor.writePlaceholders logbook entries fs)) !! k
    = Some f.
Proof.
  induction entries as [|e rest IH]; intros fs k f Hk; [exact Hk|].
  cbn [LogbookReconstructor.writePlaceholders]. unfold writeEntryFile, mkdirEntry. run.
  destruct (entryFiles fs !! (logbook, BaseEntry.name e)) as [f0|] eqn:Hf.
  - now apply IH.
  - destruct (writeError fs) eqn:Hw; cbn; [exact Hk|].
    destruct (LogbookReconstructor.placeholder e) as [text | m]; cbn; [|exact Hk].
    rewrite Hw. apply IH. cbn.
    rewrite lookup_insert_ne; [exact Hk|]. intros <-. congruence.
Qed.

End DiskFacts.

(** X20. [reconstruct] never replaces an entry file: every [entry.txt] that
    is on the disk before the run is there after it with the same content,
    whether the run rebuilds, finds nothing to do, or throws. *)
Theorem reconstruct_keeps_entry_files
        (anchorService : AnchorService.t) (logbookName : string) (fs : FileSystem)
        (k : string * string) (f : entry_file) :
  entryFiles fs !! k = Some f ->
  entryFiles (snd (LogbookReconstructor.reconstruct anchorService logbookName fs)) !! k
  = Some f.
Proof.
  intros Hk. unfold LogbookReconstructor.reconstruct. unfold bind at 1.
  pose proof (DiskFacts.check_entryFiles anchorService logbookName fs) as Hc.
  destruct (LogbookReconstructor.checkLocalIntegrity anchorService logbookName fs)
    as [[c | m] fs1]; cbn [snd] in Hc; [|cbn; now rewrite Hc].
  destruct (negb (LogbookReconstructor.needsReconstruction c)); [cbn; now rewrite Hc|].
  destruct (LogbookReconstructor.contractEntries c) as [entries|]; [|cbn; now rewrite Hc].
  destruct (Nat.eqb (length entries) 0); [cbn; now rewrite Hc|].
  unfold bind at 1.
  pose proof (DiskFacts.new_entryFiles logbookName fs1) as Hn.
  destruct (ChainManager.new logbookName fs1) as [[cm | m] fs2]; cbn [snd] in Hn;
    [|cbn; now rewrite Hn, Hc].
  unfold bind at 1. rewrite ReconstructFacts.call_reconstruct.
  destruct (writeError fs2); [cbn; now rewrite Hn, Hc|].
  unfold bind at 1. cbn zeta.
  match goal with
  | |- context [LogbookReconstructor.writePlaceholders logbookName entries ?d] =>
      set (fs3 := d)
  end.
  assert (Hw : entryFiles fs3 !! k = Some f) by (cbn; now rewrite Hn, Hc).
  apply (DiskFacts.writePlaceholders_keeps logbookName entries) in Hw.
  destruct (LogbookReconstructor.writePlaceholders logbookName entries fs3)
    as [[u | m] fs4]; exact Hw.
Qed.

Lemma reconstruct_keeps_entry_files_witness :
  entryFiles (snd (LogbookReconstructor.reconstruct Fixtures.contractAB "lb"
                     Samples.onlyA)) !! ("lb", "a")
  = Some (Text "A").
Proof.
  apply (reconstruct_keeps_entry_files Fixtures.contractAB "lb" Samples.onlyA
           ("lb", "a") (Text "A")).
  vm_compute. reflexivity.
Defined.

(** X21. A run of [reconstruct] that reports the logbook up to date has
    written nothing: the disk is the one it was given. *)
Theorem reconstruct_up_to_date_writes_nothing
        (anchorService : AnchorService.t) (logbookName : string) (fs fs' : FileSystem) :
  LogbookReconstructor.reconstruct anchorService logbookName fs
  = (Ok LogbookReconstructor.UpToDate, fs') ->
  fs' = fs.
Proof.
  unfold LogbookReconstructor.reconstruct. unfold bind at 1.
  destruct (LogbookReconstructor.checkLocalIntegrity anchorService logbookName fs)
    as [[c | m] fs1] eqn:Hc; [|discriminate].
  destruct (LogbookReconstructor.needsReconstruction c) eqn:Hneeds; cbn [negb].
  - destruct (LogbookReconstructor.contractEntries c) as [entries|]; [|discriminate].
    destruct (Nat.eqb (length entries) 0); [discriminate|].
    unfold bind at 1.
    destruct (ChainManager.new logbookName fs1) as [[cm | m] fs2]; [|discriminate].
    unfold bind at 1. rewrite ReconstructFacts.call_reconstruct.
    destruct (writeError fs2); [discriminate|].
    unfold bind at 1. cbn zeta.
    match goal with
    | |- context [LogbookReconstructor.writePlaceholders logbookName entries ?d] =>
        destruct (LogbookReconstructor.writePlaceholders logbookName entries d)
          as [[u | m] fs4]; [|discriminate]
    end.
    unfold bind, get, ret. discriminate.
  - intros [= <-]. exact (DiskFacts.check_not_needed _ _ _ _ _ Hc Hneeds).
Qed.

Lemma reconstruct_up_to_date_writes_nothing_witness :
  snd Samples.genuine = snd Samples.genuine.
Proof.
  apply (reconstruct_up_to_date_writes_nothing Fixtures.contractAB "lb"
           (snd Samples.genuine) (snd Samples.genuine)).
  vm_compute. reflexivity.
Defined.

(** ** The chain that reconstruction builds *)

Module RebuiltFacts.

Lemma lookup_map {A B} (g : A -> B) (l : list A) (i : nat) :
  map g l !! i = g <$> (l !! i).
Proof.
  revert i. induction l as [|a l IH]; intros [|i]; cbn; auto.
Qed.

Lemma map_take {A B} (g : A -> B) (l : list A) (n : nat) :
  map g (take n l) = take n (map g l).
Proof.
  revert n. induction l as [|a l IH]; intros [|n]; cbn; auto. now rewrite IH.
Qed.

Lemma map_imap {A B C} (g : B -> C) (h : A -> C) (l : list A) :
  forall f : nat -> A -> B,
    (forall i a, g (f i a) = h a) -> map g (imap f l) = map h l.
Proof.
  induction l as [|a l IH]; intros f Hf; cbn; [reflexivity|].
  rewrite Hf. f_equal. apply IH. intros i b. apply Hf.
Qed.

(** The rebuilt chain carries the entry hashes of the contract. *)
Lemma rebuilt_hashes (ledger : list BaseEntry.t) :
  map ChainEntry.entryHash (LogbookReconstructor.rebuildEntries ledger)
  = map BaseEntry.entryHash ledger.
Proof.
  unfold LogbookReconstructor.rebuildEntries. now apply map_imap.
Qed.

(** Two chains that keep the running commitment over the same entry hashes
    hold the same Merkle roots. *)
Lemma committed_roots (es1 es2 : list ChainEntry.t) :
  Invariants.committed es1 -> Invariants.committed es2 ->
  map ChainEntry.entryHash es1 = map ChainEntry.entryHash es2 ->
  map ChainEntry.merkleRoot es1 = map ChainEntry.merkleRoot es2.
Proof.
  intros H1 H2 Heq.
  assert (Hlen : length es1 = length es2).
  { rewrite <- (length_map ChainEntry.entryHash es1), Heq. apply length_map. }
  apply list_eq. intros i. rewrite !lookup_map.
  destruct (es1 !! i) as [e1|] eqn:E1, (es2 !! i) as [e2|] eqn:E2; cbn.
  - f_equal. rewrite (H1 i e1 E1), (H2 i e2 E2), !map_take, Heq. reflexivity.
  - apply lookup_lt_Some in E1. apply lookup_ge_None in E2. lia.
  - apply lookup_lt_Some in E2. apply lookup_ge_None in E1. lia.
  - reflexivity.
Qed.

End RebuiltFacts.

(** X22. The chain that [reconstruct] builds from the entries of the
    contract keeps the running commitment of [addEntry]: the [merkleRoot] of
    each entry is the Merkle root of the entry hashes up to it. Hence, for a
    local chain that kept the commitment and holds the entry hashes of the
    contract, reconstruction recovers every [merkleRoot] that was stored. *)
Theorem rebuildEntries_committed (ledger : list BaseEntry.t) :
  Invariants.committed (LogbookReconstructor.rebuildEntries ledger)
  /\ forall es : list ChainEntry.t,
      Invariants.committed es ->
      map ChainEntry.entryHash es = map BaseEntry.entryHash ledger ->
      map ChainEntry.merkleRoot (LogbookReconstructor.rebuildEntries ledger)
      = map ChainEntry.merkleRoot es.
Proof.
  assert (Hc : Invariants.committed (LogbookReconstructor.rebuildEntries ledger)).
  { intros i e Hi. rewrite RebuiltFacts.map_take, RebuiltFacts.rebuilt_hashes.
    unfold LogbookReconstructor.rebuildEntries in Hi.
    rewrite list_lookup_imap in Hi.
    destruct (ledger !! i) as [b|]; [|discriminate].
    injection Hi as <-. cbn. now rewrite RebuiltFacts.map_take. }
  split; [exact Hc|].
  intros es Hes Heq. apply RebuiltFacts.committed_roots; [exact Hc | exact Hes|].
  now rewrite RebuiltFacts.rebuilt_hashes.
Qed.

(** The chain of "a" and "b" that [addEntry] built and the chain that
    [reconstruct] builds from the contract hold the same roots. *)
Example rebuildEntries_roots_of_genuine :
  map ChainEntry.merkleRoot (LogbookReconstructor.rebuildEntries
                               [Fixtures.entryA; Fixtures.entryB])
  = map ChainEntry.merkleRoot (ChainManager.getEntries (fst Samples.genuine)).
Proof. vm_compute. reflexivity. Qed.

(** ** The verification of an export *)

Module ReportLines.

(** The lines of a loop whose step prints the same line whatever the flags. *)
Lemma loop_lines {A L} (step : LogbookVerifier.flags -> A -> LogbookVerifier.flags * L)
      (line : A -> L) :
  (forall f a, snd (step f a) = line a) ->
  forall l f, snd (LogbookVerifier.loop step f l) = map line l.
Proof.
  intros Hstep. induction l as [|a l IH]; intros f; cbn; [reflexivity|].
  pose proof (Hstep f a) as Ha. destruct (step f a) as [f1 x]. cbn in Ha.
  pose proof (IH f1) as Hl. destruct (LogbookVerifier.loop step f1 l) as [f2 xs].
  cbn in *. now subst.
Qed.

Lemma checkContent_line f f' e :
  snd (LogbookVerifier.checkContent f e) = snd (LogbookVerifier.checkContent f' e).
Proof.
  unfold LogbookVerifier.checkContent.
  destruct (LogbookVerifier.isPlaceholder e); [reflexivity|].
  destruct (String.eqb _ _); reflexivity.
Qed.

Lemma checkLink_line g f f' p e :
  snd (LogbookVerifier.checkLink g f p e) = snd (LogbookVerifier.checkLink g f' p e).
Proof.
  unfold LogbookVerifier.checkLink.
  destruct (LogbookVerifier.isPlaceholder e); [reflexivity|].
  destruct p as [prev|].
  - destruct (LogbookVerifier.isPlaceholder prev); [reflexivity|].
    destruct (String.eqb _ _); reflexivity.
  - destruct (String.eqb _ _); reflexivity.
Qed.

Lemma withPrevious_lookup (l : list ExportEntry.t) :
  forall (p : option ExportEntry.t) (i : nat) (e : ExportEntry.t),
    l !! i = Some e ->
    LogbookVerifier.withPrevious p l !! i
    = Some (match i with O => p | S j => l !! j end, e).
Proof.
  induction l as [|a l IH]; intros p [|i] e Hi; try discriminate.
  - injection Hi as <-. reflexivity.
  - cbn in Hi. cbn [LogbookVerifier.withPrevious].
    change ((?x :: ?r) !! S i) with (r !! i).
    rewrite (IH (Some a) i e Hi). now destruct i.
Qed.

Lemma prefix_app (sub post : string) : String.prefix sub (sub +:+ post) = true.
Proof.
  induction sub as [|c sub IH]; [now destruct post|].
  rewrite PayloadFacts.append_cons. cbn. now destruct (ascii_dec c c).
Qed.

Lemma includes_app (sub pre post : string) :
  includes sub (pre +:+ sub +:+ post) = true.
Proof.
  induction pre as [|c pre IH].
  - rewrite PayloadFacts.append_nil.
    destruct (sub +:+ post) eqn:E; cbn [includes]; rewrite <- E, prefix_app; reflexivity.
  - rewrite PayloadFacts.append_cons. cbn [includes]. rewrite IH. apply orb_true_r.
Qed.

End ReportLines.

(** The code-version findings are advisory: the verdict and the findings of
    the content, link and contract checks are the same whatever the
    [proof.txt] files of the archive hold and whatever the current code hash
    is. *)
Remark performVerification_ignores_code_hash
        (anchorService : AnchorService.t) (data : ExportData.t)
        (hash hash' : string) (proofs proofs' : string -> option (option string)) :
  exists r r',
    LogbookVerifier.performVerification anchorService (Ok hash) proofs data = Ok r
    /\ LogbookVerifier.performVerification anchorService (Ok hash') proofs' data = Ok r'
    /\ LogbookVerifier.final r = LogbookVerifier.final r'
    /\ LogbookVerifier.step1 r = LogbookVerifier.step1 r'
    /\ LogbookVerifier.step2 r = LogbookVerifier.step2 r'
    /\ LogbookVerifier.step3 r = LogbookVerifier.step3 r'.
Proof.
  unfold LogbookVerifier.performVerification.
  destruct (LogbookVerifier.loop LogbookVerifier.checkContent _ _) as [f1 lines1].
  destruct (LogbookVerifier.loop _ f1 _) as [f2 lines2].
  destruct (LogbookVerifier.checkContract anchorService data f2) as [f3 lines3].
  eexists. eexists. repeat split; reflexivity.
Qed.

(** X23. The report localises what it finds. Step 1 prints HASH MISMATCH at
    an index exactly when the entry there holds no placeholder marker and
    its content does not hash to its entry hash; step 2 prints BROKEN LINK
    at an index exactly when neither the entry nor the one before it holds
    the marker and its previous hash is not the genesis hash (index 0) or
    the entry hash of the entry before it. *)
Theorem performVerification_localises
        (anchorService : AnchorService.t) (data : ExportData.t)
        (hash : string) (proofs : string -> option (option string)) :
  exists r,
    LogbookVerifier.performVerification anchorService (Ok hash) proofs data = Ok r
    /\ forall (i : nat) (e : ExportEntry.t),
        ExportData.entries data !! i = Some e ->
        (LogbookVerifier.step1 r !! i = Some LogbookVerifier.HASH_MISMATCH
         <-> LogbookVerifier.isPlaceholder e = false
             /\ hashContent (ExportEntry.content e) <> ExportEntry.entryHash e)
        /\ (LogbookVerifier.step2 r !! i = Some LogbookVerifier.BROKEN_LINK
            <-> LogbookVerifier.isPlaceholder e = false
                /\ match i with
                   | O => ExportEntry.previousHash e <> hashContent "genesis"
                   | S j =>
                       exists prev,
                         ExportData.entries data !! j = Some prev
                         /\ LogbookVerifier.isPlaceholder prev = false
                         /\ ExportEntry.previousHash e <> ExportEntry.entryHash prev
                   end).
Proof.
  unfold LogbookVerifier.performVerification.
  set (f0 := {| LogbookVerifier.allValid := true;
                LogbookVerifier.hasPlaceholders := false |}).
  pose proof (ReportLines.loop_lines LogbookVerifier.checkContent
                (fun e => snd (LogbookVerifier.checkContent f0 e))
                (fun f e => ReportLines.checkContent_line f f0 e)
                (ExportData.entries data) f0) as H1.
  destruct (LogbookVerifier.loop LogbookVerifier.checkContent f0 _) as [f1 lines1].
  pose proof (ReportLines.loop_lines
                (fun f p => LogbookVerifier.checkLink (hashContent "genesis") f (fst p) (snd p))
                (fun p => snd (LogbookVerifier.checkLink (hashContent "genesis") f0
                                 (fst p) (snd p)))
                (fun f p => ReportLines.checkLink_line _ f f0 (fst p) (snd p))
                (LogbookVerifier.withPrevious None (ExportData.entries data)) f1) as H2.
  destruct (LogbookVerifier.loop _ f1 _) as [f2 lines2].
  destruct (LogbookVerifier.checkContract anchorService data f2) as [f3 lines3].
  cbn [snd] in H1, H2. subst lines1 lines2.
  eexists. split; [reflexivity|]. cbn [LogbookVerifier.step1 LogbookVerifier.step2].
  intros i e Hi. split.
  - rewrite RebuiltFacts.lookup_map, Hi. cbn [fmap option_fmap option_map].
    unfold LogbookVerifier.checkContent.
    destruct (LogbookVerifier.isPlaceholder e); cbn [snd].
    + split; [discriminate | intros [[=] _]].
    + destruct (String.eqb_spec (hashContent (ExportEntry.content e))
                  (ExportEntry.entryHash e)) as [Heq | Hne]; cbn [snd].
      * split; [discriminate | intros [_ Hne]; contradiction].
      * split; [auto | reflexivity].
  - rewrite RebuiltFacts.lookup_map, (ReportLines.withPrevious_lookup _ None i e Hi).
    cbn [fmap option_fmap option_map fst snd].
    unfold LogbookVerifier.checkLink.
    destruct (LogbookVerifier.isPlaceholder e); cbn [snd].
    { split; [discriminate | intros [[=] _]]. }
    destruct i as [|j].
    + destruct (String.eqb_spec (ExportEntry.previousHash e) (hashContent "genesis"))
        as [Heq | Hne]; cbn [snd].
      * split; [discriminate | intros [_ Hne]; contradiction].
      * split; [auto | reflexivity].
    + destruct (ExportData.entries data !! j) as [prev|] eqn:Hj.
      2:{ exfalso. apply lookup_ge_None in Hj. apply lookup_lt_Some in Hi. lia. }
      destruct (LogbookVerifier.isPlaceholder prev) eqn:Hp; cbn [snd].
      { split; [discriminate|]. intros (_ & prev' & [= <-] & Hp' & _). congruence. }
      destruct (String.eqb_spec (ExportEntry.previousHash e) (ExportEntry.entryHash prev))
        as [Heq | Hne]; cbn [snd].
      * split; [discriminate|]. intros (_ & prev' & [= <-] & _ & Hne). contradiction.
      * split; [|reflexivity]. intros _. split; [reflexivity|]. exists prev. auto.
Qed.

(** X24. An entry whose content holds the placeholder marker anywhere decides
    the verdict: the run ends with RECONSTRUCTED LOGBOOK, whatever the other
    entries hold and whatever the contract answers, an unreachable contract
    included. *)
Theorem placeholder_marker_decides_verdict
        (anchorService : AnchorService.t) (data : ExportData.t)
        (hash : string) (proofs : string -> option (option string))
        (e : ExportEntry.t) (before after : string) :
  In e (ExportData.entries data) ->
  ExportEntry.content e = before +:+ LogbookVerifier.PLACEHOLDER +:+ after ->
  exists r,
    LogbookVerifier.performVerification anchorService (Ok hash) proofs data = Ok r
    /\ LogbookVerifier.final r = LogbookVerifier.RECONSTRUCTED_LOGBOOK.
Proof.
  intros Hin Hcontent.
  destruct (VerifierFacts.verdict anchorService hash proofs data) as (r & Hr & Hfinal).
  exists r. split; [exact Hr|]. rewrite Hfinal.
  assert (Hex : existsb LogbookVerifier.isPlaceholder (ExportData.entries data) = true).
  { apply existsb_exists. exists e. split; [exact Hin|].
    unfold LogbookVerifier.isPlaceholder. rewrite Hcontent.
    apply ReportLines.includes_app. }
  now rewrite Hex.
Qed.

Lemma placeholder_marker_decides_verdict_witness :
  exists r,
    LogbookVerifier.performVerification Fixtures.unreachable (Ok "") Fixtures.noProofs
      Fixtures.exportTamperedAplaceholderB = Ok r
    /\ LogbookVerifier.final r = LogbookVerifier.RECONSTRUCTED_LOGBOOK.
Proof.
  apply (placeholder_marker_decides_verdict Fixtures.unreachable
           Fixtures.exportTamperedAplaceholderB "" Fixtures.noProofs
           (Fixtures.exported 1 "PLACEHOLDER - Original content not available"
              Fixtures.entryB) "" "").
  - right. left. reflexivity.
  - reflexivity.
Defined.

(** ** Exporting a logbook *)

Module ExportFacts.

Section WithPaths.

Variable entryPath : string -> string -> string.

Abbreviation exportEntry := (LogbookExporter.exportEntry entryPath).
Abbreviation exportEntries := (LogbookExporter.exportEntries entryPath).

(** A map that returns has one element per entry, built at its index. *)
Lemma exportEntries_ok (logbook : string) (fs : FileSystem) (entries : list ChainEntry.t) :
  forall (index : nat) (exported : list ExportEntry.t),
    exportEntries logbook fs index entries = Ok exported ->
    length exported = length entries
    /\ forall i e,
        entries !! i = Some e ->
        exists x,
          exported !! i = Some x
          /\ exportEntry logbook fs (index + i) e = Ok x.
Proof.
  induction entries as [|e0 rest IH]; intros index exported; cbn.
  - intros [= <-]. split; [reflexivity|]. intros i e [=].
  - destruct (exportEntry logbook fs index e0) as [x0 | m] eqn:H0; [|discriminate].
    destruct (exportEntries logbook fs (S index) rest) as [xs | m] eqn:Hrest;
      [|discriminate].
    intros [= <-]. destruct (IH _ _ Hrest) as [Hlen Hall].
    split; [cbn; now rewrite Hlen|].
    intros [|i] e Hi.
    + injection Hi as <-. exists x0. rewrite Nat.add_0_r. auto.
    + destruct (Hall i e Hi) as (x & Hx & He). exists x.
      split; [exact Hx|]. now rewrite Nat.add_succ_r.
Qed.

(** What an exported entry holds. *)
Lemma exportEntry_ok (logbook : string) (fs : FileSystem) (index : nat)
      (e : ChainEntry.t) (x : ExportEntry.t) :
  exportEntry logbook fs index e = Ok x ->
  entryFiles fs !! (logbook, ChainEntry.name e) = Some (Text (ExportEntry.content x))
  /\ ExportEntry.index x = Z.of_nat index
  /\ ExportEntry.name x = ChainEntry.name e
  /\ ExportEntry.entryHash x = ChainEntry.entryHash e
  /\ ExportEntry.previousHash x
     = (if String.eqb (ChainEntry.previousHash e) "" then hashContent "genesis"
        else ChainEntry.previousHash e)
  /\ ExportEntry.txHash x = ChainEntry.txHash e
  /\ ExportEntry.timestamp x = ChainEntry.timestamp e
  /\ ExportEntry.blockNumber x = ChainEntry.blockNumber e
  /\ ExportEntry.merkleRoot x = ChainEntry.merkleRoot e.
Proof.
  unfold LogbookExporter.exportEntry.
  destruct (entryFiles fs !! (logbook, ChainEntry.name e)) as [[m | content]|];
    try discriminate.
  intros [= <-]. cbn. repeat split; reflexivity.
Qed.

(** The map stops at the first entry that has no file. *)
Lemma exportEntries_missing (logbook : string) (fs : FileSystem)
      (before after : list ChainEntry.t) (e : ChainEntry.t) :
  (forall b, In b before ->
             exists content,
               entryFiles fs !! (logbook, ChainEntry.name b) = Some (Text content)) ->
  entryFiles fs !! (logbook, ChainEntry.name e) = None ->
  forall index,
    exportEntries logbook fs index (before ++ e :: after)
    = Throw ("Entry file not found: " +:+ entryPath logbook (ChainEntry.name e)).
Proof.
  intros Hbefore Hmissing.
  induction before as [|b before IH]; intros index; cbn.
  - unfold LogbookExporter.exportEntry. now rewrite Hmissing.
  - destruct (Hbefore b (or_introl eq_refl)) as (content & Hb).
    unfold LogbookExporter.exportEntry at 1. rewrite Hb.
    rewrite IH; [reflexivity|]. intros b' Hin. apply Hbefore. now right.
Qed.

End WithPaths.

Lemma hashContent_nonempty (content : string) : hashContent content <> "".
Proof. unfold hashContent, ethers_sha256. discriminate. Qed.

Lemma withPrevious_length (l : list ExportEntry.t) :
  forall p, length (LogbookVerifier.withPrevious p l) = length l.
Proof. induction l as [|a l IH]; intros p; cbn; [reflexivity | now rewrite IH]. Qed.

Lemma withPrevious_In (l : list ExportEntry.t) (q : option ExportEntry.t * ExportEntry.t) :
  In q (LogbookVerifier.withPrevious None l) ->
  exists i,
    l !! i = Some (snd q)
    /\ fst q = match i with O => None | S j => l !! j end.
Proof.
  intros Hin. apply list_elem_of_In, list_elem_of_lookup in Hin. destruct Hin as (i & Hi).
  assert (Hlt : (i < length l)%nat).
  { apply lookup_lt_Some in Hi. now rewrite withPrevious_length in Hi. }
  destruct (lookup_lt_is_Some_2 l i Hlt) as (x & Hx).
  rewrite (ReportLines.withPrevious_lookup l None i x Hx) in Hi.
  injection Hi as <-. exists i. auto.
Qed.

Lemma In_combine_lookup {A B} (l : list A) :
  forall (k : list B) (a : A) (b : B),
    In (a, b) (combine l k) -> exists i, l !! i = Some a /\ k !! i = Some b.
Proof.
  induction l as [|a0 l IH]; intros [|b0 k] a b; cbn; try contradiction.
  intros [[= <- <-] | Hin].
  - exists 0%nat. auto.
  - destruct (IH k a b Hin) as (i & Ha & Hb). exists (S i). auto.
Qed.

End ExportFacts.

(** X25. An export that is built holds one entry per entry of the chain, in
    the order of the chain: at index [i] the name, hashes, transaction,
    time, block and Merkle root of the chain entry at [i], its [index] field
    equal to [i], the content of its [entry.txt], and the genesis hash in the
    place of an empty previous hash; [totalEntries] is their number. *)
Theorem export_entries
        (entryPath : string -> string -> string) (chainManager : ChainManager.t)
        (logbookName walletAddress : string) (chainId : Z) (shouldExport : bool)
        (keccak256 : Buffer.t -> string) (getPackageVersionHash : result string)
        (now : Z) (fs : FileSystem) (data : ExportData.t) :
  LogbookExporter.export entryPath chainManager logbookName walletAddress chainId
    shouldExport keccak256 getPackageVersionHash now fs
  = Ok (LogbookExporter.Archive data) ->
  let entries := ChainManager.getEntries chainManager in
  entries <> []
  /\ ExportData.totalEntries (ExportData.metadata data) = Z.of_nat (length entries)
  /\ length (ExportData.entries data) = length entries
  /\ forall (i : nat) (e : ChainEntry.t),
      entries !! i = Some e ->
      exists content,
        entryFiles fs !! (logbookName, ChainEntry.name e) = Some (Text content)
        /\ ExportData.entries data !! i
           = Some {| ExportEntry.index := Z.of_nat i;
                     ExportEntry.name := ChainEntry.name e;
                     ExportEntry.content := content;
                     ExportEntry.entryHash := ChainEntry.entryHash e;
                     ExportEntry.previousHash :=
                       if String.eqb (ChainEntry.previousHash e) ""
                       then hashContent "genesis"
                       else ChainEntry.previousHash e;
                     ExportEntry.txHash := ChainEntry.txHash e;
                     ExportEntry.timestamp := ChainEntry.timestamp e;
                     ExportEntry.blockNumber := ChainEntry.blockNumber e;
                     ExportEntry.merkleRoot := ChainEntry.merkleRoot e |}.
Proof.
  intros Hexport entries. unfold LogbookExporter.export in Hexport.
  fold entries in Hexport.
  destruct (Nat.eqb (length entries) 0) eqn:Hlen; [discriminate|].
  destruct (negb shouldExport); [discriminate|].
  destruct getPackageVersionHash as [codeHash | m]; [|discriminate].
  destruct (Date.toISOString now) as [exportDate | m]; [|discriminate].
  destruct (LogbookExporter.exportEntries entryPath logbookName fs 0 entries)
    as [exported | m] eqn:Hmap; [|discriminate].
  injection Hexport as <-. cbn.
  destruct (ExportFacts.exportEntries_ok _ _ _ _ _ _ Hmap) as [Hl Hall].
  split; [intros Hnil; rewrite Hnil in Hlen; discriminate|].
  split; [reflexivity|]. split; [exact Hl|].
  intros i e Hi. destruct (Hall i e Hi) as (x & Hx & He). cbn in He.
  exists (ExportEntry.content x). rewrite Hx.
  unfold LogbookExporter.exportEntry in He.
  destruct (entryFiles fs !! (logbookName, ChainEntry.name e)) as [[m | content]|];
    try discriminate.
  injection He as <-. auto.
Qed.

Lemma export_entries_witness :
  exists data,
    LogbookExporter.export Samples.entryPath (fst Samples.genuine) "lb"
      Samples.wallet 1 true (fun _ => "") (Ok "") 1735689600000 (snd Samples.genuine)
    = Ok (LogbookExporter.Archive data)
    /\ length (ExportData.entries data) = 2%nat.
Proof.
  destruct (LogbookExporter.export Samples.entryPath (fst Samples.genuine) "lb"
              Samples.wallet 1 true (fun _ => "") (Ok "") 1735689600000
              (snd Samples.genuine))
    as [[| | data] | m] eqn:Hexport; try (vm_compute in Hexport; discriminate Hexport).
  exists data. split; [reflexivity|].
  exact (proj1 (proj2 (proj2 (export_entries _ _ _ _ _ _ _ _ _ _ _ Hexport)))).
Defined.

(** X26. An export needs every entry file: when the entry file of some entry
    is missing and those of the entries before it are there, a confirmed
    export throws "Entry file not found" with the path of that file, and
    hands nothing to the archive. *)
Theorem export_missing_entry_file
        (entryPath : string -> string -> string) (chainManager : ChainManager.t)
        (logbookName walletAddress : string) (chainId : Z)
        (keccak256 : Buffer.t -> string) (codeHash : string)
        (now : Z) (fs : FileSystem)
        (before after : list ChainEntry.t) (e : ChainEntry.t) :
  ChainManager.getEntries chainManager = before ++ e :: after ->
  (forall b, In b before ->
             exists content,
               entryFiles fs !! (logbookName, ChainEntry.name b) = Some (Text content)) ->
  entryFiles fs !! (logbookName, ChainEntry.name e) = None ->
  Z.abs now <= 8640000000000000 ->
  LogbookExporter.export entryPath chainManager logbookName walletAddress chainId
    true keccak256 (Ok codeHash) now fs
  = Throw ("Entry file not found: " +:+ entryPath logbookName (ChainEntry.name e)).
Proof.
  intros Hes Hbefore Hmissing Hnow. unfold LogbookExporter.export.
  rewrite Hes, length_app. cbn [length].
  replace (Nat.eqb (length before + S (length after)) 0) with false
    by (symmetry; apply Nat.eqb_neq; lia).
  cbn [negb]. unfold Date.toISOString.
  destruct (Z.ltb_spec 8640000000000000 (Z.abs now)) as [Hlt | _]; [lia|].
  destruct (Date.civil (now / 86400000)) as [[y m] d].
  now rewrite (ExportFacts.exportEntries_missing entryPath _ _ _ _ _ Hbefore Hmissing).
Qed.

Lemma export_missing_entry_file_witness :
  LogbookExporter.export Samples.entryPath Fixtures.chainAB "lb" Samples.wallet 1 true
    (fun _ => "") (Ok "") 1735689600000 Samples.onlyA
  = Throw "Entry file not found: logbooks/lb/b/entry.txt".
Proof.
  apply (export_missing_entry_file Samples.entryPath
           Fixtures.chainAB "lb" Samples.wallet 1
           (fun _ => "") "" 1735689600000 Samples.onlyA
           [LogbookReconstructor.rebuildEntry [Fixtures.entryA; Fixtures.entryB] 0
              Fixtures.entryA]
           []
           (LogbookReconstructor.rebuildEntry [Fixtures.entryA; Fixtures.entryB] 1
              Fixtures.entryB)).
  - reflexivity.
  - intros b [<- | []]. exists "A". vm_compute. reflexivity.
  - vm_compute. reflexivity.
  - vm_compute. discriminate.
Defined.

(** X27. Export, then verify: for a logbook that validates on its disk, with
    no entry file holding the placeholder marker, the export that is built
    passes verification, whenever the contract returns for the exported
    wallet entries that agree with the chain in name, entry hash and
    previous hash, and reports its own chain valid. *)
Theorem export_then_verify
        (entryPath : string -> string -> string) (chainManager : ChainManager.t)
        (walletAddress : string) (chainId : Z)
        (keccak256 : Buffer.t -> string) (codeHash currentCodeHash : string)
        (now : Z) (fs : FileSystem) (data : ExportData.t)
        (anchorService : AnchorService.t) (onChainEntries : list BaseEntry.t)
        (validation : ValidationResult.t)
        (proofs : string -> option (option string)) :
  let logbookName := ChainManager.logbookName chainManager in
  ChainManager.valid (ChainManager.validateChain chainManager fs) = true ->
  (forall e content,
      In e (ChainManager.getEntries chainManager) ->
      entryFiles fs !! (logbookName, ChainEntry.name e) = Some (Text content) ->
      includes LogbookVerifier.PLACEHOLDER content = false) ->
  LogbookExporter.export entryPath chainManager logbookName walletAddress chainId
    true keccak256 (Ok codeHash) now fs
  = Ok (LogbookExporter.Archive data) ->
  AnchorService.getAllEntries anchorService logbookName (Some walletAddress)
  = Ok onChainEntries ->
  Forall2 (fun (e : ChainEntry.t) (b : BaseEntry.t) =>
             ChainEntry.name e = BaseEntry.name b
             /\ ChainEntry.entryHash e = BaseEntry.entryHash b
             /\ ChainEntry.previousHash e = BaseEntry.previousHash b)
          (ChainManager.getEntries chainManager) onChainEntries ->
  AnchorService.validateChain anchorService logbookName (Some walletAddress)
  = Ok validation ->
  ValidationResult.valid validation = true ->
  exists r,
    LogbookVerifier.performVerification anchorService (Ok currentCodeHash) proofs data
    = Ok r
    /\ LogbookVerifier.final r = LogbookVerifier.VERIFICATION_PASSED.
Proof.
  intros logbookName Hvalid Hgenuine Hexport Hledger Hagree Hvalidate Hok.
  apply ValidateFacts.valid_iff_chainOk in Hvalid. destruct Hvalid as (Hg & Hl & Hc).
  set (entries := ChainManager.getEntries chainManager) in *.
  assert (Hdata : ExportData.logbookName (ExportData.metadata data) = logbookName
                  /\ ExportData.walletAddress (ExportData.metadata data) = walletAddress
                  /\ exists exported,
                      ExportData.entries data = exported
                      /\ LogbookExporter.exportEntries entryPath logbookName fs 0 entries
                         = Ok exported).
  { revert Hexport. unfold LogbookExporter.export. fold entries.
    destruct (Nat.eqb (length entries) 0); [discriminate|]. cbn [negb].
    destruct (Date.toISOString now) as [exportDate | m]; [|discriminate].
    destruct (LogbookExporter.exportEntries entryPath logbookName fs 0 entries)
      as [exported | m]; [|discriminate].
    intros [= <-]. cbn. eauto. }
  destruct Hdata as (Hname & Hwallet & exported & Hentries & Hmap).
  destruct (ExportFacts.exportEntries_ok _ _ _ _ _ _ Hmap) as [Hlen Hall].
  (* Every exported entry comes from the chain entry at its index. *)
  assert (Hfrom : forall i x,
             exported !! i = Some x ->
             exists e, entries !! i = Some e
                       /\ LogbookExporter.exportEntry entryPath logbookName fs i e = Ok x).
  { intros i x Hx.
    assert (Hlt : (i < length entries)%nat).
    { rewrite <- Hlen. now apply lookup_lt_Some in Hx. }
    destruct (lookup_lt_is_Some_2 entries i Hlt) as (e & He).
    destruct (Hall i e He) as (x' & Hx' & Hexp). cbn in Hexp.
    exists e. split; [exact He|]. congruence. }
  assert (Hhash : forall i x e,
             entries !! i = Some e ->
             LogbookExporter.exportEntry entryPath logbookName fs i e = Ok x ->
             hashContent (ExportEntry.content x) = ExportEntry.entryHash x
             /\ LogbookVerifier.isPlaceholder x = false).
  { intros i x e He Hexp.
    apply ExportFacts.exportEntry_ok in Hexp.
    destruct Hexp as (Hfile & _ & _ & Hh & _).
    assert (Hin : In e entries).
    { apply list_elem_of_In. now apply list_elem_of_lookup_2 in He. }
    destruct (Hc e Hin) as (content & Hfile' & Hcontent).
    fold logbookName in Hfile'. rewrite Hfile in Hfile'. injection Hfile' as Heq.
    split; [rewrite Hh, Heq; exact Hcontent|].
    unfold LogbookVerifier.isPlaceholder. exact (Hgenuine e _ Hin Hfile). }
  destruct (VerifierFacts.verdict anchorService currentCodeHash proofs data)
    as (r & Hr & Hfinal).
  exists r. split; [exact Hr|]. rewrite Hfinal, Hentries.
  assert (Hno : existsb LogbookVerifier.isPlaceholder exported = false).
  { destruct (existsb LogbookVerifier.isPlaceholder exported) eqn:Hex; [|reflexivity].
    apply existsb_exists in Hex. destruct Hex as (x & Hin & Hp).
    apply list_elem_of_In, list_elem_of_lookup in Hin. destruct Hin as (i & Hx).
    destruct (Hfrom i x Hx) as (e & He & Hexp).
    destruct (Hhash i x e He Hexp) as [_ Hnp]. congruence. }
  rewrite Hno.
  assert (Hpass : Reading.checksPass anchorService data = true).
  { unfold Reading.checksPass. rewrite Hentries.
    apply andb_true_intro. split; [apply andb_true_intro; split|].
    - apply forallb_forall. intros x Hin.
      apply list_elem_of_In, list_elem_of_lookup in Hin. destruct Hin as (i & Hx).
      destruct (Hfrom i x Hx) as (e & He & Hexp).
      destruct (Hhash i x e He Hexp) as [Hh _].
      unfold Reading.contentOk. rewrite Hh, String.eqb_refl. apply orb_true_r.
    - apply forallb_forall. intros [p x] Hin.
      apply ExportFacts.withPrevious_In in Hin. cbn [fst snd] in Hin.
      destruct Hin as (i & Hx & Hp).
      destruct (Hfrom i x Hx) as (e & He & Hexp).
      destruct (Hhash i x e He Hexp) as [_ Hnp].
      apply ExportFacts.exportEntry_ok in Hexp.
      destruct Hexp as (_ & _ & _ & _ & Hprev & _).
      unfold Reading.linkOk. cbn [fst snd]. rewrite Hnp. cbn [orb].
      destruct i as [|j]; subst p.
      + assert (Hfirst : ChainEntry.previousHash e = GENESIS_HASH).
        { apply Hg. now destruct entries as [|e0 rest]; [discriminate | injection He as <-]. }
        rewrite Hprev, Hfirst. apply String.eqb_eq.
        unfold GENESIS_HASH. now destruct (String.eqb (hashContent "genesis") "").
      + assert (Hlt : (j < length exported)%nat).
        { apply lookup_lt_Some in Hx. lia. }
        destruct (lookup_lt_is_Some_2 exported j Hlt) as (xp & Hxp). rewrite Hxp.
        destruct (Hfrom j xp Hxp) as (ep & Hep & Hexpp).
        destruct (Hhash j xp ep Hep Hexpp) as [Hhp Hnpp]. rewrite Hnpp. cbn [orb].
        apply ExportFacts.exportEntry_ok in Hexpp.
        destruct Hexpp as (_ & _ & _ & Hhashp & _).
        pose proof (Hl j ep e Hep He) as Hlink.
        rewrite Hprev, Hlink, <- Hhashp, <- Hhp.
        destruct (String.eqb_spec (hashContent (ExportEntry.content xp)) "") as [Hempty | _].
        * now apply ExportFacts.hashContent_nonempty in Hempty.
        * apply String.eqb_refl.
    - unfold Reading.ledgerOk. rewrite Hname, Hwallet, Hledger, Hvalidate, Hok, Hentries.
      pose proof (Forall2_length _ _ _ Hagree) as Hlen'.
      rewrite andb_true_r. apply andb_true_intro. split.
      + apply Nat.eqb_eq. fold entries in Hlen'. lia.
      + apply forallb_forall. intros [x b] Hin.
        apply ExportFacts.In_combine_lookup in Hin. destruct Hin as (i & Hx & Hb).
        destruct (Hfrom i x Hx) as (e & He & Hexp).
        destruct (Hhash i x e He Hexp) as [Hh _].
        apply ExportFacts.exportEntry_ok in Hexp.
        destruct Hexp as (_ & _ & Hn & Hhx & Hprev & _).
        destruct (Forall2_lookup_lr _ _ _ _ _ _ Hagree He Hb) as (Hn' & Hh' & Hp').
        unfold Reading.onChainOk. cbn [fst snd].
        rewrite Hhx, Hh', String.eqb_refl, Hn, Hn', String.eqb_refl, Hprev.
        assert (Hne : ChainEntry.previousHash e <> "").
        { destruct i as [|j].
          - assert (Hfirst : ChainEntry.previousHash e = GENESIS_HASH).
            { apply Hg. now destruct entries as [|e0 rest];
                [discriminate | injection He as <-]. }
            rewrite Hfirst. apply ExportFacts.hashContent_nonempty.
          - assert (Hlt : (j < length entries)%nat).
            { apply lookup_lt_Some in He. lia. }
            destruct (lookup_lt_is_Some_2 entries j Hlt) as (ep & Hep).
            rewrite (Hl j ep e Hep He).
            assert (Hinp : In ep entries).
            { apply list_elem_of_In. now apply list_elem_of_lookup_2 in Hep. }
            destruct (Hc ep Hinp) as (c & _ & <-).
            apply ExportFacts.hashContent_nonempty. }
        apply String.eqb_neq in Hne. rewrite Hne, Hp', String.eqb_refl. reflexivity. }
  now rewrite Hpass.
Qed.

Lemma export_then_verify_witness :
  exists r,
    LogbookVerifier.performVerification Fixtures.contractAB (Ok "") Fixtures.noProofs
      Samples.archive = Ok r
    /\ LogbookVerifier.final r = LogbookVerifier.VERIFICATION_PASSED.
Proof.
  apply (export_then_verify Samples.entryPath (fst Samples.genuine) Samples.wallet 1
           (fun _ => "") "" "" 1735689600000 (snd Samples.genuine) Samples.archive
           Fixtures.contractAB [Fixtures.entryA; Fixtures.entryB] Fixtures.valid
           Fixtures.noProofs).
  - vm_compute. reflexivity.
  - intros e content Hin. vm_compute in Hin.
    destruct Hin as [<- | [<- | []]]; vm_compute; intros [= <-]; reflexivity.
  - vm_compute. reflexivity.
  - reflexivity.
  - repeat constructor.
  - reflexivity.
  - reflexivity.
Defined.

(** ** Validation on the contract, from the menu *)

(** X28. The menu entry "validate on chain" prints "No onchain entries
    found" exactly when the query of the contract throws or the contract
    answers invalid at index 0: a failed query is shown as an empty
    logbook, and never as an error. *)
Theorem validateOnChain_no_entries
        (anchorService : AnchorService.t) (logbook : string) :
  logbook <> "" ->
  (LogbookCli.validateOnChain anchorService (Some logbook)
   = Some LogbookCli.NO_ONCHAIN_ENTRIES
   <-> (exists message,
          AnchorService.validateChain anchorService logbook None = Throw message)
       \/ exists validation,
            AnchorService.validateChain anchorService logbook None = Ok validation
            /\ ValidationResult.valid validation = false
            /\ ValidationResult.brokenAtIndex validation = 0).
Proof.
  intros Hne. apply String.eqb_neq in Hne.
  unfold LogbookCli.validateOnChain, SyncService.validateOnChain. rewrite Hne.
  destruct (AnchorService.validateChain anchorService logbook None) as [[v i] | m]; cbn.
  - destruct v; cbn.
    + split; [discriminate|]. intros [(m & [=]) | (v & [= <-] & [=] & _)].
    + destruct (Z.eqb_spec i 0) as [-> | Hi].
      * split; [|reflexivity]. intros _. right. eexists. eauto.
      * split; [discriminate|]. intros [(m & [=]) | (v & [= <-] & _ & Hz)].
        cbn in Hz. contradiction.
  - split; [|reflexivity]. intros _. left. eauto.
Qed.

Lemma validateOnChain_no_entries_witness :
  LogbookCli.validateOnChain Fixtures.unreachable (Some "lb")
  = Some LogbookCli.NO_ONCHAIN_ENTRIES.
Proof.
  apply (validateOnChain_no_entries Fixtures.unreachable "lb"); [discriminate|].
  left. exists "network error". reflexivity.
Defined.

(** ** Creating an entry *)

Module AnchorFacts.


(** The previous hash that [saveAndAnchor] sends is the one that [addEntry]
    records. *)
Lemma previousHash_sent (cm : ChainManager.t) :
  match ChainManager.getLastEntry cm with
  | Some previousEntry => ChainEntry.entryHash previousEntry
  | None => hashContent "genesis"
  end = ChainManager.lastEntryHash (ChainManager.getEntries cm).
Proof. reflexivity. Qed.

End AnchorFacts.



(** X30. What [saveAndAnchor] records is what it anchored. After a call that
    returns, the contract has accepted the entry name, the hash of the
    content and the hash of the last entry (the genesis hash on an empty
    chain) for the creator's logbook; the chain in memory and in
    [chain.json] ends with an entry of that name, those two hashes and the
    transaction hash of the receipt; and [entry.txt] holds the content. *)
Theorem saveAndAnchor_records_what_it_anchored
        (creator : LogbookCreator.t) (entryName content : string)
        (cm cm' : ChainManager.t) (fs fs' : FileSystem) :
  LogbookCreator.saveAndAnchor creator entryName content (cm, fs)
  = (Ok tt, (cm', fs')) ->
  exists txHash entry,
    LogbookCreator.send creator (LogbookCreator.logbookName creator) entryName
      (hashContent content) (ChainManager.lastEntryHash (ChainManager.getEntries cm))
    = Ok txHash
    /\ ChainManager.getEntries cm' = ChainManager.getEntries cm ++ [entry]
    /\ ChainEntry.name entry = entryName
    /\ ChainEntry.entryHash entry = hashContent content
    /\ ChainEntry.previousHash entry
       = ChainManager.lastEntryHash (ChainManager.getEntries cm)
    /\ ChainEntry.txHash entry = txHash
    /\ chainFiles fs' !! ChainManager.logbookName cm
       = Some (Document (ChainManager.data cm'))
    /\ entryFiles fs' !! (ChainManager.logbookName cm, entryName) = Some (Text content).
Proof.
  unfold LogbookCreator.saveAndAnchor, ChainManager.this. unfold bind at 1. cbn [fst].
  rewrite AnchorFacts.previousHash_sent.
  destruct (LogbookCreator.getPackageVersionHash creator) as [codeHash | m];
    [|discriminate].
  unfold Anchor.anchorEntry.
  destruct (blank (LogbookCreator.logbookName creator)); [discriminate|].
  destruct (blank entryName); [discriminate|].
  destruct (_ || _); [discriminate|].
  destruct (_ || _); [discriminate|].
  destruct (LogbookCreator.send creator _ _ _ _) as [txHash | m] eqn:Hsend;
    [|discriminate].
  cbn [TxResult.txHash].
  destruct (LogbookCreator.getTransactionReceipt creator txHash) as [[blockNumber|] | m];
    try discriminate.
  unfold bind at 1.
  destruct (ChainManager.addEntry entryName (hashContent content) txHash _ blockNumber
              (cm, fs)) as [[entry | m] [cm1 fs1]] eqn:Hadd; [|discriminate].
  destruct (ChainFacts.addEntry_ok _ _ _ _ _ _ _ _ _ _ Hadd)
    as (_ & He & _ & _ & Hes & _ & Hchain & _ & Hw).
  unfold ChainManager.onDisk, LogbookCreator.saveFiles, LogbookCreator.writeProofFile,
    writeEntryFile, mkdirEntry, bind, get, put, ret, throw. cbn [fst snd].
  destruct (entryFiles fs1 !! (ChainManager.logbookName cm, entryName));
    rewrite ?Hw; cbn [writeError]; intros [= <- <-];
    exists txHash, entry; (split; [reflexivity|]); (split; [exact Hes|]);
    subst entry; cbn [ChainEntry.name ChainEntry.entryHash ChainEntry.previousHash
                      ChainEntry.txHash chainFiles entryFiles];
    repeat (split; [reflexivity|]);
    (split; [rewrite Hchain; apply lookup_insert_eq | apply lookup_insert_eq]).
Qed.

Lemma saveAndAnchor_records_what_it_anchored_witness :
  exists txHash entry,
    Ok Fixtures.txA = Ok txHash
    /\ ChainManager.getEntries (fst (snd Samples.anchored))
       = ChainManager.getEntries (fst Samples.opened) ++ [entry]
    /\ ChainEntry.name entry = "0001_a"
    /\ ChainEntry.entryHash entry = hashContent "A"
    /\ ChainEntry.previousHash entry
       = ChainManager.lastEntryHash (ChainManager.getEntries (fst Samples.opened))
    /\ ChainEntry.txHash entry = txHash
    /\ chainFiles (snd (snd Samples.anchored)) !! "test-logbook"
       = Some (Document (ChainManager.data (fst (snd Samples.anchored))))
    /\ entryFiles (snd (snd Samples.anchored)) !! ("test-logbook", "0001_a")
       = Some (Text "A").
Proof.
  apply (saveAndAnchor_records_what_it_anchored Samples.creator "0001_a" "A"
           (fst Samples.opened) (fst (snd Samples.anchored))
           (snd Samples.opened) (snd (snd Samples.anchored))).
  vm_compute. reflexivity.
Defined.
